(** * Bhutan legal RAG prototypes: retrieval and caching core

    A shallow embedding of the chunking, fingerprinting, cache validation and
    retrieval code of

      - bhutanhackathon/bhutan-legal-rag/persistent_bhutan_rag.py
        (class PersistentBhutanRAG),
      - bhutanhackathon/bhutan-legal-rag/bhutan_legal_rag.py
        (class BhutanLegalRAG),
      - 21Coder's/bhutan-legal-rag/version2.py
        (class ImprovedBhutanRAG),

    followed by the properties claimed of them.

    Conventions.  Python [int] is [Z]; Python [str] is [string], read as a
    sequence of one-byte characters (case folding and white space are the
    ASCII ones); a Python list is a [list]; a dict whose iteration order is
    observed is an association list in insertion order.  A call that can raise
    returns a [result]. *)

From Stdlib Require Import String Ascii List ZArith Lia Bool Arith.
From Stdlib Require Import NArith QArith DecimalString DecimalN.
From Stdlib Require Import Permutation Sorted.
Import ListNotations.

Local Open Scope string_scope.
Local Open Scope list_scope.
Local Open Scope Z_scope.

(* ===================================================================== *)
(** ** Python primitives used by the sources                              *)
(* ===================================================================== *)

Module Py.

(** Exceptions that the modelled code can raise by itself. *)
Inductive exn : Type :=
| ValueError   (* range() arg 3 must not be zero *)
| IndexError.  (* list index out of range *)

Inductive result (A : Type) : Type :=
| Ok (a : A)
| Raise (e : exn).
Arguments Ok {A} a.
Arguments Raise {A} e.

Definition bind {A B} (r : result A) (k : A -> result B) : result B :=
  match r with
  | Ok a => k a
  | Raise e => Raise e
  end.

Definition is_ok {A} (r : result A) : bool :=
  match r with Ok _ => true | Raise _ => false end.

Definition len {A} (l : list A) : Z := Z.of_nat (List.length l).

(** *** Characters and strings *)

(** [str.isspace] on one-byte characters: TAB, LF, VT, FF, CR, the four
    separators FS GS RS US, and the blank. *)
Definition is_space (c : ascii) : bool :=
  let n := nat_of_ascii c in
  ((9 <=? n) && (n <=? 13) || (28 <=? n) && (n <=? 32))%nat.

Definition lower_char (c : ascii) : ascii :=
  let n := nat_of_ascii c in
  if ((65 <=? n) && (n <=? 90))%nat then ascii_of_nat (n + 32) else c.

(** [s.lower()] *)
Fixpoint lower (s : string) : string :=
  match s with
  | EmptyString => EmptyString
  | String c s' => String (lower_char c) (lower s')
  end.

(** [s.startswith(p)] *)
Fixpoint startswith (p s : string) : bool :=
  match p, s with
  | EmptyString, _ => true
  | String _ _, EmptyString => false
  | String a p', String b s' => Ascii.eqb a b && startswith p' s'
  end.

(** [sub in s] on strings *)
Fixpoint str_in (sub s : string) : bool :=
  startswith sub s ||
  match s with
  | EmptyString => false
  | String _ s' => str_in sub s'
  end.

(** Truth value of a string: non-empty. *)
Definition truthy (s : string) : bool :=
  match s with EmptyString => false | String _ _ => true end.

(** [s.lstrip()], [s.rstrip()], [s.strip()] *)
Fixpoint lstrip (s : string) : string :=
  match s with
  | EmptyString => EmptyString
  | String c s' => if is_space c then lstrip s' else s
  end.

Fixpoint rstrip (s : string) : string :=
  match s with
  | EmptyString => EmptyString
  | String c s' =>
      match rstrip s' with
      | EmptyString => if is_space c then EmptyString else String c EmptyString
      | r => String c r
      end
  end.

Definition strip (s : string) : string := rstrip (lstrip s).

(** [s.split()]: words separated by runs of white space, no empty word.
    [cur] is the word being read. *)
Fixpoint split_from (cur s : string) : list string :=
  match s with
  | EmptyString => if truthy cur then [cur] else []
  | String c s' =>
      if is_space c
      then (if truthy cur then cur :: split_from EmptyString s'
            else split_from EmptyString s')
      else split_from (cur ++ String c EmptyString)%string s'
  end.

Definition split (s : string) : list string := split_from EmptyString s.

(** [s.split(sep)] for a one-character separator: every field is kept,
    empty ones too. *)
Fixpoint split_on_from (sep : ascii) (cur s : string) : list string :=
  match s with
  | EmptyString => [cur]
  | String c s' =>
      if Ascii.eqb c sep then cur :: split_on_from sep EmptyString s'
      else split_on_from sep (cur ++ String c EmptyString)%string s'
  end.

Definition split_on (sep : ascii) (s : string) : list string :=
  split_on_from sep EmptyString s.

(** [sep.join(l)] *)
Fixpoint join (sep : string) (l : list string) : string :=
  match l with
  | [] => EmptyString
  | [w] => w
  | w :: ((_ :: _) as l') => (w ++ sep ++ join sep l')%string
  end.

(** [s.replace(a, b)] for single characters. *)
Fixpoint replace_char (a b : ascii) (s : string) : string :=
  match s with
  | EmptyString => EmptyString
  | String c s' => String (if Ascii.eqb c a then b else c) (replace_char a b s')
  end.

(** [s[:n]] for a literal [n >= 0]. *)
Fixpoint str_take (n : nat) (s : string) : string :=
  match n, s with
  | O, _ => EmptyString
  | _, EmptyString => EmptyString
  | S n', String c s' => String c (str_take n' s')
  end.

(** *** Slices and ranges *)

(** How a slice bound is resolved against a sequence of length [n]:
    a negative bound counts from the end, and both are clipped to [0, n]. *)
Definition slice_bound (n i : Z) : Z :=
  if i <? 0 then Z.max 0 (i + n) else Z.min i n.

(** [l[start:stop]] *)
Definition slice {A} (l : list A) (start stop : Z) : list A :=
  let n := len l in
  let a := slice_bound n start in
  let b := slice_bound n stop in
  firstn (Z.to_nat (b - a)) (skipn (Z.to_nat a) l).

(** [l[:stop]] *)
Definition slice_to {A} (l : list A) (stop : Z) : list A := slice l 0 stop.

Fixpoint range_up (fuel : nat) (i stop step : Z) : list Z :=
  match fuel with
  | O => []
  | S fuel' => if i <? stop then i :: range_up fuel' (i + step) stop step else []
  end.

Fixpoint range_down (fuel : nat) (i stop step : Z) : list Z :=
  match fuel with
  | O => []
  | S fuel' => if stop <? i then i :: range_down fuel' (i + step) stop step else []
  end.

(** [range(start, stop, step)], as the list of the values it yields.  A step
    of at least one in absolute value reaches [stop] within [|stop - start|]
    iterations. *)
Definition range (start stop step : Z) : result (list Z) :=
  if step =? 0 then Raise ValueError
  else if 0 <? step then Ok (range_up (Z.to_nat (stop - start)) start stop step)
  else Ok (range_down (Z.to_nat (start - stop)) start stop step).

(** Python's sort is stable.  [stable_sort before l] orders [l] so that an
    element comes after those that are strictly [before] it, elements that
    are not ordered by [before] keeping their original order: insertion
    from the right, each element going in front of the first one that is not
    strictly before it. *)
Fixpoint insert_by {A} (before : A -> A -> bool) (x : A) (l : list A) : list A :=
  match l with
  | [] => [x]
  | y :: l' =>
      if before y x then y :: insert_by before x l' else x :: y :: l'
  end.

Fixpoint stable_sort {A} (before : A -> A -> bool) (l : list A) : list A :=
  match l with
  | [] => []
  | x :: l' => insert_by before x (stable_sort before l')
  end.

(** [l.sort(reverse=True, key=key)]: larger keys first; with [reverse=True]
    elements of equal key still keep their original order. *)
Definition sort_desc {A} (key : A -> Z) (l : list A) : list A :=
  stable_sort (fun y x => key x <? key y) l.

(** [enumerate(l)] *)
Fixpoint enumerate_from {A} (i : nat) (l : list A) : list (nat * A) :=
  match l with
  | [] => []
  | x :: l' => (i, x) :: enumerate_from (S i) l'
  end.

Definition enumerate {A} (l : list A) : list (nat * A) := enumerate_from 0 l.

(** [s[a:b]] on a string, for [0 <= a <= b]. *)
Definition str_slice (a b : nat) (s : string) : string :=
  String.substring a (b - a) s.

(** The line feed. *)
Definition LF : string := String (ascii_of_nat 10) EmptyString.

End Py.

Import Py.

Notation "x <- r ;; k" := (Py.bind r (fun x => k))
  (at level 61, r at next level, right associativity).

(* ===================================================================== *)
(** ** Chunker                                                            *)
(* ===================================================================== *)

(** The body of the [for i in range(...)] loop shared by
    [PersistentBhutanRAG.chunk_text] and [ImprovedBhutanRAG.simple_chunk_text]:
    [idxs] are the values of [i] still to come, [chunks] the list built so
    far.  The [break] ends the loop whatever [range] would still yield. *)
Fixpoint chunk_loop (words : list string) (chunk_size : Z) (idxs : list Z)
  (chunks : list string) : list string :=
  match idxs with
  | [] => chunks
  | i :: rest =>
      let chunk_words := slice words i (i + chunk_size) in
      let chunk := join " " chunk_words in
      let chunks := if truthy (strip chunk) then chunks ++ [chunk] else chunks in
      if i + chunk_size >=? len words then chunks
      else chunk_loop words chunk_size rest chunks
  end.

(** persistent_bhutan_rag.py, [PersistentBhutanRAG.chunk_text]
    (defaults: chunk_size=1200, overlap=200). *)
Definition chunk_text (text : string) (chunk_size overlap : Z)
  : result (list string) :=
  let words := split text in
  idxs <- range 0 (len words) (chunk_size - overlap) ;;
  Ok (chunk_loop words chunk_size idxs []).

(** version2.py, [ImprovedBhutanRAG.simple_chunk_text]
    (defaults: chunk_size=1500, overlap=300); the same body. *)
Definition simple_chunk_text (text : string) (chunk_size overlap : Z)
  : result (list string) :=
  let words := split text in
  idxs <- range 0 (len words) (chunk_size - overlap) ;;
  Ok (chunk_loop words chunk_size idxs []).

(** The count the specification gives: ceil((W - overlap) / (chunk_size -
    overlap)), with the ceiling of a quotient of integers. *)
Definition ceil_div (a b : Z) : Z := - ((- a) / b).

Definition spec_chunk_count (W chunk_size overlap : Z) : Z :=
  ceil_div (W - overlap) (chunk_size - overlap).

(** *** Vocabulary of the statements *)

Fixpoint has_space (s : string) : bool :=
  match s with
  | EmptyString => false
  | String c s' => is_space c || has_space s'
  end.

(** A word, as [str.split()] returns them: not empty, no white space. *)
Definition is_word (w : string) : Prop :=
  truthy w = true /\ has_space w = false.

(** The short text of the specification's end-to-end scenario. *)
Definition constitution_text : string :=
  "Article 1. All citizens shall have the right to freedom.".

(* ===================================================================== *)
(** ** Document fingerprint (persistent_bhutan_rag.py)                    *)
(* ===================================================================== *)

(** One [*.pdf] file of the documents directory, with what [stat()] tells
    of it.  [st_mtime] is a float that enters the program only through its
    formatting in the f-string; the model carries that text (Python prints
    distinct floats differently). *)
Record pdf_file : Type := {
  name : string;
  st_size : N;
  st_mtime : string
}.

(** [str(n)] for a non-negative integer. *)
Definition str_of_N (n : N) : string :=
  NilEmpty.string_of_uint (N.to_uint n).

(** The loop of [get_documents_hash] over the sorted [pdf_files]. *)
Fixpoint hash_content_loop (pdf_files : list pdf_file) (hash_content : string)
  : string :=
  match pdf_files with
  | [] => hash_content
  | pdf_file :: rest =>
      hash_content_loop rest
        (hash_content
           ++ (name pdf_file ++ ":" ++ str_of_N (st_size pdf_file) ++ ":"
                 ++ st_mtime pdf_file ++ ":"))%string
  end.

Definition hash_content (pdf_files : list pdf_file) : string :=
  hash_content_loop pdf_files EmptyString.

Section Fingerprint.

(** [hashlib.md5(s.encode()).hexdigest()], a library function. *)
Variable md5 : string -> string.

(** [PersistentBhutanRAG.get_documents_hash]; [pdf_files] is
    [sorted(self.docs_dir.glob("*.pdf"))] with the [stat()] of each file. *)
Definition get_documents_hash (pdf_files : list pdf_file) : string :=
  md5 (hash_content pdf_files).

End Fingerprint.

(** *** Vocabulary of the statements *)

Fixpoint has_char (c : ascii) (s : string) : bool :=
  match s with
  | EmptyString => false
  | String x s' => Ascii.eqb x c || has_char c s'
  end.

(** The characters Python uses to print a float. *)
Definition float_char (c : ascii) : bool :=
  has_char c "0123456789.e+-infa".

Fixpoint all_float_chars (s : string) : bool :=
  match s with
  | EmptyString => true
  | String c s' => float_char c && all_float_chars s'
  end.

(** A file whose name has no colon, with a modification time printed as a
    float is. *)
Definition well_named (f : pdf_file) : Prop :=
  has_char ":" (name f) = false /\ all_float_chars (st_mtime f) = true.

(** [s.endswith(suffix)] *)
Fixpoint endswith (suffix s : string) : bool :=
  String.eqb suffix s ||
  match s with
  | EmptyString => false
  | String _ s' => endswith suffix s'
  end.

(** What [sorted(glob("*.pdf"))] can return: names ending in [.pdf], in
    strictly increasing order (file names of one directory are distinct). *)
Fixpoint is_listing (pdf_files : list pdf_file) : bool :=
  match pdf_files with
  | [] => true
  | f :: rest =>
      endswith ".pdf" (name f)
      && match rest with
         | [] => true
         | g :: _ => String.ltb (name f) (name g)
         end
      && is_listing rest
  end.

(** Two directories that are hashed alike. *)
Definition two_documents : list pdf_file :=
  [ {| name := "a.pdf"; st_size := 1; st_mtime := "2.0" |};
    {| name := "b.pdf"; st_size := 3; st_mtime := "4.0" |} ].

(** The same two files after the first one was written to again. *)
Definition touched_documents : list pdf_file :=
  [ {| name := "a.pdf"; st_size := 1; st_mtime := "2.5" |};
    {| name := "b.pdf"; st_size := 3; st_mtime := "4.0" |} ].

Definition one_document : list pdf_file :=
  [ {| name := "a.pdf:1:2.0:b.pdf"; st_size := 3; st_mtime := "4.0" |} ].

(* ===================================================================== *)
(** ** Data shared by the three classes                                   *)
(* ===================================================================== *)

(** The metadata dict stored with a chunk.  [doc_type] is not written by
    [BhutanLegalRAG], [content_preview] only by [ImprovedBhutanRAG]. *)
Record chunk_meta : Type := {
  document : string;
  chunk_id : nat;
  total_chunks : nat;
  doc_type : option string;
  content_preview : option string
}.

(** An embedding. *)
Definition vector : Type := list Q.

(** *** The vector index

    The index is a chromadb collection; chromadb is a library and not part
    of the sources.  Its two operations are modelled from the
    specification, section 4.4. *)

Record entry : Type := {
  entry_id : string;
  entry_embedding : vector;
  entry_document : string;
  entry_metadata : chunk_meta
}.

Definition collection : Type := list entry.

(** The distance of a collection, fixed when it is created:
    [create_collection(name=...)] of [PersistentBhutanRAG] and
    [ImprovedBhutanRAG] gives chromadb's default, the squared Euclidean
    distance; [BhutanLegalRAG] creates its collection with
    [metadata={"hnsw:space": "cosine"}]. *)
Inductive space : Type := L2 | Cosine.

Definition sq_distance (u v : vector) : Q :=
  fold_right Qplus 0%Q
    (map (fun ab => ((fst ab - snd ab) * (fst ab - snd ab))%Q) (combine u v)).

Definition dot (u v : vector) : Q :=
  fold_right Qplus 0%Q (map (fun ab => (fst ab * snd ab)%Q) (combine u v)).

(** The cosine of the angle of [u] and [v] is
    [dot u v / sqrt (dot u u * dot v v)], which is not rational.  Its
    square, taken with its sign, is; the two order the vectors alike.  With
    a vector of norm 0 it is 0, as the cosine similarity of the library
    is. *)
Definition signed_sq_cosine (u v : vector) : Q :=
  let d := dot u v in
  ((if Qle_bool 0 d then d * d else - (d * d)) / (dot u u * dot v v))%Q.

(** What the entries are ordered by, smaller first: the squared Euclidean
    distance itself, and for the cosine distance [1 - cosine] the value
    [1 - signed_sq_cosine], which orders as it does. *)
Definition rank_key (s : space) (u v : vector) : Q :=
  match s with
  | L2 => sq_distance u v
  | Cosine => (1 - signed_sq_cosine u v)%Q
  end.

(** Modelled from the spec: the query of the vector index, which is
    chromadb's and not in the sources ("returns up to k nearest entries by
    vector similarity; fewer than k if the index holds fewer entries; must
    never throw for an empty index, instead returning an empty sequence"),
    in the distance [s] of the collection. *)
Definition collection_query (s : space) (c : collection) (v : vector) (k : Z)
  : list entry :=
  slice_to
    (stable_sort
       (fun y x => negb (Qle_bool (rank_key s v (entry_embedding x))
                                  (rank_key s v (entry_embedding y)))) c)
    k.

Fixpoint make_entries (ids : list string) (embeddings : list vector)
  (documents : list string) (metadatas : list chunk_meta) : list entry :=
  match ids, embeddings, documents, metadatas with
  | i :: ids', e :: embeddings', d :: documents', m :: metadatas' =>
      {| entry_id := i; entry_embedding := e;
         entry_document := d; entry_metadata := m |}
      :: make_entries ids' embeddings' documents' metadatas'
  | _, _, _, _ => []
  end.

(** Modelled from the spec: the insertion into the vector index, chromadb's
    [collection.add] ("batched insert; insertion order determines entry
    ids; the index does not deduplicate").  The library refuses arguments of
    different lengths; [None] stands for that exception. *)
Definition collection_add (c : collection) (embeddings : list vector)
  (documents : list string) (metadatas : list chunk_meta) (ids : list string)
  : option collection :=
  if ((List.length embeddings =? List.length documents)
      && (List.length metadatas =? List.length documents)
      && (List.length ids =? List.length documents))%nat
  then Some (c ++ make_entries ids embeddings documents metadatas)
  else None.

(** *** What the classes use of libraries and of the outside world

    A call that the sources wrap in [try] is a partial function here:
    [None] stands for any exception it may raise. *)
Record env : Type := {
  (** [hashlib.md5(s.encode()).hexdigest()] *)
  md5 : string -> string;
  (** [re.split(pattern, text)], [re.finditer(pattern, text)] as the spans
      of the matches, [re.sub(pattern, repl, text)] *)
  re_split : string -> string -> list string;
  re_finditer : string -> string -> list (nat * nat);
  re_sub : string -> string -> string -> string;
  (** [PyPDF2.PdfReader] on the named document: its pages, each with what
      [extract_text()] gives *)
  pdf_pages : string -> option (list (option string));
  (** [SentenceTransformer(...)] can be built *)
  sentence_transformer_loads : bool;
  (** [embedding_model.encode] on one text *)
  encode : string -> option vector;
  (** [import chromadb] and the creation of the client succeed *)
  chromadb_opens : bool;
  (** [gemini_client.models.generate_content(...).text] on a prompt *)
  gemini_generate_content : string -> option string;
  (** the question-answering pipeline of [ImprovedBhutanRAG], when it is
      there and has a [model_name]: question, context to answer and score *)
  qa_pipeline : option (string -> string -> option (string * Q));
  (** the language model of [BhutanLegalRAG]: prompt to answer *)
  language_model : option (string -> option string)
}.

(** [embedding_model.encode(texts)] on a list: one vector per text, or the
    exception of the first text that fails. *)
Fixpoint encode_all (E : env) (texts : list string) : option (list vector) :=
  match texts with
  | [] => Some []
  | t :: rest =>
      match encode E t, encode_all E rest with
      | Some v, Some vs => Some (v :: vs)
      | _, _ => None
      end
  end.

(** [[f"chunk_{i+j}" for j in range(n)]] *)
Definition chunk_ids (i : Z) (n : nat) : list string :=
  map (fun j => ("chunk_" ++ str_of_N (Z.to_N (i + Z.of_nat j)))%string)
      (seq 0 n).

(** What the program calls outside itself, in the order of the calls. *)
Inductive event : Type :=
| ExtractText (file : string)          (* PdfReader opened on a document *)
| LoadModel                            (* SentenceTransformer(...) *)
| Encode (texts : list string)         (* embedding_model.encode(texts) *)
| Generate (prompt : string).          (* a generative model is called *)

(** The values of the dict that [ask_legal_question] returns. *)
Inductive value : Type :=
| VStr (s : string)
| VList (l : list string)
| VFloat (q : Q)
| VBool (b : bool).

(** A dict literal, in the order of its keys. *)
Definition dict : Type := list (string * value).

Fixpoint dict_get (d : dict) (key : string) : option value :=
  match d with
  | [] => None
  | (k, v) :: d' => if String.eqb k key then Some v else dict_get d' key
  end.

Definition keys (d : dict) : list string := map fst d.

(** [d[key] = v] on an insertion-ordered dict of strings. *)
Fixpoint dict_set (d : list (string * string)) (key v : string)
  : list (string * string) :=
  match d with
  | [] => [(key, v)]
  | (k, x) :: d' =>
      if String.eqb k key then (k, v) :: d' else (k, x) :: dict_set d' key v
  end.

(** [list(set(l))]: the distinct elements of [l].  Python fixes no order
    for them; the model lists them by first occurrence. *)
Fixpoint distinct (l : list string) : list string :=
  match l with
  | [] => []
  | x :: l' => x :: filter (fun y => negb (String.eqb x y)) (distinct l')
  end.

(* ===================================================================== *)
(** ** persistent_bhutan_rag.py: class PersistentBhutanRAG                *)
(* ===================================================================== *)

Module PersistentBhutanRAG.

(** [system_metadata.json].  The two clock readings [created_at] and
    [processing_time] are left out. *)
Record system_metadata : Type := {
  documents_hash : string;
  document_count : nat;
  chunks_count : nat;
  system_version : string
}.

(** The data directory: the documents, and under [cache/] the files named
    in [__init__], each absent or with the content last written to it. *)
Record disk : Type := {
  documents : list pdf_file;                              (* documents/*.pdf *)
  texts_cache : option (list (string * string));          (* legal_texts.json *)
  chunks_cache : option (list string * list chunk_meta);  (* chunks_data.pickle *)
  embeddings_cache : bool;                                (* embeddings.pickle exists *)
  metadata_cache : option system_metadata;                (* system_metadata.json *)
  vector_db_dir : option collection                       (* vector_db/: the collection *)
}.

(** The attributes of [self]. *)
Record rag : Type := {
  legal_texts : list (string * string);
  chunks_with_context : list string;
  metadata_with_context : list chunk_meta;
  embedding_model : bool;                 (* not None *)
  vector_db : option collection;
  gemini_client : bool                    (* not None *)
}.

Record state : Type := {
  fs : disk;
  self : rag;
  log : list event
}.

Definition set_fs (d : disk) (st : state) : state :=
  {| fs := d; self := self st; log := log st |}.
Definition set_self (r : rag) (st : state) : state :=
  {| fs := fs st; self := r; log := log st |}.
Definition set_log (l : list event) (st : state) : state :=
  {| fs := fs st; self := self st; log := l |}.

Definition write_texts_cache (v : option (list (string * string))) (d : disk) : disk :=
  {| documents := documents d; texts_cache := v; chunks_cache := chunks_cache d;
     embeddings_cache := embeddings_cache d; metadata_cache := metadata_cache d;
     vector_db_dir := vector_db_dir d |}.
Definition write_chunks_cache (v : option (list string * list chunk_meta)) (d : disk) : disk :=
  {| documents := documents d; texts_cache := texts_cache d; chunks_cache := v;
     embeddings_cache := embeddings_cache d; metadata_cache := metadata_cache d;
     vector_db_dir := vector_db_dir d |}.
Definition write_embeddings_cache (v : bool) (d : disk) : disk :=
  {| documents := documents d; texts_cache := texts_cache d;
     chunks_cache := chunks_cache d; embeddings_cache := v;
     metadata_cache := metadata_cache d; vector_db_dir := vector_db_dir d |}.
Definition write_metadata_cache (v : option system_metadata) (d : disk) : disk :=
  {| documents := documents d; texts_cache := texts_cache d;
     chunks_cache := chunks_cache d; embeddings_cache := embeddings_cache d;
     metadata_cache := v; vector_db_dir := vector_db_dir d |}.
Definition write_vector_db_dir (v : option collection) (d : disk) : disk :=
  {| documents := documents d; texts_cache := texts_cache d;
     chunks_cache := chunks_cache d; embeddings_cache := embeddings_cache d;
     metadata_cache := metadata_cache d; vector_db_dir := v |}.

Definition set_legal_texts (v : list (string * string)) (r : rag) : rag :=
  {| legal_texts := v; chunks_with_context := chunks_with_context r;
     metadata_with_context := metadata_with_context r;
     embedding_model := embedding_model r; vector_db := vector_db r;
     gemini_client := gemini_client r |}.
Definition set_chunks (c : list string) (m : list chunk_meta) (r : rag) : rag :=
  {| legal_texts := legal_texts r; chunks_with_context := c;
     metadata_with_context := m;
     embedding_model := embedding_model r; vector_db := vector_db r;
     gemini_client := gemini_client r |}.
Definition set_embedding_model (v : bool) (r : rag) : rag :=
  {| legal_texts := legal_texts r; chunks_with_context := chunks_with_context r;
     metadata_with_context := metadata_with_context r;
     embedding_model := v; vector_db := vector_db r;
     gemini_client := gemini_client r |}.
Definition set_vector_db (v : option collection) (r : rag) : rag :=
  {| legal_texts := legal_texts r; chunks_with_context := chunks_with_context r;
     metadata_with_context := metadata_with_context r;
     embedding_model := embedding_model r; vector_db := v;
     gemini_client := gemini_client r |}.

Section WithEnv.
Variable E : env.

(** [save_system_metadata] *)
Definition save_system_metadata (docs_hash : string) (st : state) : state :=
  let metadata :=
    {| documents_hash := docs_hash;
       document_count := List.length (documents (fs st));
       chunks_count := List.length (chunks_with_context (self st));
       system_version := "1.0" |} in
  set_fs (write_metadata_cache (Some metadata) (fs st)) st.

(** [load_system_metadata] *)
Definition load_system_metadata (st : state) : option system_metadata :=
  metadata_cache (fs st).

(** [is_cache_valid] *)
Definition is_cache_valid (st : state) : bool :=
  let current_hash := get_documents_hash (md5 E) (documents (fs st)) in
  match load_system_metadata st with
  | None => false
  | Some metadata =>
      let cached_hash := documents_hash metadata in
      if negb (String.eqb current_hash cached_hash) then false
      else
        let cache_files :=
          [ match texts_cache (fs st) with Some _ => true | None => false end;
            match chunks_cache (fs st) with Some _ => true | None => false end;
            embeddings_cache (fs st) ] in
        forallb (fun cache_file_exists => cache_file_exists) cache_files
  end.

(** [save_legal_texts], [load_legal_texts] *)
Definition save_legal_texts (legal_texts : list (string * string)) (st : state)
  : state :=
  set_fs (write_texts_cache (Some legal_texts) (fs st)) st.

Definition load_legal_texts (st : state) : list (string * string) * state :=
  match texts_cache (fs st) with
  | Some texts => (texts, set_self (set_legal_texts texts (self st)) st)
  | None => ([], st)
  end.

(** [save_chunks_data], [load_chunks_data] *)
Definition save_chunks_data (chunks : list string) (metadata : list chunk_meta)
  (st : state) : state :=
  set_fs (write_chunks_cache (Some (chunks, metadata)) (fs st)) st.

Definition load_chunks_data (st : state)
  : (list string * list chunk_meta) * state :=
  match chunks_cache (fs st) with
  | Some data =>
      (data, set_self (set_chunks (fst data) (snd data) (self st)) st)
  | None => (([], []), st)
  end.

(** The [for i in range(0, len(chunks), batch_size)] loop that embeds the
    chunks and adds them to the new collection.  [embedding_model] tells
    whether [self.embedding_model] is set: on [None] the first
    [self.embedding_model.encode] raises, before any call of the model. *)
Fixpoint add_batches (embedding_model : bool)
  (chunks : list string) (metadata : list chunk_meta)
  (batch_size : Z) (idxs : list Z) (coll : collection) (log : list event)
  : bool * collection * list event :=
  match idxs with
  | [] => (true, coll, log)
  | i :: rest =>
      let batch_chunks := slice chunks i (i + batch_size) in
      let batch_metadata := slice metadata i (i + batch_size) in
      if negb embedding_model then (false, coll, log) else
      let log := log ++ [Encode batch_chunks] in
      match encode_all E batch_chunks with
      | None => (false, coll, log)
      | Some embeddings =>
          match collection_add coll embeddings batch_chunks batch_metadata
                  (chunk_ids i (List.length batch_chunks)) with
          | None => (false, coll, log)
          | Some coll' =>
              add_batches embedding_model chunks metadata batch_size rest
                coll' log
          end
      end
  end.

(** [setup_persistent_vector_database].  [range(0, len(chunks), 25)] has a
    literal step and cannot raise. *)
Definition setup_persistent_vector_database (chunks : list string)
  (metadata : list chunk_meta) (st : state) : bool * state :=
  if chromadb_opens E then
    match vector_db_dir (fs st) with
    | Some coll =>
        (true, set_self (set_vector_db (Some coll) (self st)) st)
    | None =>
        let batch_size := 25 in
        let idxs :=
          range_up (Z.to_nat (len chunks)) 0 (len chunks) batch_size in
        let '(ok, coll, log') :=
          add_batches (embedding_model (self st)) chunks metadata batch_size
            idxs [] (log st) in
        let st := set_log log' (set_fs (write_vector_db_dir (Some coll) (fs st)) st) in
        if ok then (true, set_self (set_vector_db (Some coll) (self st)) st)
        else (false, set_self (set_vector_db None (self st)) st)
    end
  else (false, set_self (set_vector_db None (self st)) st).

(** [pdf_file.stem] of a name that ends in [.pdf] *)
Definition stem (file_name : string) : string :=
  str_take (String.length file_name - 4) file_name.

(** The page loop of [extract_text_from_pdfs]. *)
Fixpoint page_loop (pages : list (option string)) (text : string) : string :=
  match pages with
  | [] => text
  | None :: rest => page_loop rest text
  | Some page_text :: rest =>
      if truthy page_text then
        let page_text := re_sub E "\s+" " " page_text in
        let page_text := re_sub E "(\w)\s+([.,:;])" "\1\2" page_text in
        page_loop rest (text ++ page_text ++ LF)%string
      else page_loop rest text
  end.

Fixpoint pdf_loop (pdf_files : list pdf_file)
  (legal_texts : list (string * string)) (log : list event)
  : list (string * string) * list event :=
  match pdf_files with
  | [] => (legal_texts, log)
  | pdf_file :: rest =>
      let log := log ++ [ExtractText (name pdf_file)] in
      match pdf_pages E (name pdf_file) with
      | None => pdf_loop rest legal_texts log
      | Some pages =>
          let text := page_loop pages EmptyString in
          if truthy (strip text)
          then pdf_loop rest (dict_set legal_texts (stem (name pdf_file)) text) log
          else pdf_loop rest legal_texts log
      end
  end.

(** [extract_text_from_pdfs] *)
Definition extract_text_from_pdfs (st : state)
  : list (string * string) * state :=
  let pdf_files := documents (fs st) in
  let '(legal_texts, log') := pdf_loop pdf_files [] (log st) in
  let st := set_log log' st in
  let st := save_legal_texts legal_texts st in
  (legal_texts, set_self (set_legal_texts legal_texts (self st)) st).

(** [get_document_type] *)
Definition get_document_type (doc_name : string) : string :=
  let doc_lower := lower doc_name in
  if str_in "constitution" doc_lower then "constitution"
  else if str_in "penal" doc_lower || str_in "criminal" doc_lower
       then "criminal_law"
  else if str_in "corruption" doc_lower then "anti_corruption"
  else if str_in "land" doc_lower then "land_law"
  else if str_in "tax" doc_lower then "tax_law"
  else if str_in "environment" doc_lower then "environmental_law"
  else "general_law".

(** The inner loop of [create_chunks] over [enumerate(chunks)]: the two
    lists grow together. *)
Fixpoint chunks_loop (doc_name : string) (total : nat)
  (ichunks : list (nat * string))
  (all_chunks : list string) (metadata : list chunk_meta)
  : list string * list chunk_meta :=
  match ichunks with
  | [] => (all_chunks, metadata)
  | (i, chunk) :: rest =>
      if 100 <? Z.of_nat (String.length (strip chunk)) then
        chunks_loop doc_name total rest
          (all_chunks ++ [chunk])
          (metadata ++ [ {| document := doc_name;
                            chunk_id := i;
                            total_chunks := total;
                            doc_type := Some (get_document_type doc_name);
                            content_preview := None |} ])
      else chunks_loop doc_name total rest all_chunks metadata
  end.

(** The outer loop of [create_chunks] over [legal_texts.items()]. *)
Fixpoint texts_loop (items : list (string * string))
  (all_chunks : list string) (metadata : list chunk_meta)
  : result (list string * list chunk_meta) :=
  match items with
  | [] => Ok (all_chunks, metadata)
  | (doc_name, text) :: rest =>
      chunks <- chunk_text text 1200 200 ;;
      let '(all_chunks, metadata) :=
        chunks_loop doc_name (List.length chunks) (enumerate chunks)
          all_chunks metadata in
      texts_loop rest all_chunks metadata
  end.

(** [create_chunks] *)
Definition create_chunks (legal_texts : list (string * string)) (st : state)
  : result (list string * list chunk_meta) * state :=
  match texts_loop legal_texts [] [] with
  | Raise e => (Raise e, st)
  | Ok (all_chunks, metadata) =>
      let st := save_chunks_data all_chunks metadata st in
      (Ok (all_chunks, metadata),
       set_self (set_chunks all_chunks metadata (self st)) st)
  end.

(** [setup_embedding_model] *)
Definition setup_embedding_model (st : state) : bool * state :=
  let st := set_log (log st ++ [LoadModel]) st in
  if sentence_transformer_loads E
  then (true, set_self (set_embedding_model true (self st)) st)
  else (false, st).

(** [initialize_system], from "Need to process from scratch" on: the part
    reached when the cache is not valid or gave no texts or no chunks. *)
Definition process_from_scratch (st : state) : result bool * state :=
  let pdf_files := documents (fs st) in
  match pdf_files with
  | [] => (Ok false, st)
  | _ :: _ =>
      let '(legal_texts, st) := extract_text_from_pdfs st in
      match legal_texts with
      | [] => (Ok false, st)
      | _ :: _ =>
          match create_chunks legal_texts st with
          | (Raise e, st) => (Raise e, st)
          | (Ok (chunks, metadata), st) =>
              let '(ok, st) := setup_embedding_model st in
              if negb ok then (Ok false, st) else
              let '(ok, st) :=
                setup_persistent_vector_database chunks metadata st in
              if negb ok then (Ok false, st) else
              let docs_hash :=
                get_documents_hash (md5 E) (documents (fs st)) in
              (Ok true, save_system_metadata docs_hash st)
          end
      end
  end.

(** [initialize_system] *)
Definition initialize_system (st : state) : result bool * state :=
  if is_cache_valid st then
    let '(legal_texts, st) := load_legal_texts st in
    let '((chunks, metadata), st) := load_chunks_data st in
    match legal_texts, chunks with
    | _ :: _, _ :: _ =>
        let '(ok, st) := setup_embedding_model st in
        if negb ok then (Ok false, st) else
        let '(ok, st) := setup_persistent_vector_database chunks metadata st in
        if negb ok then (Ok false, st) else
        (Ok true, st)
    | _, _ => process_from_scratch st
    end
  else process_from_scratch st.

(** [clear_cache] *)
Definition clear_cache (st : state) : state :=
  set_fs {| documents := documents (fs st);
            texts_cache := None; chunks_cache := None;
            embeddings_cache := false; metadata_cache := None;
            vector_db_dir := None |} st.

(** [search_documents] *)
Definition search_documents (r : rag) (query : string) (k : Z)
  : list string * list chunk_meta :=
  match vector_db r with
  | None => ([], [])
  | Some coll =>
      if embedding_model r then
        match encode_all E [query] with
        | Some (query_embedding :: _) =>
            let results := collection_query L2 coll query_embedding k in
            (map entry_document results, map entry_metadata results)
        | _ => ([], [])
        end
      else ([], [])
  end.

(** The loop of [generate_fallback_response] over
    [zip(context_docs, metadata)]; [None] when it ends without returning. *)
Fixpoint fallback_loop (query_lower : string)
  (pairs : list (string * chunk_meta)) : option string :=
  match pairs with
  | [] => None
  | (doc, meta) :: rest =>
      let sentences :=
        map strip
          (filter (fun s => 20 <? Z.of_nat (String.length (strip s)))
                  (split_on "." doc)) in
      let query_words := split query_lower in
      let relevant_sentences :=
        filter (fun sentence =>
                  existsb (fun word => str_in word (lower sentence))
                          query_words)
               sentences in
      match relevant_sentences with
      | _ :: _ =>
          let doc_name := replace_char "_" " " (document meta) in
          Some ("According to " ++ doc_name ++ ": "
                  ++ join ". " (slice_to relevant_sentences 2) ++ ".")%string
      | [] => fallback_loop query_lower rest
      end
  end.

(** [generate_fallback_response] *)
Definition generate_fallback_response (query : string)
  (context_docs : list string) (metadata : list chunk_meta) : result string :=
  let query_lower := lower query in
  match fallback_loop query_lower (combine context_docs metadata) with
  | Some answer => Ok answer
  | None =>
      match context_docs with
      | [] => Raise IndexError
      | doc :: _ =>
          Ok ("Based on Bhutan's legal documents: "
                ++ str_take 400 doc ++ "...")%string
      end
  end.

(** [generate_gemini_response].  The model is given the fixed system prompt
    followed by [context_text] and the question; the model sees it through
    these two. *)
Definition generate_gemini_response (query : string)
  (context_docs : list string) (metadata : list chunk_meta) : result string :=
  let context_text :=
    join LF
      (map (fun dm => ("Document: " ++ document (snd dm) ++ LF
                         ++ "Content: " ++ str_take 800 (fst dm) ++ "...")%string)
           (combine (slice_to context_docs 3) (slice_to metadata 3))) in
  match gemini_generate_content E (context_text ++ LF ++ query)%string with
  | Some text =>
      if truthy text then Ok (strip text)
      else generate_fallback_response query context_docs metadata
  | None => generate_fallback_response query context_docs metadata
  end.

(** [generate_response] *)
Definition generate_response (r : rag) (query : string)
  (context_docs : list string) (metadata : list chunk_meta) : result string :=
  match context_docs with
  | [] => Ok "No relevant legal information found."
  | _ :: _ =>
      if gemini_client r
      then generate_gemini_response query context_docs metadata
      else generate_fallback_response query context_docs metadata
  end.

(** [ask_legal_question] *)
Definition ask_legal_question (r : rag) (question : string) : result dict :=
  let '(relevant_docs, metadata) := search_documents r question 5 in
  match relevant_docs with
  | [] =>
      Ok [ ("question", VStr question);
           ("answer", VStr "No relevant legal information found.");
           ("sources", VList []);
           ("ai_powered", VBool false) ]
  | _ :: _ =>
      answer <- generate_response r question relevant_docs metadata ;;
      let sources :=
        distinct (map (fun meta => replace_char "_" " " (document meta))
                      metadata) in
      Ok [ ("question", VStr question);
           ("answer", VStr answer);
           ("sources", VList sources);
           ("ai_powered", VBool (gemini_client r)) ]
  end.

End WithEnv.

End PersistentBhutanRAG.

(* ===================================================================== *)
(** ** bhutan_legal_rag.py: class BhutanLegalRAG                          *)
(* ===================================================================== *)

Module BhutanLegalRAG.

(** The attributes of [self] that retrieval reads, and the collection kept
    under [chromadb/].  [fallback] holds [chunks_fallback] and
    [metadata_fallback], which exist only once [setup_vector_database] has
    failed. *)
Record rag : Type := {
  vector_db : option collection;
  fallback : option (list string * list chunk_meta);
  chromadb_dir : option collection
}.

(** The loop of the inner function [split_text] of [create_text_chunks]:
    as [chunk_loop], but every window is kept. *)
Fixpoint split_loop (words : list string) (chunk_size : Z) (idxs : list Z)
  (chunks : list string) : list string :=
  match idxs with
  | [] => chunks
  | i :: rest =>
      let chunk_words := slice words i (i + chunk_size) in
      let chunk := join " " chunk_words in
      let chunks := chunks ++ [chunk] in
      if i + chunk_size >=? len words then chunks
      else split_loop words chunk_size rest chunks
  end.

(** [split_text] (defaults: chunk_size=1000, overlap=200) *)
Definition split_text (text : string) (chunk_size overlap : Z)
  : result (list string) :=
  let words := split text in
  idxs <- range 0 (len words) (chunk_size - overlap) ;;
  Ok (split_loop words chunk_size idxs []).

(** The inner loop of [create_text_chunks] over [enumerate(chunks)]. *)
Fixpoint text_chunks_loop (doc_name : string) (total : nat)
  (ichunks : list (nat * string))
  (all_chunks : list string) (metadata : list chunk_meta)
  : list string * list chunk_meta :=
  match ichunks with
  | [] => (all_chunks, metadata)
  | (i, chunk) :: rest =>
      text_chunks_loop doc_name total rest
        (all_chunks ++ [chunk])
        (metadata ++ [ {| document := doc_name;
                          chunk_id := i;
                          total_chunks := total;
                          doc_type := None;
                          content_preview := None |} ])
  end.

(** The outer loop of [create_text_chunks] over [legal_texts.items()]. *)
Fixpoint texts_loop (items : list (string * string))
  (all_chunks : list string) (metadata : list chunk_meta)
  : result (list string * list chunk_meta) :=
  match items with
  | [] => Ok (all_chunks, metadata)
  | (doc_name, text) :: rest =>
      chunks <- split_text text 1000 200 ;;
      let '(all_chunks, metadata) :=
        text_chunks_loop doc_name (List.length chunks) (enumerate chunks)
          all_chunks metadata in
      texts_loop rest all_chunks metadata
  end.

(** [create_text_chunks] *)
Definition create_text_chunks (legal_texts : list (string * string))
  : result (list string * list chunk_meta) :=
  texts_loop legal_texts [] [].

Section WithEnv.
Variable E : env.

(** The batch loop of [setup_vector_database]; an exception leaves it.
    With the outcome comes the collection as it is then stored. *)
Fixpoint add_batches (chunks : list string) (metadata : list chunk_meta)
  (batch_size : Z) (idxs : list Z) (coll : collection)
  : bool * collection :=
  match idxs with
  | [] => (true, coll)
  | i :: rest =>
      let batch_chunks := slice chunks i (i + batch_size) in
      let batch_metadata := slice metadata i (i + batch_size) in
      match encode_all E batch_chunks with
      | None => (false, coll)
      | Some embeddings =>
          match collection_add coll embeddings batch_chunks batch_metadata
                  (chunk_ids i (List.length batch_chunks)) with
          | None => (false, coll)
          | Some coll' => add_batches chunks metadata batch_size rest coll'
          end
      end
  end.

(** [setup_vector_database].  [range(0, len(chunks), 50)] has a literal
    step and cannot raise. *)
Definition setup_vector_database (chunks : list string)
  (metadata : list chunk_meta) (r : rag) : rag :=
  if chromadb_opens E then
    match chromadb_dir r with
    | Some coll =>
        {| vector_db := Some coll; fallback := fallback r;
           chromadb_dir := chromadb_dir r |}
    | None =>
        let batch_size := 50 in
        let idxs :=
          range_up (Z.to_nat (len chunks)) 0 (len chunks) batch_size in
        match add_batches chunks metadata batch_size idxs [] with
        | (true, coll) =>
            {| vector_db := Some coll; fallback := fallback r;
               chromadb_dir := Some coll |}
        | (false, coll) =>
            {| vector_db := None; fallback := Some (chunks, metadata);
               chromadb_dir := Some coll |}
        end
    end
  else
    {| vector_db := None; fallback := Some (chunks, metadata);
       chromadb_dir := chromadb_dir r |}.

(** The loop of the simple text search in [search_legal_documents]. *)
Fixpoint score_loop (query_words : list string) (ichunks : list (nat * string))
  (metadata_fallback : list chunk_meta)
  (scored_chunks : list (Z * string * chunk_meta))
  : result (list (Z * string * chunk_meta)) :=
  match ichunks with
  | [] => Ok scored_chunks
  | (i, chunk) :: rest =>
      let score :=
        len (filter (fun word => str_in word (lower chunk)) query_words) in
      if 0 <? score then
        match nth_error metadata_fallback i with
        | None => Raise IndexError
        | Some meta =>
            score_loop query_words rest metadata_fallback
              (scored_chunks ++ [(score, chunk, meta)])
        end
      else score_loop query_words rest metadata_fallback scored_chunks
  end.

Definition simple_text_search (chunks_fallback : list string)
  (metadata_fallback : list chunk_meta) (query : string) (k : Z)
  : result (list string * list chunk_meta) :=
  let query_words := split (lower query) in
  scored_chunks <-
    score_loop query_words (enumerate chunks_fallback) metadata_fallback [] ;;
  let scored_chunks := sort_desc (fun x => fst (fst x)) scored_chunks in
  let top_results := slice_to scored_chunks k in
  Ok (map (fun x => snd (fst x)) top_results, map snd top_results).

(** [search_legal_documents] *)
Definition search_legal_documents (r : rag) (query : string) (k : Z)
  : result (list string * list chunk_meta) :=
  let after_vector_search :=
    match fallback r with
    | Some (chunks_fallback, metadata_fallback) =>
        simple_text_search chunks_fallback metadata_fallback query k
    | None => Ok ([], [])
    end in
  match vector_db r with
  | Some coll =>
      match encode_all E [query] with
      | Some (query_embedding :: _) =>
          let results := collection_query Cosine coll query_embedding k in
          Ok (map entry_document results, map entry_metadata results)
      | _ => after_vector_search
      end
  | None => after_vector_search
  end.

(** [generate_legal_response] *)
Definition generate_legal_response (query : string)
  (context_docs : list string) : result string :=
  match context_docs with
  | [] => Ok "No relevant legal information found in Bhutan's legal database."
  | doc :: _ =>
      match language_model E with
      | None =>
          Ok ("Based on Bhutan's legal framework: "
                ++ str_take 200 doc ++ "...")%string
      | Some generate =>
          let context := str_take 800 (join " " (slice_to context_docs 2)) in
          let prompt :=
            ("Based on Bhutan's legal documents:" ++ LF ++ LF
               ++ "Context: " ++ context ++ LF ++ LF
               ++ "Question: " ++ query ++ LF ++ LF ++ "Answer:")%string in
          match generate prompt with
          | Some continuation =>
              let answer := strip continuation in
              if truthy answer then Ok answer
              else Ok "Please refer to the relevant legal provisions in Bhutan's legal framework."
          | None =>
              Ok ("Based on Bhutan's legal documents: "
                    ++ str_take 200 doc ++ "...")%string
          end
      end
  end.

(** [ask_legal_question] *)
Definition ask_legal_question (r : rag) (question : string) : result dict :=
  found <- search_legal_documents r question 5 ;;
  let '(relevant_docs, metadata) := found in
  match relevant_docs with
  | [] =>
      Ok [ ("question", VStr question);
           ("answer", VStr "No relevant legal information found.");
           ("sources", VList []) ]
  | _ :: _ =>
      answer <- generate_legal_response question relevant_docs ;;
      let sources := distinct (map document metadata) in
      Ok [ ("question", VStr question);
           ("answer", VStr answer);
           ("sources", VList sources);
           ("relevant_excerpts", VList (slice_to relevant_docs 2)) ]
  end.

End WithEnv.

End BhutanLegalRAG.

(* ===================================================================== *)
(** ** version2.py: class ImprovedBhutanRAG                               *)
(* ===================================================================== *)

Module ImprovedBhutanRAG.

(** The attributes of [self] that chunking and retrieval use. *)
Record rag : Type := {
  chunks_with_context : list string;
  metadata_with_context : list chunk_meta;
  vector_db : option collection
}.

Section WithEnv.
Variable E : env.

(** The patterns of [split_legal_document], as the raw strings are. *)
Definition patterns : list string :=
  [ "Article \d+[.:]\s*";
    "Section \d+[.:]\s*";
    "Chapter \d+[.:]\s*";
    "\d+\.\s+";
    "\([a-z]\)\s*";
    "\n\n+" ].

(** The [for match in matches] loop: the texts between the matches. *)
Fixpoint between_matches (text : string) (matches : list (nat * nat))
  (last_end : nat) (result : list string) : list string * nat :=
  match matches with
  | [] => (result, last_end)
  | (match_start, match_end) :: rest =>
      let result :=
        if (last_end <? match_start)%nat
        then result ++ [str_slice last_end match_start text]
        else result in
      between_matches text rest match_end result
  end.

(** The [for pattern in patterns] loop; [None] when it ends without
    returning. *)
Fixpoint patterns_loop (text : string) (pats : list string)
  : option (list string) :=
  match pats with
  | [] => None
  | pattern :: rest =>
      let sections := re_split E pattern text in
      if 3 <? len sections then
        let '(result, last_end) :=
          between_matches text (re_finditer E pattern text) 0%nat [] in
        let result :=
          if (last_end <? String.length text)%nat
          then result ++ [str_slice last_end (String.length text) text]
          else result in
        let result :=
          filter (fun s => 100 <? Z.of_nat (String.length (strip s))) result in
        if 2 <? len result then Some result
        else patterns_loop text rest
      else patterns_loop text rest
  end.

(** [split_legal_document] *)
Definition split_legal_document (text doc_name : string)
  : result (list string) :=
  match patterns_loop text patterns with
  | Some result => Ok result
  | None => simple_chunk_text text 1500 300
  end.

(** [get_document_type] *)
Definition get_document_type (doc_name : string) : string :=
  if str_in "constitution" (lower doc_name) then "constitution"
  else if str_in "penal" (lower doc_name) || str_in "criminal" (lower doc_name)
       then "criminal_law"
  else if str_in "civil" (lower doc_name) then "civil_law"
  else if str_in "corruption" (lower doc_name) then "anti_corruption"
  else if str_in "land" (lower doc_name) then "land_law"
  else if str_in "tax" (lower doc_name) then "tax_law"
  else if str_in "environment" (lower doc_name) then "environmental_law"
  else "general_law".

(** The inner loop of [create_enhanced_chunks] over [enumerate(sections)]. *)
Fixpoint sections_loop (doc_name : string) (total : nat)
  (isections : list (nat * string))
  (all_chunks : list string) (metadata : list chunk_meta)
  : list string * list chunk_meta :=
  match isections with
  | [] => (all_chunks, metadata)
  | (i, section) :: rest =>
      if 50 <? Z.of_nat (String.length (strip section)) then
        sections_loop doc_name total rest
          (all_chunks ++ [section])
          (metadata ++ [ {| document := doc_name;
                            chunk_id := i;
                            total_chunks := total;
                            doc_type := Some (get_document_type doc_name);
                            content_preview :=
                              Some (if 100 <? Z.of_nat (String.length section)
                                    then (str_take 100 section ++ "...")%string
                                    else section) |} ])
      else sections_loop doc_name total rest all_chunks metadata
  end.

(** The outer loop of [create_enhanced_chunks] over [legal_texts.items()]. *)
Fixpoint texts_loop (items : list (string * string))
  (all_chunks : list string) (metadata : list chunk_meta)
  : result (list string * list chunk_meta) :=
  match items with
  | [] => Ok (all_chunks, metadata)
  | (doc_name, text) :: rest =>
      sections <- split_legal_document text doc_name ;;
      let '(all_chunks, metadata) :=
        sections_loop doc_name (List.length sections) (enumerate sections)
          all_chunks metadata in
      texts_loop rest all_chunks metadata
  end.

(** [create_enhanced_chunks]: the two lists, which it also stores in
    [self]. *)
Definition create_enhanced_chunks (legal_texts : list (string * string))
  (r : rag) : result (list string * list chunk_meta) * rag :=
  match texts_loop legal_texts [] [] with
  | Raise e => (Raise e, r)
  | Ok (all_chunks, metadata) =>
      (Ok (all_chunks, metadata),
       {| chunks_with_context := all_chunks;
          metadata_with_context := metadata;
          vector_db := vector_db r |})
  end.

(** The batch loop of [setup_vector_database]: a batch that fails is
    skipped. *)
Fixpoint add_batches (chunks : list string) (metadata : list chunk_meta)
  (batch_size : Z) (idxs : list Z) (coll : collection) : collection :=
  match idxs with
  | [] => coll
  | i :: rest =>
      let batch_chunks := slice chunks i (i + batch_size) in
      let batch_metadata := slice metadata i (i + batch_size) in
      match encode_all E batch_chunks with
      | None => add_batches chunks metadata batch_size rest coll
      | Some embeddings =>
          match collection_add coll embeddings batch_chunks batch_metadata
                  (chunk_ids i (List.length batch_chunks)) with
          | None => add_batches chunks metadata batch_size rest coll
          | Some coll' => add_batches chunks metadata batch_size rest coll'
          end
      end
  end.

(** [setup_vector_database]: an in-memory client, the collection made
    anew. *)
Definition setup_vector_database (chunks : list string)
  (metadata : list chunk_meta) (r : rag) : rag :=
  if chromadb_opens E then
    let batch_size := 20 in
    let idxs := range_up (Z.to_nat (len chunks)) 0 (len chunks) batch_size in
    {| chunks_with_context := chunks_with_context r;
       metadata_with_context := metadata_with_context r;
       vector_db := Some (add_batches chunks metadata batch_size idxs []) |}
  else
    {| chunks_with_context := chunks_with_context r;
       metadata_with_context := metadata_with_context r;
       vector_db := None |}.

(** The relevance score that the loop of [enhanced_text_search] computes
    for one chunk and its metadata. *)
Definition chunk_score (query chunk : string) (metadata : chunk_meta) : Z :=
  let query_words := split (lower query) in
  let chunk_lower := lower chunk in
  let score := 0 in
  let score := if str_in (lower query) chunk_lower then score + 10 else score in
  let word_matches :=
    len (filter (fun word => str_in word chunk_lower) query_words) in
  let score := score + word_matches * 2 in
  let doc_name := lower (document metadata) in
  if str_in "constitution" (lower query) && str_in "constitution" doc_name
  then score + 5
  else if str_in "corruption" (lower query) && str_in "corruption" doc_name
  then score + 5
  else if str_in "rights" (lower query) && str_in "constitution" doc_name
  then score + 3
  else score.

(** The loop of [enhanced_text_search] over
    [enumerate(self.chunks_with_context)]. *)
Fixpoint score_loop (query : string) (ichunks : list (nat * string))
  (metadata_with_context : list chunk_meta)
  (scored_chunks : list (Z * string * chunk_meta))
  : result (list (Z * string * chunk_meta)) :=
  match ichunks with
  | [] => Ok scored_chunks
  | (i, chunk) :: rest =>
      match nth_error metadata_with_context i with
      | None => Raise IndexError
      | Some metadata =>
          let score := chunk_score query chunk metadata in
          score_loop query rest metadata_with_context
            (if 0 <? score then scored_chunks ++ [(score, chunk, metadata)]
             else scored_chunks)
      end
  end.

(** [enhanced_text_search] *)
Definition enhanced_text_search (r : rag) (query : string) (k : Z)
  : result (list string * list chunk_meta) :=
  scored_chunks <-
    score_loop query (enumerate (chunks_with_context r))
      (metadata_with_context r) [] ;;
  let scored_chunks := sort_desc (fun x => fst (fst x)) scored_chunks in
  let top_results := slice_to scored_chunks k in
  Ok (map (fun x => snd (fst x)) top_results, map snd top_results).

(** [search_documents] *)
Definition search_documents (r : rag) (query : string) (k : Z)
  : result (list string * list chunk_meta) :=
  match vector_db r with
  | Some coll =>
      match encode_all E [query] with
      | Some (query_embedding :: _) =>
          let results := collection_query L2 coll query_embedding k in
          Ok (map entry_document results, map entry_metadata results)
      | _ => enhanced_text_search r query k
      end
  | None => enhanced_text_search r query k
  end.

(** [combine_legal_context] *)
Definition combine_legal_context (context_docs : list string)
  (metadata : list chunk_meta) (query : string) : string :=
  join LF
    (map (fun dm =>
            ("From " ++ replace_char "_" " " (document (snd dm)) ++ ":" ++ LF
               ++ fst dm ++ LF)%string)
         (combine context_docs metadata)).

(** [[s.strip() for s in doc.split('.') if any(keyword in s.lower() ...)]] *)
Definition keyword_sentences (keywords : list string) (doc : string)
  : list string :=
  map strip
    (filter (fun s => existsb (fun keyword => str_in keyword (lower s)) keywords)
            (split_on "." doc)).

(** [context_docs[0][:n]] between a prefix and the dots. *)
Definition first_doc_excerpt (prefix : string) (n : nat)
  (context_docs : list string) : result string :=
  match context_docs with
  | [] => Raise IndexError
  | doc :: _ => Ok (prefix ++ str_take n doc ++ "...")%string
  end.

(** [extract_rights_info] *)
Fixpoint rights_loop (pairs : list (string * chunk_meta)) : option string :=
  match pairs with
  | [] => None
  | (doc, meta) :: rest =>
      if str_in "constitution" (lower (document meta)) then
        match keyword_sentences ["right"; "freedom"; "liberty"; "shall have"] doc with
        | [] => rights_loop rest
        | rights_sentences =>
            Some ("According to Bhutan's Constitution, the fundamental rights include: "
                    ++ join ". " (slice_to rights_sentences 3) ++ ".")%string
        end
      else rights_loop rest
  end.

Definition extract_rights_info (context_docs : list string)
  (metadata : list chunk_meta) : result string :=
  match rights_loop (combine context_docs metadata) with
  | Some answer => Ok answer
  | None => first_doc_excerpt "Based on Bhutan's legal documents: " 200 context_docs
  end.

(** [extract_penalty_info] *)
Fixpoint penalty_loop (pairs : list (string * chunk_meta)) : option string :=
  match pairs with
  | [] => None
  | (doc, meta) :: rest =>
      match keyword_sentences
              ["penalty"; "fine"; "imprisonment"; "punish"; "sentence"] doc with
      | [] => penalty_loop rest
      | penalty_sentences =>
          let doc_name := replace_char "_" " " (document meta) in
          Some ("According to " ++ doc_name ++ ": "
                  ++ join ". " (slice_to penalty_sentences 2) ++ ".")%string
      end
  end.

Definition extract_penalty_info (context_docs : list string)
  (metadata : list chunk_meta) : result string :=
  match penalty_loop (combine context_docs metadata) with
  | Some answer => Ok answer
  | None => first_doc_excerpt "Based on the legal provisions: " 200 context_docs
  end.

(** The loop common to [extract_citizenship_info],
    [extract_environment_info] and [extract_election_info], which differ in
    their keywords and in the words around the answer. *)
Fixpoint topic_loop (keywords : list string) (intro : string)
  (pairs : list (string * chunk_meta)) : option string :=
  match pairs with
  | [] => None
  | (doc, meta) :: rest =>
      match keyword_sentences keywords doc with
      | [] => topic_loop keywords intro rest
      | topic_sentences =>
          Some (intro ++ join ". " (slice_to topic_sentences 2) ++ ".")%string
      end
  end.

(** [extract_citizenship_info] *)
Definition extract_citizenship_info (context_docs : list string)
  (metadata : list chunk_meta) : result string :=
  match topic_loop ["citizen"; "citizenship"; "national"; "domiciled"]
          "Regarding citizenship in Bhutan: "
          (combine context_docs metadata) with
  | Some answer => Ok answer
  | None => first_doc_excerpt "Based on Bhutan's legal framework: " 200 context_docs
  end.

(** [extract_environment_info] *)
Definition extract_environment_info (context_docs : list string)
  (metadata : list chunk_meta) : result string :=
  match topic_loop
          ["environment"; "forest"; "natural"; "conservation"; "pollution"]
          "Bhutan's environmental laws state: "
          (combine context_docs metadata) with
  | Some answer => Ok answer
  | None => first_doc_excerpt "Based on environmental provisions: " 200 context_docs
  end.

(** [extract_election_info] *)
Definition extract_election_info (context_docs : list string)
  (metadata : list chunk_meta) : result string :=
  match topic_loop ["election"; "vote"; "ballot"; "candidate"; "assembly"]
          "Regarding elections in Bhutan: "
          (combine context_docs metadata) with
  | Some answer => Ok answer
  | None => first_doc_excerpt "Based on election laws: " 200 context_docs
  end.

(** [extract_general_info] *)
Definition extract_general_info (context_docs : list string)
  (metadata : list chunk_meta) (query : string) : result string :=
  let query_words := split (lower query) in
  let best_sentences :=
    flat_map
      (fun doc =>
         flat_map
           (fun sentence =>
              if 20 <? Z.of_nat (String.length (strip sentence)) then
                let score :=
                  len (filter (fun word => str_in word (lower sentence))
                              query_words) in
                if 0 <? score then [(score, strip sentence)] else []
              else [])
           (split_on "." doc))
      context_docs in
  match best_sentences with
  | _ :: _ =>
      let best_sentences := sort_desc fst best_sentences in
      let top_sentences := map snd (slice_to best_sentences 2) in
      Ok ("According to Bhutan's legal documents: "
            ++ join ". " top_sentences ++ ".")%string
  | [] => first_doc_excerpt "Based on the available legal text: " 300 context_docs
  end.

(** [extract_legal_answer] *)
Definition extract_legal_answer (query : string) (context_docs : list string)
  (metadata : list chunk_meta) : result string :=
  let query_lower := lower query in
  if str_in "rights" query_lower || str_in "fundamental" query_lower
  then extract_rights_info context_docs metadata
  else if str_in "penalty" query_lower || str_in "punishment" query_lower
  then extract_penalty_info context_docs metadata
  else if str_in "citizenship" query_lower
  then extract_citizenship_info context_docs metadata
  else if str_in "environment" query_lower
  then extract_environment_info context_docs metadata
  else if str_in "election" query_lower
  then extract_election_info context_docs metadata
  else extract_general_info context_docs metadata query.

(** [format_legal_answer] *)
Definition format_legal_answer (answer : string) (context_docs : list string)
  (metadata : list chunk_meta) : result string :=
  if Z.of_nat (String.length answer) <? 20
  then extract_general_info context_docs metadata EmptyString
  else
    let formatted_answer := answer in
    if Z.of_nat (String.length formatted_answer) <? 50 then
      match context_docs with
      | [] => Raise IndexError
      | doc :: _ =>
          Ok (formatted_answer ++ " " ++ str_take 200 doc ++ "...")%string
      end
    else Ok formatted_answer.

(** [generate_enhanced_response].  Whatever is raised while the pipeline
    answer is used is caught, and the extractive answer is given. *)
Definition generate_enhanced_response (query : string)
  (context_docs : list string) (metadata : list chunk_meta) : result string :=
  match context_docs with
  | [] => Ok "No relevant legal information found in the available documents."
  | _ :: _ =>
      let combined_context := combine_legal_context context_docs metadata query in
      let extractive := extract_legal_answer query context_docs metadata in
      match qa_pipeline E with
      | Some pipeline =>
          match pipeline query (str_take 2000 combined_context) with
          | Some (raw_answer, confidence) =>
              let answer := strip raw_answer in
              if truthy answer && negb (Qle_bool confidence (1 # 10)) then
                match format_legal_answer answer context_docs metadata with
                | Ok formatted => Ok formatted
                | Raise _ => extractive
                end
              else extractive
          | None => extractive
          end
      | None => extractive
      end
  end.

(** [ask_legal_question] *)
Definition ask_legal_question (r : rag) (question : string) : result dict :=
  found <- search_documents r question 5 ;;
  let '(relevant_docs, metadata) := found in
  match relevant_docs with
  | [] =>
      Ok [ ("question", VStr question);
           ("answer",
            VStr "No relevant legal information found in the available documents.");
           ("sources", VList []);
           ("confidence", VFloat 0) ]
  | _ :: _ =>
      answer <- generate_enhanced_response question relevant_docs metadata ;;
      let sources :=
        distinct (map (fun meta => replace_char "_" " " (document meta))
                      metadata) in
      let ratio := (len relevant_docs # 5)%Q in
      Ok [ ("question", VStr question);
           ("answer", VStr answer);
           ("sources", VList sources);
           ("relevant_excerpts", VList (slice_to relevant_docs 2));
           ("confidence", VFloat (if Qle_bool ratio 1 then ratio else 1)) ]
  end.

End WithEnv.

End ImprovedBhutanRAG.

(** *** Vocabulary of the statements: provenance of a chunk *)

(** [chunk] with its metadata [meta] was made from the text that
    [legal_texts] holds for the document named in [meta]: it is the piece
    number [chunk_id] of the pieces that [split_text] cuts that text into. *)
Definition made_from (split_text : string -> string -> result (list string))
  (legal_texts : list (string * string)) (chunk : string) (meta : chunk_meta)
  : Prop :=
  exists text pieces,
    In (document meta, text) legal_texts /\
    split_text text (document meta) = Ok pieces /\
    nth_error pieces (chunk_id meta) = Some chunk /\
    total_chunks meta = List.length pieces.

(** Two texts of the size of a page, and what they are stored as. *)
Definition sample_texts : list (string * string) :=
  [ ("Constitution_2008",
     "Article 1. All citizens shall have the right to freedom of speech, opinion and expression. A Bhutanese citizen shall have the right to information.");
    ("Penal_Code_2004",
     "A defendant convicted of an offence of corruption shall be liable to a penalty of imprisonment and a fine, as this Code provides for the offence.") ].

(** *** Vocabulary of the statements: the keyword search *)

(** The three summands of [ImprovedBhutanRAG.chunk_score]. *)
Definition phrase_bonus (query chunk : string) : Z :=
  if str_in (lower query) (lower chunk) then 10 else 0.

(** Occurrences among the question's words, each occurrence counted, of
    words found in the chunk. *)
Definition word_hits (query chunk : string) : Z :=
  len (filter (fun word => str_in word (lower chunk)) (split (lower query))).

Definition domain_boost (query : string) (metadata : chunk_meta) : Z :=
  let doc_name := lower (document metadata) in
  if str_in "constitution" (lower query) && str_in "constitution" doc_name
  then 5
  else if str_in "corruption" (lower query) && str_in "corruption" doc_name
  then 5
  else if str_in "rights" (lower query) && str_in "constitution" doc_name
  then 3
  else 0.

(** The score in the words of the specification: the question's words are
    counted once each ("number of distinct question words present in the
    chunk"). *)
Definition spec_score (query chunk : string) (metadata : chunk_meta) : Z :=
  phrase_bonus query chunk
  + 2 * len (filter (fun word => str_in word (lower chunk))
                    (distinct (split (lower query))))
  + domain_boost query metadata.

(** The score of the chunk stored at index [i]. *)
Definition score_at (query : string) (chunks : list string)
  (metas : list chunk_meta) (i : nat) : Z :=
  match nth_error chunks i, nth_error metas i with
  | Some chunk, Some meta => ImprovedBhutanRAG.chunk_score query chunk meta
  | _, _ => 0
  end.

(** Index [i] is ranked before index [j]: a larger score, or the same score
    and an earlier place in the store. *)
Definition ranks_before (query : string) (chunks : list string)
  (metas : list chunk_meta) (i j : nat) : Prop :=
  score_at query chunks metas j < score_at query chunks metas i \/
  (score_at query chunks metas i = score_at query chunks metas j /\ (i < j)%nat).

(** The chunks of positive score with their index, in the order of the
    store. *)
Fixpoint tagged (query : string) (i : nat) (chunks : list string)
  (metas : list chunk_meta) : list (nat * (Z * string * chunk_meta)) :=
  match chunks, metas with
  | chunk :: chunks', meta :: metas' =>
      let score := ImprovedBhutanRAG.chunk_score query chunk meta in
      (if 0 <? score then [(i, (score, chunk, meta))] else [])
        ++ tagged query (S i) chunks' metas'
  | _, _ => []
  end.

Definition plain_meta (doc : string) (i : nat) : chunk_meta :=
  {| document := doc; chunk_id := i; total_chunks := 3;
     doc_type := None; content_preview := None |}.

(** A store of three chunks of one document. *)
Definition penalty_store : ImprovedBhutanRAG.rag :=
  {| ImprovedBhutanRAG.chunks_with_context :=
       [ "The penalty for corruption is imprisonment.";
         "What is the penalty for theft in this Code?";
         "A tax is levied on land." ];
     ImprovedBhutanRAG.metadata_with_context :=
       [ plain_meta "Penal_Code_2004" 0; plain_meta "Penal_Code_2004" 1;
         plain_meta "Penal_Code_2004" 2 ];
     ImprovedBhutanRAG.vector_db := None |}.

(** *** A small world to run the classes in *)

(** Libraries that behave: every document has one page of text, the model
    loads, every text has an embedding; [chroma] tells whether the vector
    store can be opened.  No generative model is configured. *)
Definition sample_env (chroma : bool) : env :=
  {| md5 := fun s => s;
     re_split := fun _ text => [text];
     re_finditer := fun _ _ => [];
     re_sub := fun _ _ text => text;
     pdf_pages := fun file =>
       if String.eqb file "Constitution_2008.pdf"
       then Some [Some (snd (nth 0 sample_texts (EmptyString, EmptyString)))]
       else if String.eqb file "Penal_Code_2004.pdf"
       then Some [Some (snd (nth 1 sample_texts (EmptyString, EmptyString)))]
       else None;
     sentence_transformer_loads := true;
     encode := fun text => Some [inject_Z (Z.of_nat (String.length text))];
     chromadb_opens := chroma;
     gemini_generate_content := fun _ => None;
     qa_pipeline := None;
     language_model := None |}.

(** A data directory with two documents and an empty cache, and an object
    just constructed. *)
Definition fresh_state : PersistentBhutanRAG.state :=
  {| PersistentBhutanRAG.fs :=
       {| PersistentBhutanRAG.documents :=
            [ {| name := "Constitution_2008.pdf"; st_size := 5120;
                 st_mtime := "1700000000.5" |};
              {| name := "Penal_Code_2004.pdf"; st_size := 7168;
                 st_mtime := "1700000100.25" |} ];
          PersistentBhutanRAG.texts_cache := None;
          PersistentBhutanRAG.chunks_cache := None;
          PersistentBhutanRAG.embeddings_cache := false;
          PersistentBhutanRAG.metadata_cache := None;
          PersistentBhutanRAG.vector_db_dir := None |};
     PersistentBhutanRAG.self :=
       {| PersistentBhutanRAG.legal_texts := [];
          PersistentBhutanRAG.chunks_with_context := [];
          PersistentBhutanRAG.metadata_with_context := [];
          PersistentBhutanRAG.embedding_model := false;
          PersistentBhutanRAG.vector_db := None;
          PersistentBhutanRAG.gemini_client := false |};
     PersistentBhutanRAG.log := [] |}.

(** The state after one successful [initialize_system], with the log of
    calls emptied. *)
Definition rebuilt_state : PersistentBhutanRAG.state :=
  PersistentBhutanRAG.set_log []
    (snd (PersistentBhutanRAG.initialize_system (sample_env true) fresh_state)).

(** The same data directory and object, after [setup_embedding_model]
    has loaded the model. *)
Definition model_loaded_state : PersistentBhutanRAG.state :=
  PersistentBhutanRAG.set_log []
    (snd (PersistentBhutanRAG.setup_embedding_model (sample_env true)
            fresh_state)).

(** *** Vocabulary of the statements: one run after another *)

(** [st'] comes after [st] in a run of [PersistentBhutanRAG]: the same
    documents, the same answer to whether [embeddings.pickle] exists, and a
    log that continues the one of [st]. *)
Definition continues (st st' : PersistentBhutanRAG.state) : Prop :=
  PersistentBhutanRAG.documents (PersistentBhutanRAG.fs st')
    = PersistentBhutanRAG.documents (PersistentBhutanRAG.fs st) /\
  PersistentBhutanRAG.embeddings_cache (PersistentBhutanRAG.fs st')
    = PersistentBhutanRAG.embeddings_cache (PersistentBhutanRAG.fs st) /\
  exists events,
    PersistentBhutanRAG.log st' = PersistentBhutanRAG.log st ++ events.

Definition is_extract (e : event) : bool :=
  match e with ExtractText _ => true | _ => false end.

Definition is_encode (e : event) : bool :=
  match e with Encode _ => true | _ => false end.

(** *** Vocabulary of the statements: retrieval and answers *)

(** Entry [a] is no farther from the query vector [v] than entry [b], in
    the distance [s]. *)
Definition no_farther (s : space) (v : vector) (a b : entry) : Prop :=
  (rank_key s v (entry_embedding a) <= rank_key s v (entry_embedding b))%Q.

(** The answers returned when nothing was retrieved. *)
Definition nothing_found_persistent (question : string) : dict :=
  [ ("question", VStr question);
    ("answer", VStr "No relevant legal information found.");
    ("sources", VList []);
    ("ai_powered", VBool false) ].

Definition nothing_found_improved (question : string) : dict :=
  [ ("question", VStr question);
    ("answer",
     VStr "No relevant legal information found in the available documents.");
    ("sources", VList []);
    ("confidence", VFloat 0) ].

(** A [PersistentBhutanRAG] object that kept the chunks of [penalty_store]
    and has no vector index. *)
Definition persistent_without_index : PersistentBhutanRAG.rag :=
  {| PersistentBhutanRAG.legal_texts := [];
     PersistentBhutanRAG.chunks_with_context :=
       ImprovedBhutanRAG.chunks_with_context penalty_store;
     PersistentBhutanRAG.metadata_with_context :=
       ImprovedBhutanRAG.metadata_with_context penalty_store;
     PersistentBhutanRAG.embedding_model := true;
     PersistentBhutanRAG.vector_db := None;
     PersistentBhutanRAG.gemini_client := false |}.

(** An index of two entries. *)
Definition sample_collection : collection :=
  [ {| entry_id := "chunk_0"; entry_embedding := [3%Q];
       entry_document := "The penalty for corruption is imprisonment.";
       entry_metadata := plain_meta "Penal_Code_2004" 0 |};
    {| entry_id := "chunk_1"; entry_embedding := [1%Q];
       entry_document := "A tax is levied on land.";
       entry_metadata := plain_meta "Penal_Code_2004" 2 |} ].

(** An index of two entries that lie in different directions. *)
Definition two_directions : collection :=
  [ {| entry_id := "chunk_0"; entry_embedding := [10%Q; 0%Q];
       entry_document := "The penalty for corruption is imprisonment.";
       entry_metadata := plain_meta "Penal_Code_2004" 0 |};
    {| entry_id := "chunk_1"; entry_embedding := [1%Q; 1%Q];
       entry_document := "A tax is levied on land.";
       entry_metadata := plain_meta "Penal_Code_2004" 2 |} ].

(** *** Vocabulary of the statements: further properties *)

(** The words of a text read back from its chunks: of every chunk but the
    last the first [step] words, of the last chunk all its words. *)
Fixpoint rebuild (step : nat) (chunks : list string) : list string :=
  match chunks with
  | [] => []
  | [chunk] => split chunk
  | chunk :: ((_ :: _) as rest) => firstn step (split chunk) ++ rebuild step rest
  end.

(** The metadata that [BhutanLegalRAG.create_text_chunks] writes for the
    [n] chunks of a document. *)
Definition numbered (doc_name : string) (n : nat) : list chunk_meta :=
  map (fun i => {| document := doc_name; chunk_id := i; total_chunks := n;
                   doc_type := None; content_preview := None |})
      (seq 0 n).

(** What holds of a [PersistentBhutanRAG] state after a successful
    [initialize_system]: the stored fingerprint is the one of the documents,
    the model is loaded, the index in [self] is the stored collection, and
    the caches hold the texts and chunks that [self] holds. *)
Definition initialized (E : env) (st : PersistentBhutanRAG.state) : Prop :=
  exists (m : PersistentBhutanRAG.system_metadata) (coll : collection),
    PersistentBhutanRAG.metadata_cache (PersistentBhutanRAG.fs st) = Some m /\
    PersistentBhutanRAG.documents_hash m
      = get_documents_hash (md5 E)
          (PersistentBhutanRAG.documents (PersistentBhutanRAG.fs st)) /\
    PersistentBhutanRAG.vector_db (PersistentBhutanRAG.self st) = Some coll /\
    PersistentBhutanRAG.vector_db_dir (PersistentBhutanRAG.fs st) = Some coll /\
    PersistentBhutanRAG.embedding_model (PersistentBhutanRAG.self st) = true /\
    PersistentBhutanRAG.texts_cache (PersistentBhutanRAG.fs st)
      = Some (PersistentBhutanRAG.legal_texts (PersistentBhutanRAG.self st)) /\
    PersistentBhutanRAG.chunks_cache (PersistentBhutanRAG.fs st)
      = Some (PersistentBhutanRAG.chunks_with_context (PersistentBhutanRAG.self st),
              PersistentBhutanRAG.metadata_with_context (PersistentBhutanRAG.self st)) /\
    PersistentBhutanRAG.legal_texts (PersistentBhutanRAG.self st) <> [].

(** The sample data directory with a collection left in [vector_db/] by an
    earlier run, and nothing else in the cache. *)
Definition stale_state : PersistentBhutanRAG.state :=
  PersistentBhutanRAG.set_fs
    (PersistentBhutanRAG.write_vector_db_dir (Some sample_collection)
       (PersistentBhutanRAG.fs fresh_state)) fresh_state.

(** What [PersistentBhutanRAG.create_chunks] keeps of a chunk and writes in
    its metadata, for the documents named in [legal_texts]. *)
Definition kept_persistent (legal_texts : list (string * string))
  (chunk : string) (meta : chunk_meta) : Prop :=
  100 < Z.of_nat (String.length (strip chunk)) /\
  len (split chunk) <= 1200 /\
  In (document meta) (map fst legal_texts) /\
  doc_type meta
    = Some (PersistentBhutanRAG.get_document_type (document meta)) /\
  content_preview meta = None /\
  (chunk_id meta < total_chunks meta)%nat.

(** The same for [ImprovedBhutanRAG.create_enhanced_chunks]. *)
Definition kept_improved (legal_texts : list (string * string))
  (chunk : string) (meta : chunk_meta) : Prop :=
  50 < Z.of_nat (String.length (strip chunk)) /\
  In (document meta) (map fst legal_texts) /\
  doc_type meta
    = Some (ImprovedBhutanRAG.get_document_type (document meta)) /\
  content_preview meta
    = Some (if 100 <? Z.of_nat (String.length chunk)
            then (str_take 100 chunk ++ "...")%string else chunk) /\
  (chunk_id meta < total_chunks meta)%nat.

(** The sample world with a question-answering pipeline that gives [raw]
    for every question, with a score of 0.9. *)
Definition answering_env (raw : string) : env :=
  {| md5 := md5 (sample_env false);
     re_split := re_split (sample_env false);
     re_finditer := re_finditer (sample_env false);
     re_sub := re_sub (sample_env false);
     pdf_pages := pdf_pages (sample_env false);
     sentence_transformer_loads := true;
     encode := encode (sample_env false);
     chromadb_opens := false;
     gemini_generate_content := fun _ => None;
     qa_pipeline := Some (fun _ _ => Some (raw, (9 # 10)%Q));
     language_model := None |}.

(** The sample world with a model that cannot embed the text [bad]. *)
Definition flaky_env (bad : string) : env :=
  {| md5 := md5 (sample_env true);
     re_split := re_split (sample_env true);
     re_finditer := re_finditer (sample_env true);
     re_sub := re_sub (sample_env true);
     pdf_pages := pdf_pages (sample_env true);
     sentence_transformer_loads := true;
     encode := fun text =>
       if String.eqb text bad then None else encode (sample_env true) text;
     chromadb_opens := true;
     gemini_generate_content := fun _ => None;
     qa_pipeline := None;
     language_model := None |}.

(** A [BhutanLegalRAG] object just constructed, over a data directory
    without a collection. *)
Definition bhutan_fresh : BhutanLegalRAG.rag :=
  {| BhutanLegalRAG.vector_db := None;
     BhutanLegalRAG.fallback := None;
     BhutanLegalRAG.chromadb_dir := None |}.

(** The number of words of the question, repeated ones counted again, that
    occur in the chunk: the score of the keyword search of
    [BhutanLegalRAG]. *)
Definition matching_words (query chunk : string) : Z :=
  len (filter (fun word => str_in word (lower chunk)) (split (lower query))).

(** A text of three articles, and the sample world with what [re] finds in
    it for the first pattern of [split_legal_document]: three headings, and
    so four parts, the first of them empty. *)
Definition articles_text : string :=
  "Article 1. Bhutan is a sovereign kingdom and the sovereign power belongs to the people of Bhutan as this Constitution provides it. Article 2. The form of government shall be that of a democratic constitutional monarchy under the provisions of this Constitution. Article 3. The international territorial boundary of Bhutan is inviolable and any alteration shall be made only by the Parliament. ".

Definition articles_env : env :=
  {| md5 := md5 (sample_env false);
     re_split := fun pattern text =>
       if String.eqb pattern "Article \d+[.:]\s*"
          && String.eqb text articles_text
       then [ EmptyString; str_slice 11 131 articles_text;
              str_slice 142 262 articles_text;
              str_slice 273 393 articles_text ]
       else [text];
     re_finditer := fun pattern text =>
       if String.eqb pattern "Article \d+[.:]\s*"
          && String.eqb text articles_text
       then [ (0, 11); (131, 142); (262, 273) ]%nat
       else [];
     re_sub := re_sub (sample_env false);
     pdf_pages := pdf_pages (sample_env false);
     sentence_transformer_loads := true;
     encode := encode (sample_env false);
     chromadb_opens := false;
     gemini_generate_content := fun _ => None;
     qa_pipeline := None;
     language_model := None |}.

(** The pieces of [text] that lie between the matches, given by their
    spans [(start, end)] in the order of the text: from the beginning of
    the text or the end of a match up to the start of the next match or the
    end of the text, the empty ones left out.  The text of a match itself,
    from its start to its end, is in none of them. *)
Definition gaps (text : string) (matches : list (nat * nat)) : list string :=
  map (fun ab => str_slice (fst ab) (snd ab) text)
    (filter (fun ab => (fst ab <? snd ab)%nat)
       (combine (0%nat :: map snd matches)
                (map fst matches ++ [String.length text]))).

(** The pieces between the matches of [pattern] that have more than 100
    characters once stripped. *)
Definition long_gaps (E : env) (text pattern : string) : list string :=
  filter (fun s => 100 <? Z.of_nat (String.length (strip s)))
    (gaps text (re_finditer E pattern text)).

(** [pattern] splits [text] well: [re.split] gives more than three parts,
    and more than two of the pieces between the matches are long. *)
Definition splits_well (E : env) (text pattern : string) : bool :=
  (3 <? len (re_split E pattern text)) && (2 <? len (long_gaps E text pattern)).

(** [sentence] is quoted from [doc] for the question [query]: it is one of
    the pieces of [doc] between full stops, stripped, has more than 20
    characters, and a word of the question occurs in it. *)
Definition quoted_from (query doc sentence : string) : Prop :=
  (exists piece, In piece (split_on "." doc) /\ sentence = strip piece) /\
  20 < Z.of_nat (String.length sentence) /\
  exists word, In word (split (lower query)) /\
               str_in word (lower sentence) = true.

(** The sentences that can be quoted from [doc] for the question [query],
    in their order in [doc]. *)
Definition quotable (query doc : string) : list string :=
  map strip
    (filter (fun piece =>
               (20 <? Z.of_nat (String.length (strip piece)))
               && existsb (fun word => str_in word (lower (strip piece)))
                          (split (lower query)))
            (split_on "." doc)).

(** Whether the model embeds every text of the batch of [size] chunks that
    starts at [i]. *)
Definition batch_embeds (E : env) (chunks : list string) (size i : Z) : bool :=
  match encode_all E (slice chunks i (i + size)) with
  | Some _ => true
  | None => false
  end.

(* ===================================================================== *)
(** * Properties                                                          *)
(* ===================================================================== *)

(** ** Strings, slices and ranges *)

Example split_runs_of_blanks :
  split "  Article 1.   All citizens " = ["Article"; "1."; "All"; "citizens"].
Proof. reflexivity. Qed.

Example strip_both_ends : strip "  shall have  " = "shall have".
Proof. reflexivity. Qed.

Example lower_ascii : lower "Penal_Code_2004" = "penal_code_2004".
Proof. reflexivity. Qed.

Example str_in_inside_a_word : str_in "the" "What about theft?" = true.
Proof. reflexivity. Qed.

Example split_on_keeps_empty_fields :
  split_on "." "a.b..c." = ["a"; "b"; EmptyString; "c"; EmptyString].
Proof. reflexivity. Qed.

Example slice_past_the_end : slice [1; 2; 3; 4; 5] 3 10 = [4; 5].
Proof. reflexivity. Qed.

Example slice_negative_stop : slice [1; 2; 3; 4; 5] 0 (-2) = [1; 2; 3].
Proof. reflexivity. Qed.

Example range_with_step : range 0 10 4 = Ok [0; 4; 8].
Proof. reflexivity. Qed.

Example sort_desc_is_stable :
  sort_desc fst [(1, "a"); (3, "b"); (1, "c"); (3, "d")]
  = [(3, "b"); (3, "d"); (1, "a"); (1, "c")].
Proof. reflexivity. Qed.

Section StringFacts.

Lemma append_empty_r (s : string) : (s ++ "")%string = s.
Proof. induction s as [|c s IH]; simpl; [reflexivity | now rewrite IH]. Qed.

Lemma append_assoc (a b c : string) :
  ((a ++ b) ++ c)%string = (a ++ (b ++ c))%string.
Proof. induction a as [|x a IH]; simpl; [reflexivity | now rewrite IH]. Qed.

Lemma has_space_app (a b : string) :
  has_space (a ++ b) = has_space a || has_space b.
Proof.
  induction a as [|c a IH]; simpl; [reflexivity|].
  now rewrite IH, orb_assoc.
Qed.

Lemma truthy_app_r (a : string) (c : ascii) (b : string) :
  truthy (a ++ String c b) = true.
Proof. now destruct a. Qed.

Lemma split_from_words (s : string) :
  forall cur, has_space cur = false -> Forall is_word (split_from cur s).
Proof.
  induction s as [|c s IH]; intros cur Hcur; simpl.
  - destruct (truthy cur) eqn:Ht; constructor; [now split | constructor].
  - destruct (is_space c) eqn:Hc.
    + destruct (truthy cur) eqn:Ht.
      * constructor; [now split | now apply IH].
      * now apply IH.
    + apply IH. rewrite has_space_app, Hcur. simpl. now rewrite Hc.
Qed.

Lemma split_words (s : string) : Forall is_word (split s).
Proof. now apply split_from_words. Qed.

Lemma split_from_app_word (w : string) :
  forall cur s, has_space w = false ->
    split_from cur (w ++ s) = split_from (cur ++ w) s.
Proof.
  induction w as [|c w IH]; intros cur s Hw; simpl in *.
  - now rewrite append_empty_r.
  - apply orb_false_iff in Hw as [Hc Hw]. rewrite Hc.
    rewrite IH by assumption. now rewrite append_assoc.
Qed.

Lemma split_from_blank (cur s : string) :
  truthy cur = true ->
  split_from ("" ++ cur) (String " " s) = cur :: split_from "" s.
Proof.
  intros Hcur. change ("" ++ cur)%string with cur.
  change (split_from cur (String " " s))
    with (if truthy cur then cur :: split_from "" s else split_from "" s).
  now rewrite Hcur.
Qed.

Lemma split_join (ws : list string) :
  Forall is_word ws -> split (join " " ws) = ws.
Proof.
  unfold split. induction 1 as [|w ws [Hw1 Hw2] Hws IH]; [reflexivity|].
  destruct ws as [|w' ws].
  - simpl. rewrite <- (append_empty_r w) at 1.
    rewrite split_from_app_word by assumption. simpl. now rewrite Hw1.
  - change (join " " (w :: w' :: ws))
      with (w ++ String " " (join " " (w' :: ws)))%string.
    rewrite split_from_app_word by assumption.
    rewrite split_from_blank by assumption. now rewrite IH.
Qed.

Lemma truthy_rstrip_cons (c : ascii) (s : string) :
  is_space c = false -> truthy (rstrip (String c s)) = true.
Proof. intros Hc. simpl. destruct (rstrip s); [now rewrite Hc | reflexivity]. Qed.

Lemma truthy_strip_join (ws : list string) :
  Forall is_word ws -> ws <> [] -> truthy (strip (join " " ws)) = true.
Proof.
  intros Hws Hne. destruct ws as [|w ws]; [congruence|].
  inversion Hws as [|? ? [Hw1 Hw2] _]; subst.
  destruct w as [|c w]; [discriminate|].
  simpl in Hw2. apply orb_false_iff in Hw2 as [Hc _].
  assert (Hj : exists r, join " " (String c w :: ws) = String c r).
  { destruct ws; simpl; eauto. }
  destruct Hj as [r ->]. unfold strip. simpl lstrip. rewrite Hc.
  now apply truthy_rstrip_cons.
Qed.

Lemma str_in_empty (s : string) : str_in "" s = true.
Proof. now destruct s. Qed.

End StringFacts.

Section SliceFacts.
Context {A : Type}.

Lemma slice_window (l : list A) (i n : Z) :
  0 <= i -> 0 <= n ->
  slice l i (i + n)
  = firstn (Z.to_nat (Z.min (i + n) (len l) - Z.min i (len l)))
      (skipn (Z.to_nat (Z.min i (len l))) l).
Proof.
  intros Hi Hn. unfold slice, slice_bound.
  destruct (Z.ltb_spec i 0); [lia|].
  destruct (Z.ltb_spec (i + n) 0); [lia|]. reflexivity.
Qed.

Lemma slice_window_len (l : list A) (i n : Z) :
  0 <= i -> 0 <= n ->
  len (slice l i (i + n)) = Z.max 0 (Z.min (i + n) (len l) - i).
Proof.
  intros Hi Hn. rewrite slice_window by assumption. unfold len.
  rewrite length_firstn, length_skipn. lia.
Qed.

Lemma slice_window_nonempty (l : list A) (i n : Z) :
  0 <= i < len l -> 0 < n -> slice l i (i + n) <> [].
Proof.
  intros Hi Hn Hnil.
  assert (H : len (slice l i (i + n)) = 0) by now rewrite Hnil.
  rewrite slice_window_len in H; lia.
Qed.

Lemma slice_sub (l : list A) (start stop : Z) (P : A -> Prop) :
  Forall P l -> Forall P (slice l start stop).
Proof.
  intros H. unfold slice.
  assert (Hskip : forall n (k : list A), Forall P k -> Forall P (skipn n k)).
  { intros n k Hk. rewrite <- (firstn_skipn n k) in Hk.
    now apply Forall_app in Hk. }
  assert (Hfirst : forall n (k : list A), Forall P k -> Forall P (firstn n k)).
  { intros n k Hk. rewrite <- (firstn_skipn n k) in Hk.
    now apply Forall_app in Hk. }
  now apply Hfirst, Hskip.
Qed.

End SliceFacts.

Lemma range_up_ge (fuel : nat) :
  forall i stop step, 0 < step ->
    Forall (fun j => i <= j) (range_up fuel i stop step).
Proof.
  induction fuel as [|fuel IH]; intros i stop step Hstep; simpl; [constructor|].
  destruct (i <? stop); constructor; [lia|].
  eapply Forall_impl; [|apply IH; assumption]. simpl. intros; lia.
Qed.

(** ** Chunker *)

Section CeilDiv.

Lemma ceil_div_bounds (a b : Z) :
  0 < b -> b * ceil_div a b - b < a <= b * ceil_div a b.
Proof.
  intros Hb. unfold ceil_div.
  pose proof (Z.div_mod (- a) b ltac:(lia)) as Hdm.
  pose proof (Z.mod_pos_bound (- a) b Hb) as Hm. nia.
Qed.

Lemma ceil_div_unique (a b q : Z) :
  0 < b -> b * q - b < a <= b * q -> ceil_div a b = q.
Proof. intros Hb Hq. pose proof (ceil_div_bounds a b Hb). nia. Qed.

Lemma ceil_div_step (a b : Z) :
  0 < b -> ceil_div a b = 1 + ceil_div (a - b) b.
Proof.
  intros Hb. apply ceil_div_unique; [assumption|].
  pose proof (ceil_div_bounds (a - b) b Hb). nia.
Qed.

Lemma ceil_div_le_1 (a b : Z) : 0 < b -> a <= b -> ceil_div a b <= 1.
Proof. intros Hb Ha. pose proof (ceil_div_bounds a b Hb). nia. Qed.

Lemma ceil_div_pos (a b : Z) : 0 < b -> 0 < a -> 1 <= ceil_div a b.
Proof. intros Hb Ha. pose proof (ceil_div_bounds a b Hb). nia. Qed.

Lemma ceil_div_nonpos (a b : Z) : 0 < b -> a <= 0 -> ceil_div a b <= 0.
Proof. intros Hb Ha. pose proof (ceil_div_bounds a b Hb). nia. Qed.

End CeilDiv.

Section ChunkLoop.
Variable words : list string.
Variable chunk_size overlap : Z.
Hypothesis words_ok : Forall is_word words.
Hypothesis overlap_ok : 0 <= overlap < chunk_size.

Let W := len words.
Let step := chunk_size - overlap.

Lemma chunk_loop_acc (idxs : list Z) :
  forall acc, chunk_loop words chunk_size idxs acc
              = acc ++ chunk_loop words chunk_size idxs [].
Proof using Type.
  induction idxs as [|i rest IH]; intros acc; simpl.
  - now rewrite app_nil_r.
  - destruct (truthy _); destruct (_ >=? _); simpl;
      rewrite ?app_nil_r; try reflexivity.
    + rewrite IH, (IH [_]). now rewrite <- app_assoc.
    + apply IH.
Qed.

Lemma window_truthy (i : Z) :
  0 <= i < W ->
  truthy (strip (join " " (slice words i (i + chunk_size)))) = true.
Proof using words_ok overlap_ok.
  intros Hi. apply truthy_strip_join.
  - now apply slice_sub.
  - apply slice_window_nonempty; [exact Hi | lia].
Qed.

(** Number of chunks added by the loop started at index [i]. *)
Lemma chunk_loop_count (fuel : nat) :
  forall i acc, 0 <= i < W -> W - i <= Z.of_nat fuel ->
    len (chunk_loop words chunk_size (range_up fuel i W step) acc)
    = len acc + Z.max 1 (ceil_div (W - i - overlap) step).
Proof using words_ok overlap_ok.
  induction fuel as [|fuel IH]; intros i acc Hi Hfuel; [lia|].
  simpl. destruct (Z.ltb_spec i W) as [_|]; [|lia]. simpl.
  rewrite window_truthy by assumption. fold W.
  destruct (Z.geb_spec (i + chunk_size) W) as [Hlast|Hmore].
  - unfold len. rewrite length_app. simpl.
    pose proof (ceil_div_le_1 (W - i - overlap) step). unfold step in *. lia.
  - rewrite IH by (unfold step; lia).
    unfold len at 1. rewrite length_app. simpl. unfold len at 1.
    replace (W - (i + step) - overlap) with (W - i - overlap - step) by lia.
    pose proof (ceil_div_step (W - i - overlap) step).
    pose proof (ceil_div_pos (W - i - overlap - step) step).
    unfold step in *. lia.
Qed.

Lemma chunk_loop_Forall (P : string -> Prop) (idxs : list Z) :
  forall acc, Forall P acc ->
    Forall (fun i => P (join " " (slice words i (i + chunk_size)))) idxs ->
    Forall P (chunk_loop words chunk_size idxs acc).
Proof using Type.
  induction idxs as [|i rest IH]; intros acc Hacc Hidx; simpl; [assumption|].
  inversion Hidx as [|? ? Hi Hrest]; subst.
  assert (Hacc' : Forall P
    (if truthy (strip (join " " (slice words i (i + chunk_size))))
     then acc ++ [join " " (slice words i (i + chunk_size))] else acc)).
  { destruct (truthy _); [|assumption].
    apply Forall_app; split; [assumption | now constructor]. }
  destruct (_ >=? _); [assumption | now apply IH].
Qed.

Lemma window_word_count (i : Z) :
  0 <= i -> len (split (join " " (slice words i (i + chunk_size)))) <= chunk_size.
Proof using words_ok overlap_ok.
  intros Hi. rewrite split_join by now apply slice_sub.
  rewrite slice_window_len; lia.
Qed.

End ChunkLoop.

Lemma simple_chunk_text_eq (text : string) (chunk_size overlap : Z) :
  simple_chunk_text text chunk_size overlap = chunk_text text chunk_size overlap.
Proof. reflexivity. Qed.

Lemma chunk_text_windows (text : string) (chunk_size overlap : Z) :
  overlap < chunk_size ->
  chunk_text text chunk_size overlap
  = Ok (chunk_loop (split text) chunk_size
          (range_up (Z.to_nat (len (split text))) 0 (len (split text))
             (chunk_size - overlap)) []).
Proof.
  intros H. unfold chunk_text, range.
  destruct (Z.eqb_spec (chunk_size - overlap) 0); [lia|].
  destruct (Z.ltb_spec 0 (chunk_size - overlap)); [|lia].
  simpl. now rewrite Z.sub_0_r.
Qed.

(** C1 (as amended).  With 0 <= overlap < chunk_size, both word-window
    chunkers return, for a text of W words: ceil((W - overlap) /
    (chunk_size - overlap)) chunks when W > overlap, exactly one chunk when
    0 < W <= overlap, and none when W = 0; every chunk returned (the final
    one included) has at most chunk_size words. *)
Theorem chunk_text_count :
  forall (text : string) (chunk_size overlap : Z),
    0 <= overlap < chunk_size ->
    exists chunks,
      chunk_text text chunk_size overlap = Ok chunks /\
      simple_chunk_text text chunk_size overlap = Ok chunks /\
      (overlap < len (split text) ->
       len chunks = spec_chunk_count (len (split text)) chunk_size overlap) /\
      (0 < len (split text) <= overlap -> len chunks = 1) /\
      (len (split text) = 0 -> chunks = []) /\
      Forall (fun c => len (split c) <= chunk_size) chunks.
Proof.
  intros text chunk_size overlap Hov.
  assert (Hrun := chunk_text_windows text chunk_size overlap ltac:(lia)).
  eexists; split; [exact Hrun|]; split; [exact Hrun|]. clear Hrun.
  pose proof (split_words text) as Hw.
  set (words := split text) in *. set (W := len words).
  assert (HW : 0 <= W) by (unfold W, len; lia).
  assert (Hcount : 0 < W ->
    len (chunk_loop words chunk_size
           (range_up (Z.to_nat W) 0 W (chunk_size - overlap)) [])
    = Z.max 1 (ceil_div (W - overlap) (chunk_size - overlap))).
  { intros Hpos.
    rewrite (chunk_loop_count words chunk_size overlap Hw Hov) by (fold W; lia).
    fold W. simpl. now rewrite Z.sub_0_r. }
  repeat split.
  - intros Hlt. rewrite Hcount by lia. unfold spec_chunk_count.
    pose proof (ceil_div_pos (W - overlap) (chunk_size - overlap)). lia.
  - intros Hle. rewrite Hcount by lia.
    pose proof (ceil_div_nonpos (W - overlap) (chunk_size - overlap)). lia.
  - intros H0. rewrite H0. reflexivity.
  - apply chunk_loop_Forall; [constructor|].
    eapply Forall_impl; [|apply (range_up_ge _ 0); lia].
    intros i Hi. simpl in Hi.
    now apply (window_word_count words chunk_size overlap Hw Hov).
Qed.

Lemma chunk_text_count_witness :
  exists chunks,
    chunk_text "a b c d e f g" 3 1 = Ok chunks /\
    simple_chunk_text "a b c d e f g" 3 1 = Ok chunks /\
    (1 < len (split "a b c d e f g") ->
     len chunks = spec_chunk_count (len (split "a b c d e f g")) 3 1) /\
    (0 < len (split "a b c d e f g") <= 1 -> len chunks = 1) /\
    (len (split "a b c d e f g") = 0 -> chunks = []) /\
    Forall (fun c => len (split c) <= 3) chunks.
Proof. apply (chunk_text_count "a b c d e f g" 3 1). lia. Defined.

(** C1 as stated fails on short texts: with the defaults of
    [PersistentBhutanRAG.chunk_text] (1200 words, 200 of overlap) the
    ten-word text of the specification's scenario gives one chunk, while
    ceil((10 - 200) / 1000) is 0.  It also fails for a negative overlap,
    where windows leave words out: three words cut by 2 with overlap -1 give
    one chunk, while ceil((3 + 1) / 3) is 2. *)
Lemma chunk_text_count_short_text :
  (200 < 1200 /\
   len (split constitution_text) = 10 /\
   chunk_text constitution_text 1200 200 = Ok [constitution_text] /\
   spec_chunk_count (len (split constitution_text)) 1200 200 = 0 /\
   len [constitution_text]
     <> spec_chunk_count (len (split constitution_text)) 1200 200) /\
  (-1 < 2 /\
   chunk_text "a b c" 2 (-1) = Ok ["a b"] /\
   spec_chunk_count (len (split "a b c")) 2 (-1) = 2).
Proof.
  split.
  - repeat split; try reflexivity; try lia. vm_compute. discriminate.
  - repeat split; try reflexivity; lia.
Qed.

(** C2 (as amended).  Neither chunker knows a ConfigurationError.  With
    overlap = chunk_size the zero step makes [range] raise ValueError,
    whatever the text; with overlap > chunk_size the range is empty and the
    empty list of chunks is returned without any error; with
    overlap < chunk_size a list of chunks is returned.  So the call fails
    exactly when overlap = chunk_size. *)
Theorem chunk_text_degenerate :
  forall (text : string) (chunk_size overlap : Z),
    simple_chunk_text text chunk_size overlap
      = chunk_text text chunk_size overlap /\
    (chunk_text text chunk_size overlap = Raise ValueError
       <-> overlap = chunk_size) /\
    (is_ok (chunk_text text chunk_size overlap) = false
       <-> overlap = chunk_size) /\
    (chunk_size < overlap -> chunk_text text chunk_size overlap = Ok []).
Proof.
  intros text chunk_size overlap. split; [reflexivity|].
  unfold chunk_text, range.
  destruct (Z.eqb_spec (chunk_size - overlap) 0) as [H0|H0]; simpl.
  - repeat split; intros; try lia; reflexivity.
  - destruct (Z.ltb_spec 0 (chunk_size - overlap)) as [Hpos|Hneg]; simpl.
    + repeat split; intros; try lia; discriminate.
    + repeat split; intros; try lia; try discriminate.
      assert (Hlen : 0 <= len (split text)) by (unfold len; lia).
      assert (Hr : forall fuel,
        range_down fuel 0 (len (split text)) (chunk_size - overlap) = []).
      { intros [|fuel]; simpl; [reflexivity|].
        destruct (Z.ltb_spec (len (split text)) 0); [lia | reflexivity]. }
      now rewrite Hr.
Qed.

Lemma chunk_text_degenerate_witness :
  chunk_text "a b c" 2 2 = Raise ValueError /\
  chunk_text "a b c" 2 3 = Ok [].
Proof.
  split.
  - now apply (chunk_text_degenerate "a b c" 2 2).
  - apply (chunk_text_degenerate "a b c" 2 3). lia.
Defined.

(** C2 as stated fails when overlap exceeds chunk_size: the call returns a
    chunk sequence (the empty one) instead of failing. *)
Lemma chunk_text_overlap_exceeds :
  3 >= 2 /\
  chunk_text "a b c" 2 3 = Ok [] /\
  simple_chunk_text "a b c" 2 3 = Ok [] /\
  is_ok (chunk_text "a b c" 2 3) = true.
Proof. repeat split. lia. Qed.

Example chunk_text_small :
  chunk_text "a b c d e f g" 3 1 = Ok ["a b c"; "c d e"; "e f g"].
Proof. reflexivity. Qed.

(** ** Document fingerprint *)

Section FingerprintFacts.

Lemma has_char_digits (d : Decimal.uint) :
  has_char ":" (NilEmpty.string_of_uint d) = false.
Proof. induction d; simpl; auto. Qed.

Lemma str_of_N_inj (n m : N) : str_of_N n = str_of_N m -> n = m.
Proof.
  unfold str_of_N. intros H.
  apply (f_equal NilEmpty.uint_of_string) in H.
  rewrite !NilEmpty.usu in H. injection H as H.
  apply (f_equal N.of_uint) in H.
  now rewrite !DecimalN.Unsigned.of_to in H.
Qed.

Lemma float_text_no_colon (s : string) :
  all_float_chars s = true -> has_char ":" s = false.
Proof.
  induction s as [|c s IH]; simpl; [reflexivity|].
  intros H. apply andb_true_iff in H as [Hc Hs].
  rewrite (IH Hs), orb_false_r.
  destruct (Ascii.eqb_spec c ":") as [->|]; [discriminate Hc | reflexivity].
Qed.

(** A colon-free field followed by a colon is read back unambiguously. *)
Lemma field_unique (a : string) :
  forall a' r r',
    has_char ":" a = false -> has_char ":" a' = false ->
    (a ++ String ":" r)%string = (a' ++ String ":" r')%string ->
    a = a' /\ r = r'.
Proof.
  induction a as [|c a IH]; intros [|c' a'] r r' Ha Ha' H; simpl in *.
  - injection H as H. now split.
  - injection H as Hc _. subst c'. now rewrite Ascii.eqb_refl in Ha'.
  - injection H as Hc _. subst c. now rewrite Ascii.eqb_refl in Ha.
  - injection H as Hc H. subst c'.
    apply orb_false_iff in Ha as [_ Ha]. apply orb_false_iff in Ha' as [_ Ha'].
    destruct (IH a' r r' Ha Ha' H) as [-> ->]. now split.
Qed.

(** The text hashed for a listing, entry by entry. *)
Lemma hash_content_loop_app (l : list pdf_file) :
  forall acc, hash_content_loop l acc = (acc ++ hash_content l)%string.
Proof.
  unfold hash_content.
  induction l as [|f l IH]; intros acc; simpl.
  - now rewrite append_empty_r.
  - rewrite IH, (IH (name f ++ _)%string). now rewrite !append_assoc.
Qed.

Lemma hash_content_cons (f : pdf_file) (l : list pdf_file) :
  hash_content (f :: l)
  = (name f ++ String ":" (str_of_N (st_size f) ++
       String ":" (st_mtime f ++ String ":" (hash_content l))))%string.
Proof.
  unfold hash_content at 1. simpl. rewrite hash_content_loop_app.
  repeat (rewrite append_assoc; simpl). reflexivity.
Qed.

Lemma hash_content_inj (l1 : list pdf_file) :
  forall l2,
    Forall well_named l1 -> Forall well_named l2 ->
    hash_content l1 = hash_content l2 -> l1 = l2.
Proof.
  induction l1 as [|f l1 IH]; intros [|g l2] H1 H2 H.
  - reflexivity.
  - rewrite hash_content_cons in H. destruct (name g); discriminate H.
  - rewrite hash_content_cons in H. destruct (name f); discriminate H.
  - rewrite !hash_content_cons in H.
    inversion H1 as [|? ? [Hf1 Hf2] Hl1]; subst.
    inversion H2 as [|? ? [Hg1 Hg2] Hl2]; subst.
    apply field_unique in H as [Hname H]; [|assumption..].
    apply field_unique in H as [Hsize H]; [|apply has_char_digits..].
    apply field_unique in H as [Hmtime H];
      [|now apply float_text_no_colon..].
    apply str_of_N_inj in Hsize.
    rewrite (IH l2 Hl1 Hl2 H).
    destruct f, g; simpl in *; now subst.
Qed.

End FingerprintFacts.

(** C3 (as amended).  The fingerprint is the MD5 digest of the text
    name:size:mtime: written for each document in listing order, so it is a
    function of the listing alone: the same listing always gives the same
    digest.  For listings whose names hold no colon, two listings that
    differ (a document added, removed, or changed in name, size or
    modification time) are hashed from different texts, so their
    fingerprints differ unless MD5 itself collides on those two texts. *)
Theorem fingerprint_of_listing :
  forall (md5 : string -> string) (l1 l2 : list pdf_file),
    Forall well_named l1 -> Forall well_named l2 ->
    (l1 = l2 -> get_documents_hash md5 l1 = get_documents_hash md5 l2) /\
    (l1 <> l2 ->
       hash_content l1 <> hash_content l2 /\
       (md5 (hash_content l1) <> md5 (hash_content l2) ->
        get_documents_hash md5 l1 <> get_documents_hash md5 l2)).
Proof.
  intros md5 l1 l2 H1 H2. split.
  - now intros ->.
  - intros Hne. split.
    + intros Heq. apply Hne. now apply hash_content_inj.
    + intros Hmd5. exact Hmd5.
Qed.

Lemma fingerprint_of_listing_witness :
  hash_content two_documents <> hash_content touched_documents.
Proof.
  assert (H1 : Forall well_named two_documents)
    by (repeat constructor).
  assert (H2 : Forall well_named touched_documents)
    by (repeat constructor).
  assert (Hne : two_documents <> touched_documents) by discriminate.
  destruct (proj2 (fingerprint_of_listing (fun s => s) two_documents
                     touched_documents H1 H2) Hne) as [H _].
  exact H.
Defined.

(** C3 as stated fails whatever the digest function is: a directory with
    the two files a.pdf and b.pdf and a directory with the single file
    named a.pdf:1:2.0:b.pdf are hashed from the same text. *)
Lemma fingerprint_colon_collision :
  is_listing two_documents = true /\
  is_listing one_document = true /\
  two_documents <> one_document /\
  hash_content two_documents = "a.pdf:1:2.0:b.pdf:3:4.0:" /\
  hash_content one_document = "a.pdf:1:2.0:b.pdf:3:4.0:" /\
  (forall md5 : string -> string,
      get_documents_hash md5 two_documents
      = get_documents_hash md5 one_document).
Proof.
  repeat split; try reflexivity. discriminate.
Qed.

(** ** Chunks and their metadata *)

Section Alignment.

Lemma enumerate_from_nth {A} (l : list A) :
  forall i0 pre, List.length pre = i0 ->
    Forall (fun ic => nth_error (pre ++ l) (fst ic) = Some (snd ic))
           (enumerate_from i0 l).
Proof.
  induction l as [|x l IH]; intros i0 pre Hpre; simpl; constructor.
  - simpl. subst i0. rewrite nth_error_app2, Nat.sub_diag by lia. reflexivity.
  - replace (pre ++ x :: l) with ((pre ++ [x]) ++ l)
      by now rewrite <- app_assoc.
    apply IH. rewrite length_app. simpl. lia.
Qed.

Lemma enumerate_nth {A} (l : list A) :
  Forall (fun ic => nth_error l (fst ic) = Some (snd ic)) (enumerate l).
Proof. exact (enumerate_from_nth l 0%nat [] eq_refl). Qed.

Variable P : string -> chunk_meta -> Prop.

Lemma persistent_chunks_loop_aligned (doc_name : string) (total : nat)
  (ichunks : list (nat * string)) :
  forall all_chunks metadata,
    Forall2 P all_chunks metadata ->
    Forall (fun ic =>
              P (snd ic)
                {| document := doc_name; chunk_id := fst ic;
                   total_chunks := total;
                   doc_type :=
                     Some (PersistentBhutanRAG.get_document_type doc_name);
                   content_preview := None |}) ichunks ->
    Forall2 P
      (fst (PersistentBhutanRAG.chunks_loop doc_name total ichunks
              all_chunks metadata))
      (snd (PersistentBhutanRAG.chunks_loop doc_name total ichunks
              all_chunks metadata)).
Proof using Type.
  induction ichunks as [|[i chunk] rest IH]; intros all_chunks metadata Hal Hic;
    simpl; [assumption|].
  inversion Hic as [|? ? Hhd Htl]; subst. simpl in Hhd.
  destruct (100 <? _).
  - apply IH; [|assumption].
    apply Forall2_app; [assumption | now constructor].
  - now apply IH.
Qed.

Lemma improved_sections_loop_aligned (doc_name : string) (total : nat)
  (isections : list (nat * string)) :
  forall all_chunks metadata,
    Forall2 P all_chunks metadata ->
    Forall (fun ic =>
              forall preview,
              P (snd ic)
                {| document := doc_name; chunk_id := fst ic;
                   total_chunks := total;
                   doc_type :=
                     Some (ImprovedBhutanRAG.get_document_type doc_name);
                   content_preview := preview |}) isections ->
    Forall2 P
      (fst (ImprovedBhutanRAG.sections_loop doc_name total isections
              all_chunks metadata))
      (snd (ImprovedBhutanRAG.sections_loop doc_name total isections
              all_chunks metadata)).
Proof using Type.
  induction isections as [|[i section] rest IH];
    intros all_chunks metadata Hal Hic; simpl; [assumption|].
  inversion Hic as [|? ? Hhd Htl]; subst. simpl in Hhd.
  destruct (50 <? _).
  - apply IH; [|assumption].
    apply Forall2_app; [assumption | constructor; [apply Hhd | constructor]].
  - now apply IH.
Qed.

End Alignment.

Lemma made_from_more (split_text : string -> string -> result (list string))
  (texts : list (string * string)) (item : string * string)
  (chunk : string) (meta : chunk_meta) :
  made_from split_text texts chunk meta ->
  made_from split_text (item :: texts) chunk meta.
Proof.
  intros (text & pieces & Hin & Hrest).
  exists text, pieces. split; [now right | exact Hrest].
Qed.

Lemma chunk_text_defaults_ok (text : string) :
  exists pieces, chunk_text text 1200 200 = Ok pieces.
Proof. eexists. apply chunk_text_windows. lia. Qed.

Lemma persistent_texts_loop_aligned (items : list (string * string)) :
  forall seen all_chunks metadata,
    Forall2 (made_from (fun text _ => chunk_text text 1200 200) (seen ++ items))
            all_chunks metadata ->
    exists chunks metas,
      PersistentBhutanRAG.texts_loop items all_chunks metadata
        = Ok (chunks, metas) /\
      Forall2 (made_from (fun text _ => chunk_text text 1200 200) (seen ++ items))
              chunks metas.
Proof.
  induction items as [|[doc_name text] rest IH];
    intros seen all_chunks metadata Hal.
  - now exists all_chunks, metadata.
  - destruct (chunk_text_defaults_ok text) as [pieces Hp].
    cbn [PersistentBhutanRAG.texts_loop]. rewrite Hp. cbn [bind].
    pose proof (persistent_chunks_loop_aligned
      (made_from (fun text _ => chunk_text text 1200 200)
                 (seen ++ (doc_name, text) :: rest))
      doc_name (List.length pieces) (enumerate pieces) all_chunks metadata Hal)
      as Hloop.
    destruct (PersistentBhutanRAG.chunks_loop _ _ _ _ _) as [chunks1 metas1].
    simpl in Hloop.
    replace (seen ++ (doc_name, text) :: rest)
      with ((seen ++ [(doc_name, text)]) ++ rest) in *
      by now rewrite <- app_assoc.
    apply IH, Hloop.
    eapply Forall_impl; [|apply enumerate_nth].
    intros [i chunk] Hnth. simpl in *.
    exists text, pieces. simpl. repeat split; try assumption.
    apply in_or_app. left. apply in_or_app. right. now left.
Qed.

Lemma improved_split_ok (E : env) (text doc_name : string) :
  exists pieces,
    ImprovedBhutanRAG.split_legal_document E text doc_name = Ok pieces.
Proof.
  unfold ImprovedBhutanRAG.split_legal_document.
  destruct (ImprovedBhutanRAG.patterns_loop _ _ _); [now eexists|].
  eexists. rewrite simple_chunk_text_eq. apply chunk_text_windows. lia.
Qed.

Lemma improved_texts_loop_aligned (E : env) (items : list (string * string)) :
  forall seen all_chunks metadata,
    Forall2 (made_from (ImprovedBhutanRAG.split_legal_document E) (seen ++ items))
            all_chunks metadata ->
    exists chunks metas,
      ImprovedBhutanRAG.texts_loop E items all_chunks metadata
        = Ok (chunks, metas) /\
      Forall2 (made_from (ImprovedBhutanRAG.split_legal_document E)
                 (seen ++ items))
              chunks metas.
Proof.
  induction items as [|[doc_name text] rest IH];
    intros seen all_chunks metadata Hal.
  - now exists all_chunks, metadata.
  - destruct (improved_split_ok E text doc_name) as [pieces Hp].
    cbn [ImprovedBhutanRAG.texts_loop]. rewrite Hp. cbn [bind].
    pose proof (improved_sections_loop_aligned
      (made_from (ImprovedBhutanRAG.split_legal_document E)
                 (seen ++ (doc_name, text) :: rest))
      doc_name (List.length pieces) (enumerate pieces) all_chunks metadata Hal)
      as Hloop.
    destruct (ImprovedBhutanRAG.sections_loop _ _ _ _ _) as [chunks1 metas1].
    simpl in Hloop.
    replace (seen ++ (doc_name, text) :: rest)
      with ((seen ++ [(doc_name, text)]) ++ rest) in *
      by now rewrite <- app_assoc.
    apply IH, Hloop.
    eapply Forall_impl; [|apply enumerate_nth].
    intros [i chunk] Hnth preview. simpl in *.
    exists text, pieces. simpl. repeat split; try assumption.
    apply in_or_app. left. apply in_or_app. right. now left.
Qed.

(** C9.  [create_chunks] and [create_enhanced_chunks] always return, and
    the chunk list and the metadata list they return and store in [self]
    are aligned: they have the same length, and the metadata at each index
    names the document from whose text the chunk at that index was cut, with
    the number of that piece.  [load_chunks_data] run on the cache that
    [create_chunks] wrote gives back the same two lists and stores them in
    [self]. *)
Theorem chunks_metadata_aligned :
  forall (E : env) (legal_texts : list (string * string)),
    (forall st : PersistentBhutanRAG.state,
      exists chunks metas,
        fst (PersistentBhutanRAG.create_chunks legal_texts st)
          = Ok (chunks, metas) /\
        List.length chunks = List.length metas /\
        Forall2 (made_from (fun text _ => chunk_text text 1200 200) legal_texts)
                chunks metas /\
        let st' := snd (PersistentBhutanRAG.create_chunks legal_texts st) in
        PersistentBhutanRAG.chunks_with_context (PersistentBhutanRAG.self st')
          = chunks /\
        PersistentBhutanRAG.metadata_with_context (PersistentBhutanRAG.self st')
          = metas /\
        fst (PersistentBhutanRAG.load_chunks_data st') = (chunks, metas) /\
        let st'' := snd (PersistentBhutanRAG.load_chunks_data st') in
        PersistentBhutanRAG.chunks_with_context (PersistentBhutanRAG.self st'')
          = chunks /\
        PersistentBhutanRAG.metadata_with_context (PersistentBhutanRAG.self st'')
          = metas) /\
    (forall r : ImprovedBhutanRAG.rag,
      exists chunks metas,
        fst (ImprovedBhutanRAG.create_enhanced_chunks E legal_texts r)
          = Ok (chunks, metas) /\
        List.length chunks = List.length metas /\
        Forall2 (made_from (ImprovedBhutanRAG.split_legal_document E) legal_texts)
                chunks metas /\
        let r' := snd (ImprovedBhutanRAG.create_enhanced_chunks E legal_texts r) in
        ImprovedBhutanRAG.chunks_with_context r' = chunks /\
        ImprovedBhutanRAG.metadata_with_context r' = metas).
Proof.
  intros E legal_texts. split.
  - intros st.
    destruct (persistent_texts_loop_aligned legal_texts [] [] [])
      as (chunks & metas & Hrun & Hal); [constructor|].
    exists chunks, metas. unfold PersistentBhutanRAG.create_chunks.
    rewrite Hrun. simpl.
    repeat split; try reflexivity; try assumption.
    eapply Forall2_length; eassumption.
  - intros r.
    destruct (improved_texts_loop_aligned E legal_texts [] [] [])
      as (chunks & metas & Hrun & Hal); [constructor|].
    exists chunks, metas. unfold ImprovedBhutanRAG.create_enhanced_chunks.
    rewrite Hrun. simpl.
    repeat split; try reflexivity; try assumption.
    eapply Forall2_length; eassumption.
Qed.

(** ** Stable sorting *)

Section StableSort.
Context {A : Type}.
Variable before : A -> A -> bool.

Lemma insert_by_perm (x : A) (l : list A) :
  Permutation (insert_by before x l) (x :: l).
Proof.
  induction l as [|y l IH]; simpl; [reflexivity|].
  destruct (before y x); [|reflexivity].
  rewrite IH. apply perm_swap.
Qed.

Lemma stable_sort_perm (l : list A) : Permutation (stable_sort before l) l.
Proof.
  induction l as [|x l IH]; simpl; [reflexivity|].
  rewrite insert_by_perm. now constructor.
Qed.

Lemma stable_sort_length (l : list A) :
  List.length (stable_sort before l) = List.length l.
Proof. apply Permutation_length, stable_sort_perm. Qed.

Lemma stable_sort_Forall (P : A -> Prop) (l : list A) :
  Forall P l -> Forall P (stable_sort before l).
Proof.
  intros H. eapply Permutation_Forall; [|exact H].
  symmetry. apply stable_sort_perm.
Qed.

End StableSort.

Lemma stable_sort_map {A B} (f : A -> B) (beforeA : A -> A -> bool)
  (beforeB : B -> B -> bool) :
  (forall x y, beforeB (f x) (f y) = beforeA x y) ->
  forall l, stable_sort beforeB (map f l) = map f (stable_sort beforeA l).
Proof.
  intros Hf. induction l as [|x l IH]; simpl; [reflexivity|].
  rewrite IH. clear IH. induction (stable_sort beforeA l) as [|y s IHs]; simpl.
  - reflexivity.
  - rewrite Hf. destruct (beforeA y x); simpl; [now rewrite IHs | reflexivity].
Qed.

Section SortDesc.
Context {A : Type}.
Variable key : A -> Z.
Variable R : A -> A -> Prop.

(** The order that a stable sort by decreasing key produces from a list
    ordered by [R]. *)
Let lex (a b : A) : Prop := key b < key a \/ (key a = key b /\ R a b).

Lemma insert_desc_lex (x : A) (s : list A) :
  StronglySorted lex s -> Forall (R x) s ->
  StronglySorted lex (insert_by (fun y x => key x <? key y) x s).
Proof using Type.
  induction s as [|y s IH]; intros Hs Hx; simpl.
  - repeat constructor.
  - apply StronglySorted_inv in Hs as [Hs Hy].
    inversion Hx as [|? ? Hxy Hxs]; subst.
    destruct (Z.ltb_spec (key x) (key y)) as [Hlt|Hge].
    + constructor; [now apply IH|].
      eapply Permutation_Forall; [symmetry; apply insert_by_perm|].
      constructor; [left; lia | assumption].
    + constructor; [now constructor|].
      constructor; [unfold lex; destruct (Z.eq_dec (key x) (key y)); [right|left]; auto; lia|].
      rewrite Forall_forall in *. intros z Hz.
      pose proof (Hy z Hz) as Hyz. pose proof (Hxs z Hz) as Hxz.
      unfold lex in *.
      destruct (Z.eq_dec (key x) (key z)); [right; auto | left; lia].
Qed.

Lemma sort_desc_lex (l : list A) :
  StronglySorted R l -> StronglySorted lex (sort_desc key l).
Proof using Type.
  unfold sort_desc.
  induction l as [|x l IH]; intros Hl; simpl; [constructor|].
  apply StronglySorted_inv in Hl as [Hl Hx].
  apply insert_desc_lex; [now apply IH | now apply stable_sort_Forall].
Qed.

(** A list whose keys do not increase is left as it is. *)
Lemma sort_desc_sorted (l : list A) :
  StronglySorted (fun a b => key b <= key a) l -> sort_desc key l = l.
Proof using Type.
  unfold sort_desc.
  induction l as [|x l IH]; intros Hl; simpl; [reflexivity|].
  apply StronglySorted_inv in Hl as [Hl Hx]. rewrite (IH Hl).
  destruct l as [|y l]; simpl; [reflexivity|].
  inversion Hx; subst. destruct (Z.ltb_spec (key x) (key y)); [lia|reflexivity].
Qed.

End SortDesc.

Lemma slice_to_map {A B} (f : A -> B) (l : list A) (k : Z) :
  slice_to (map f l) k = map f (slice_to l k).
Proof.
  unfold slice_to, slice, len. rewrite length_map.
  now rewrite skipn_map, firstn_map.
Qed.

Lemma slice_to_len {A} (l : list A) (k : Z) :
  0 <= k -> len (slice_to l k) = Z.min k (len l).
Proof.
  intros Hk. unfold slice_to.
  replace k with (0 + k) at 1 by lia.
  rewrite slice_window_len by lia. unfold len. lia.
Qed.

Lemma slice_to_firstn {A} (l : list A) (k : Z) :
  0 <= k -> slice_to l k = firstn (Z.to_nat k) l.
Proof.
  intros Hk. unfold slice_to, slice, slice_bound, len.
  destruct (Z.ltb_spec 0 0); [lia|].
  destruct (Z.ltb_spec k 0); [lia|].
  replace (Z.to_nat (Z.min 0 (Z.of_nat (List.length l)))) with 0%nat by lia.
  replace (Z.min 0 (Z.of_nat (List.length l))) with 0 by lia.
  rewrite Z.sub_0_r. simpl skipn.
  destruct (Z.le_ge_cases k (Z.of_nat (List.length l))).
  - now rewrite Z.min_l by lia.
  - rewrite Z.min_r, Nat2Z.id by lia.
    rewrite firstn_all, firstn_all2 by lia. reflexivity.
Qed.

Lemma slice_to_incl {A} (l : list A) (k : Z) (P : A -> Prop) :
  Forall P l -> Forall P (slice_to l k).
Proof. apply slice_sub. Qed.

(** ** Substrings and words *)

Section Substrings.

Lemma startswith_iff (p s : string) :
  startswith p s = true <-> exists r, s = (p ++ r)%string.
Proof.
  revert s. induction p as [|a p IH]; intros s; simpl.
  - split; [intros _; now exists s | reflexivity].
  - destruct s as [|b s].
    + split; [discriminate | intros [r Hr]; discriminate].
    + rewrite andb_true_iff, IH. split.
      * intros [Hab [r ->]]. apply Ascii.eqb_eq in Hab. subst. now exists r.
      * intros [r Hr]. injection Hr as -> ->.
        split; [apply Ascii.eqb_refl | now exists r].
Qed.

Lemma str_in_unfold (a s : string) :
  str_in a s
  = startswith a s
    || match s with EmptyString => false | String _ s' => str_in a s' end.
Proof. now destruct s. Qed.

Lemma str_in_iff (a s : string) :
  str_in a s = true <-> exists p r, s = (p ++ a ++ r)%string.
Proof.
  split.
  - induction s as [|c s IH]; rewrite str_in_unfold, orb_true_iff.
    + intros [H|H]; [|discriminate].
      apply startswith_iff in H as [r Hr]. now exists EmptyString, r.
    + intros [H|H].
      * apply startswith_iff in H as [r Hr]. now exists EmptyString, r.
      * destruct (IH H) as (p & r & ->). now exists (String c p), r.
  - intros (p & r & ->). induction p as [|c p IH].
    + rewrite str_in_unfold. simpl append.
      replace (startswith a (a ++ r)) with true; [reflexivity|].
      symmetry. apply startswith_iff. now exists r.
    + rewrite str_in_unfold. simpl. rewrite IH. apply orb_true_r.
Qed.

Lemma str_in_trans (a b c : string) :
  str_in a b = true -> str_in b c = true -> str_in a c = true.
Proof.
  rewrite !str_in_iff. intros (p & r & ->) (p' & r' & ->).
  exists (p' ++ p)%string, (r ++ r')%string. now rewrite !append_assoc.
Qed.

Lemma split_from_sub (s : string) :
  forall cur w, In w (split_from cur s) ->
    exists p r, (cur ++ s)%string = (p ++ w ++ r)%string.
Proof.
  induction s as [|c s IH]; intros cur w Hw; simpl in Hw.
  - destruct (truthy cur); [|contradiction].
    destruct Hw as [<-|[]]. exists EmptyString, EmptyString.
    simpl. now rewrite !append_empty_r.
  - destruct (is_space c).
    + assert (Hrest : In w (split_from EmptyString s) ->
        exists p r, (cur ++ String c s)%string = (p ++ w ++ r)%string).
      { intros H. destruct (IH _ _ H) as (p & r & Hs). simpl in Hs.
        exists (cur ++ String c p)%string, r.
        rewrite Hs, append_assoc. reflexivity. }
      destruct (truthy cur); [|now apply Hrest].
      destruct Hw as [<-|Hw]; [|now apply Hrest].
      now exists EmptyString, (String c s).
    + destruct (IH _ _ Hw) as (p & r & Hs). exists p, r.
      rewrite <- Hs, append_assoc. reflexivity.
Qed.

Lemma split_word_in (s w : string) : In w (split s) -> str_in w s = true.
Proof. intros H. apply str_in_iff. exact (split_from_sub s EmptyString w H). Qed.

End Substrings.

Lemma filter_all {A} (f : A -> bool) (l : list A) :
  (forall x, In x l -> f x = true) -> filter f l = l.
Proof.
  induction l as [|x l IH]; intros H; simpl; [reflexivity|].
  rewrite (H x (or_introl eq_refl)), IH; [reflexivity|].
  intros y Hy. apply H. now right.
Qed.

Lemma filter_len_le {A} (f : A -> bool) (l : list A) :
  0 <= len (filter f l) <= len l.
Proof.
  unfold len. pose proof (filter_length_le f l). lia.
Qed.

Lemma StronglySorted_map_in {A B} (f : A -> B) (P : A -> Prop)
  (R : A -> A -> Prop) (R' : B -> B -> Prop) (l : list A) :
  (forall a b, P a -> P b -> R a b -> R' (f a) (f b)) ->
  Forall P l -> StronglySorted R l -> StronglySorted R' (map f l).
Proof.
  intros HR. induction l as [|x l IH]; intros HP Hs; simpl; [constructor|].
  inversion HP as [|? ? Hx Hl]; subst.
  apply StronglySorted_inv in Hs as [Hs Hxl].
  constructor; [now apply IH|].
  rewrite Forall_map. rewrite Forall_forall in *.
  intros y Hy. apply HR; auto.
Qed.

Lemma Forall2_map_pair {A B C} (f : A -> B) (g : A -> C)
  (Q : B -> C -> Prop) (l : list A) :
  Forall (fun a => Q (f a) (g a)) l -> Forall2 Q (map f l) (map g l).
Proof. induction 1; simpl; constructor; assumption. Qed.

(** ** Keyword search of ImprovedBhutanRAG *)

Section KeywordSearch.
Import ImprovedBhutanRAG.

Lemma chunk_score_formula (query chunk : string) (meta : chunk_meta) :
  chunk_score query chunk meta
  = phrase_bonus query chunk + 2 * word_hits query chunk
    + domain_boost query meta.
Proof.
  unfold chunk_score, phrase_bonus, word_hits, domain_boost. cbv zeta.
  destruct (str_in (lower query) (lower chunk));
    destruct (str_in "constitution" (lower query)
              && str_in "constitution" (lower (document meta)));
    destruct (str_in "corruption" (lower query)
              && str_in "corruption" (lower (document meta)));
    destruct (str_in "rights" (lower query)
              && str_in "constitution" (lower (document meta)));
    lia.
Qed.

Lemma domain_boost_values (query : string) (meta : chunk_meta) :
  domain_boost query meta = 0 \/ domain_boost query meta = 3
  \/ domain_boost query meta = 5.
Proof.
  unfold domain_boost. cbv zeta.
  repeat match goal with
         | |- context [if ?b then _ else _] => destruct b
         end; auto.
Qed.

Lemma word_hits_bounds (query chunk : string) :
  0 <= word_hits query chunk <= len (split (lower query)).
Proof. apply filter_len_le. Qed.

Lemma word_hits_phrase (query chunk : string) :
  str_in (lower query) (lower chunk) = true ->
  word_hits query chunk = len (split (lower query)).
Proof.
  intros H. unfold word_hits. rewrite filter_all; [reflexivity|].
  intros w Hw. eapply str_in_trans; [|exact H]. now apply split_word_in.
Qed.

(** A chunk that contains the whole lower-cased question outranks any chunk
    that does not. *)
Lemma phrase_outranks (query c1 c2 : string) (m1 m2 : chunk_meta) :
  str_in (lower query) (lower c1) = true ->
  str_in (lower query) (lower c2) = false ->
  chunk_score query c2 m2 < chunk_score query c1 m1.
Proof.
  intros H1 H2. rewrite !chunk_score_formula.
  rewrite (word_hits_phrase _ _ H1).
  pose proof (word_hits_bounds query c2).
  unfold phrase_bonus. rewrite H1, H2.
  destruct (domain_boost_values query m1) as [->|[->| ->]];
    destruct (domain_boost_values query m2) as [->|[->| ->]]; lia.
Qed.

Variable query : string.

Lemma score_loop_tagged (chunks : list string) :
  forall i0 pre metas acc,
    List.length pre = i0 -> List.length metas = List.length chunks ->
    score_loop query (enumerate_from i0 chunks) (pre ++ metas) acc
    = Ok (acc ++ map snd (tagged query i0 chunks metas)).
Proof using Type.
  induction chunks as [|c chunks IH]; intros i0 pre metas acc Hpre Hlen.
  - simpl. now rewrite app_nil_r.
  - destruct metas as [|m metas]; [discriminate|].
    cbn [enumerate_from score_loop tagged].
    rewrite nth_error_app2 by lia. rewrite <- Hpre, Nat.sub_diag. simpl nth_error.
    replace (pre ++ m :: metas) with ((pre ++ [m]) ++ metas)
      by now rewrite <- app_assoc.
    rewrite IH; [|rewrite length_app; simpl; lia | simpl in Hlen; lia].
    rewrite map_app, app_assoc.
    destruct (0 <? chunk_score query c m); simpl; now rewrite ?app_nil_r.
Qed.

(** What is known of a member of [tagged]. *)
Let tag_ok (chunks : list string) (metas : list chunk_meta)
  (t : nat * (Z * string * chunk_meta)) : Prop :=
  nth_error chunks (fst t) = Some (snd (fst (snd t))) /\
  nth_error metas (fst t) = Some (snd (snd t)) /\
  fst (fst (snd t)) = score_at query chunks metas (fst t) /\
  0 < score_at query chunks metas (fst t).

Lemma tagged_spec (chunks : list string) :
  forall i0 prec prem metas,
    List.length prec = i0 -> List.length prem = i0 ->
    List.length metas = List.length chunks ->
    Forall (tag_ok (prec ++ chunks) (prem ++ metas))
           (tagged query i0 chunks metas) /\
    Forall (fun t => (i0 <= fst t)%nat) (tagged query i0 chunks metas) /\
    StronglySorted (fun a b => (fst a < fst b)%nat)
                   (tagged query i0 chunks metas) /\
    map fst (tagged query i0 chunks metas)
    = filter (fun i => 0 <? score_at query (prec ++ chunks) (prem ++ metas) i)
             (seq i0 (List.length chunks)).
Proof using Type.
  induction chunks as [|c chunks IH]; intros i0 prec prem metas Hc Hm Hlen.
  - simpl. repeat split; constructor.
  - destruct metas as [|m metas]; [discriminate|].
    destruct (IH (S i0) (prec ++ [c]) (prem ++ [m]) metas)
      as (Hok & Hge & Hsorted & Hidx);
      [rewrite length_app; simpl; lia .. | simpl in Hlen; lia |].
    rewrite <- !app_assoc in Hok, Hidx. simpl app in Hok, Hidx.
    assert (Hat : score_at query (prec ++ c :: chunks) (prem ++ m :: metas) i0
                  = chunk_score query c m).
    { unfold score_at. rewrite !nth_error_app2 by lia.
      rewrite Hc, Hm, Nat.sub_diag. reflexivity. }
    cbn [tagged List.length seq filter]. rewrite Hat.
    destruct (Z.ltb_spec 0 (chunk_score query c m)) as [Hpos|Hneg]; simpl app.
    + repeat split.
      * constructor; [|assumption]. unfold tag_ok. simpl.
        rewrite !nth_error_app2 by lia. rewrite Hc, Hm, Nat.sub_diag.
        rewrite Hat. repeat split; auto.
      * constructor; [simpl; lia|].
        eapply Forall_impl; [|exact Hge]. simpl. intros; lia.
      * constructor; [assumption|].
        eapply Forall_impl; [|exact Hge]. simpl. intros; lia.
      * simpl. now rewrite Hidx.
    + repeat split; try assumption.
      eapply Forall_impl; [|exact Hge]. simpl. intros; lia.
Qed.

Lemma tagged_empty_question (chunks : list string) :
  forall i0 metas,
    query = EmptyString ->
    List.length metas = List.length chunks ->
    map snd (tagged query i0 chunks metas)
    = map (fun cm => (10, fst cm, snd cm)) (combine chunks metas).
Proof using Type.
  intros i0 metas ->. revert i0 metas.
  induction chunks as [|c chunks IH]; intros i0 [|m metas] Hlen;
    try discriminate; [reflexivity|].
  cbn [tagged combine map].
  assert (Hs : chunk_score EmptyString c m = 10)
    by (unfold chunk_score; simpl; now rewrite str_in_empty).
  rewrite Hs. simpl. f_equal. apply IH. simpl in Hlen. lia.
Qed.

End KeywordSearch.

Section KeywordSearchResults.
Import ImprovedBhutanRAG.

Lemma enhanced_text_search_tagged (r : rag) (query : string) (k : Z) :
  List.length (metadata_with_context r) = List.length (chunks_with_context r) ->
  let sorted :=
    sort_desc (fun t : nat * (Z * string * chunk_meta) => fst (fst (snd t)))
      (tagged query 0 (chunks_with_context r) (metadata_with_context r)) in
  enhanced_text_search r query k
  = Ok (map (fun t => snd (fst (snd t))) (slice_to sorted k),
        map (fun t => snd (snd t)) (slice_to sorted k)).
Proof.
  intros Hlen sorted. unfold enhanced_text_search, enumerate.
  pose proof (score_loop_tagged query (chunks_with_context r) 0%nat []
                (metadata_with_context r) [] eq_refl Hlen) as Hloop.
  cbn [app] in Hloop. rewrite Hloop.
  cbn [bind]. unfold sort_desc in *.
  rewrite (stable_sort_map snd
             (fun y x : nat * (Z * string * chunk_meta) =>
                fst (fst (snd x)) <? fst (fst (snd y)))
             (fun y x : Z * string * chunk_meta => fst (fst x) <? fst (fst y)))
    by reflexivity.
  fold sorted. rewrite slice_to_map, !map_map. reflexivity.
Qed.

(** C5 (as amended).  For a store whose two lists are aligned, the keyword
    search gives each chunk the score 10 if the lower-cased question is a
    substring of the lower-cased chunk, plus 2 for every word of the
    question, repeated words counted each time, that is a substring of the
    chunk, plus a boost that is 0, 3 or 5; a chunk that contains the whole
    lower-cased question scores strictly more than any chunk that does not.
    The chunks returned are the chunks of positive score ranked by
    decreasing score, equal scores in the order of the store, cut to the
    first k: at most k for k >= 0, each paired with its own metadata. *)
Theorem keyword_search_ranking :
  forall (r : rag) (query : string) (k : Z),
    List.length (metadata_with_context r) = List.length (chunks_with_context r) ->
    (forall chunk meta,
        chunk_score query chunk meta
        = phrase_bonus query chunk + 2 * word_hits query chunk
          + domain_boost query meta /\
        (domain_boost query meta = 0 \/ domain_boost query meta = 3
         \/ domain_boost query meta = 5)) /\
    (forall c1 m1 c2 m2,
        str_in (lower query) (lower c1) = true ->
        str_in (lower query) (lower c2) = false ->
        chunk_score query c2 m2 < chunk_score query c1 m1) /\
    exists (ranking : list nat) (docs : list string) (metas : list chunk_meta),
      Permutation ranking
        (filter (fun i => 0 <? score_at query (chunks_with_context r)
                                 (metadata_with_context r) i)
                (seq 0 (List.length (chunks_with_context r)))) /\
      StronglySorted
        (ranks_before query (chunks_with_context r) (metadata_with_context r))
        ranking /\
      enhanced_text_search r query k = Ok (docs, metas) /\
      Forall2 (fun i doc => nth_error (chunks_with_context r) i = Some doc)
              (slice_to ranking k) docs /\
      Forall2 (fun i meta => nth_error (metadata_with_context r) i = Some meta)
              (slice_to ranking k) metas /\
      Forall (fun i => 0 < score_at query (chunks_with_context r)
                             (metadata_with_context r) i) ranking /\
      (0 <= k -> len docs <= k).
Proof.
  intros r query k Hlen. split; [|split].
  - intros chunk meta. split;
      [apply chunk_score_formula | apply domain_boost_values].
  - intros. now apply phrase_outranks.
  - set (chunks := chunks_with_context r) in *.
    set (metas := metadata_with_context r) in *.
    set (key := fun t : nat * (Z * string * chunk_meta) => fst (fst (snd t))).
    set (T := tagged query 0 chunks metas).
    set (sorted := sort_desc key T).
    destruct (tagged_spec query chunks 0%nat [] [] metas eq_refl eq_refl Hlen)
      as (Hok & _ & Hasc & Hidx). simpl app in Hok, Hidx. fold T in Hok, Hasc, Hidx.
    assert (Hok' : Forall (fun t =>
        nth_error chunks (fst t) = Some (snd (fst (snd t))) /\
        nth_error metas (fst t) = Some (snd (snd t)) /\
        key t = score_at query chunks metas (fst t) /\
        0 < score_at query chunks metas (fst t)) sorted).
    { unfold sorted, sort_desc. now apply stable_sort_Forall. }
    exists (map fst sorted),
      (map (fun t => snd (fst (snd t))) (slice_to sorted k)),
      (map (fun t => snd (snd t)) (slice_to sorted k)).
    repeat split.
    + rewrite <- Hidx. apply Permutation_map.
      unfold sorted, sort_desc. apply stable_sort_perm.
    + eapply StronglySorted_map_in with (P := fun t =>
        key t = score_at query chunks metas (fst t));
        [| eapply Forall_impl; [|exact Hok']; now intros t (_ & _ & H & _)
         | apply (sort_desc_lex key (fun a b => (fst a < fst b)%nat)), Hasc].
      intros a b Ha Hb Hab. unfold ranks_before. rewrite <- Ha, <- Hb.
      exact Hab.
    + now apply enhanced_text_search_tagged.
    + rewrite slice_to_map. apply Forall2_map_pair.
      apply slice_to_incl. eapply Forall_impl; [|exact Hok'].
      now intros t (H & _).
    + rewrite slice_to_map. apply Forall2_map_pair.
      apply slice_to_incl. eapply Forall_impl; [|exact Hok'].
      now intros t (_ & H & _).
    + rewrite Forall_map. eapply Forall_impl; [|exact Hok'].
      now intros t (_ & _ & _ & H).
    + intros Hk. unfold len. rewrite length_map. fold (len (slice_to sorted k)).
      rewrite slice_to_len by assumption. lia.
Qed.

Lemma keyword_search_ranking_witness :
  chunk_score "What is the penalty for corruption?"
    "The penalty for corruption is imprisonment." (plain_meta "Penal_Code_2004" 0)
  < chunk_score "What is the penalty for corruption?"
      "Asked what is the penalty for corruption? The court shall say."
      (plain_meta "Penal_Code_2004" 1).
Proof.
  apply (proj1 (proj2 (keyword_search_ranking penalty_store
                         "What is the penalty for corruption?" 5 eq_refl)));
    reflexivity.
Defined.

(** C5 as stated fails twice.  A repeated question word is counted each
    time: for the question made of the word tax twice, a chunk with that
    word scores 4, not 2.  And the +10 goes to a chunk that contains the
    whole question, not a part of it: for the question of the
    specification, the chunk with the exact substring penalty for corruption
    gets no +10, scores 8, and is ranked below a chunk that matches
    individual words only and scores 10. *)
Lemma keyword_search_counts_repeats :
  (chunk_score "tax tax" "A tax is levied on land." (plain_meta "Penal_Code_2004" 2) = 4 /\
   spec_score "tax tax" "A tax is levied on land." (plain_meta "Penal_Code_2004" 2) = 2) /\
  (str_in "penalty for corruption" "The penalty for corruption is imprisonment." = true /\
   phrase_bonus "What is the penalty for corruption?"
     "The penalty for corruption is imprisonment." = 0 /\
   phrase_bonus "What is the penalty for corruption?"
     "What is the penalty for theft in this Code?" = 0 /\
   chunk_score "What is the penalty for corruption?"
     "The penalty for corruption is imprisonment." (plain_meta "Penal_Code_2004" 0) = 8 /\
   chunk_score "What is the penalty for corruption?"
     "What is the penalty for theft in this Code?" (plain_meta "Penal_Code_2004" 1) = 10 /\
   enhanced_text_search penalty_store "What is the penalty for corruption?" 5
   = Ok ([ "What is the penalty for theft in this Code?";
           "The penalty for corruption is imprisonment.";
           "A tax is levied on land." ],
         [ plain_meta "Penal_Code_2004" 1; plain_meta "Penal_Code_2004" 0;
           plain_meta "Penal_Code_2004" 2 ])).
Proof. repeat split; vm_compute; reflexivity. Qed.

Lemma combine_fst {A B} (l : list A) :
  forall l' : list B, List.length l' = List.length l ->
    map fst (combine l l') = l.
Proof.
  induction l as [|x l IH]; intros [|y l'] H; try discriminate;
    [reflexivity|]. simpl. f_equal. apply IH. simpl in H. lia.
Qed.

Lemma combine_snd {A B} (l : list A) :
  forall l' : list B, List.length l' = List.length l ->
    map snd (combine l l') = l'.
Proof.
  induction l as [|x l IH]; intros [|y l'] H; try discriminate;
    [reflexivity|]. simpl. f_equal. apply IH. simpl in H. lia.
Qed.

Lemma constant_keys_sorted {A} (key : A -> Z) (c : Z) (l : list A) :
  Forall (fun a => key a = c) l ->
  StronglySorted (fun a b => key b <= key a) l.
Proof.
  induction 1 as [|x l Hx Hl IH]; constructor; [assumption|].
  eapply Forall_impl; [|exact Hl]. simpl. intros; lia.
Qed.

(** C10.  For the empty question every chunk scores exactly 10: the empty
    string is a substring of every chunk, no word is counted and no boost
    applies.  On a store whose two lists are aligned the search then
    returns the first k stored chunks in the order of the store, each with
    its metadata: k chunks when the store holds at least k, all of them
    otherwise. *)
Theorem empty_question_matches_all :
  forall (r : rag) (k : Z),
    List.length (metadata_with_context r) = List.length (chunks_with_context r) ->
    split (lower EmptyString) = [] /\
    (forall chunk meta,
        str_in (lower EmptyString) (lower chunk) = true /\
        chunk_score EmptyString chunk meta = 10) /\
    enhanced_text_search r EmptyString k
    = Ok (slice_to (chunks_with_context r) k,
          slice_to (metadata_with_context r) k) /\
    (0 <= k <= len (chunks_with_context r) ->
     len (slice_to (chunks_with_context r) k) = k) /\
    (len (chunks_with_context r) <= k ->
     slice_to (chunks_with_context r) k = chunks_with_context r).
Proof.
  intros r k Hlen. split; [reflexivity|]. split; [|split; [|split]].
  - intros chunk meta. simpl lower at 1. rewrite str_in_empty. split; [reflexivity|].
    unfold chunk_score. simpl. now rewrite str_in_empty.
  - unfold enhanced_text_search, enumerate.
    pose proof (score_loop_tagged EmptyString (chunks_with_context r) 0%nat []
                  (metadata_with_context r) [] eq_refl Hlen) as Hloop.
    cbn [app] in Hloop. rewrite Hloop.
    cbn [bind].
    rewrite (tagged_empty_question EmptyString _ 0%nat _ eq_refl Hlen).
    rewrite sort_desc_sorted.
    + rewrite slice_to_map, !map_map. cbn [fst snd].
      rewrite <- !slice_to_map.
      change (fun x : string * chunk_meta => fst x) with (@fst string chunk_meta).
      change (fun x : string * chunk_meta => snd x) with (@snd string chunk_meta).
      now rewrite combine_fst, combine_snd.
    + apply (constant_keys_sorted _ 10). rewrite Forall_map.
      apply Forall_forall. reflexivity.
  - intros Hk. rewrite slice_to_len by lia. lia.
  - intros Hk. rewrite slice_to_firstn by (unfold len in *; lia).
    apply firstn_all2. unfold len in Hk. lia.
Qed.

Lemma empty_question_matches_all_witness :
  enhanced_text_search penalty_store EmptyString 2
  = Ok ([ "The penalty for corruption is imprisonment.";
          "What is the penalty for theft in this Code?" ],
        [ plain_meta "Penal_Code_2004" 0; plain_meta "Penal_Code_2004" 1 ]).
Proof.
  exact (proj1 (proj2 (proj2
           (empty_question_matches_all penalty_store 2 eq_refl)))).
Defined.

End KeywordSearchResults.

(** ** Cache validity of PersistentBhutanRAG *)

Section CacheFacts.
Import PersistentBhutanRAG.
Variable E : env.

(** Steps that touch neither the documents, nor [embeddings.pickle], nor
    the log. *)
Ltac quiet_step :=
  repeat split; exists []; simpl; now rewrite app_nil_r.

Lemma continues_refl (st : state) : continues st st.
Proof using Type.
  repeat split. exists []. now rewrite app_nil_r.
Qed.

Lemma continues_trans (a b c : state) :
  continues a b -> continues b c -> continues a c.
Proof using Type.
  intros (Hd1 & He1 & ev1 & Hl1) (Hd2 & He2 & ev2 & Hl2).
  repeat split; [congruence | congruence |].
  exists (ev1 ++ ev2). now rewrite Hl2, Hl1, app_assoc.
Qed.

Lemma continues_log (st st' : state) (e : event) :
  continues st st' -> In e (log st) -> In e (log st').
Proof using Type.
  intros (_ & _ & ev & ->) H. apply in_or_app. now left.
Qed.

Lemma add_batches_log (model : bool)
  (chunks : list string) (metadata : list chunk_meta)
  (batch_size : Z) (idxs : list Z) :
  forall coll l,
    exists events,
      snd (add_batches E model chunks metadata batch_size idxs coll l)
      = l ++ events.
Proof using Type.
  induction idxs as [|i rest IH]; intros coll l; simpl.
  - exists []. now rewrite app_nil_r.
  - destruct model; simpl; [|exists []; now rewrite app_nil_r].
    destruct (encode_all E _) as [embeddings|]; simpl; [|now eexists].
    destruct (collection_add _ _ _ _ _) as [coll'|]; simpl; [|now eexists].
    destruct (IH coll' (l ++ [Encode (slice chunks i (i + batch_size))]))
      as [ev Hev].
    rewrite Hev. rewrite <- app_assoc. now eexists.
Qed.

Lemma setup_embedding_model_continues (st : state) :
  continues st (snd (setup_embedding_model E st)) /\
  log (snd (setup_embedding_model E st)) = log st ++ [LoadModel].
Proof using Type.
  unfold setup_embedding_model.
  destruct (sentence_transformer_loads E); simpl;
    (split; [repeat split; now eexists | reflexivity]).
Qed.

Lemma setup_vector_database_continues (chunks : list string)
  (metadata : list chunk_meta) (st : state) :
  continues st (snd (setup_persistent_vector_database E chunks metadata st)).
Proof using Type.
  unfold setup_persistent_vector_database.
  destruct (chromadb_opens E); [|quiet_step].
  destruct (vector_db_dir (fs st)); [quiet_step|].
  cbv zeta.
  pose proof (add_batches_log (embedding_model (self st)) chunks metadata 25
                (range_up (Z.to_nat (len chunks)) 0 (len chunks) 25)
                [] (log st)) as [ev Hev].
  destruct (add_batches E _ chunks metadata 25 _ [] (log st))
    as [[ok coll] l].
  simpl in Hev. subst l.
  destruct ok; simpl; repeat split; now exists ev.
Qed.

Lemma create_chunks_continues (legal_texts : list (string * string))
  (st : state) :
  continues st (snd (create_chunks legal_texts st)).
Proof using Type.
  unfold create_chunks.
  destruct (texts_loop legal_texts [] []) as [[chunks metas]|e]; quiet_step.
Qed.

Lemma pdf_loop_log (pdf_files : list pdf_file) :
  forall legal_texts l,
    snd (pdf_loop E pdf_files legal_texts l)
    = l ++ map (fun f => ExtractText (name f)) pdf_files.
Proof using Type.
  induction pdf_files as [|f rest IH]; intros legal_texts l; simpl.
  - now rewrite app_nil_r.
  - destruct (pdf_pages E (name f)) as [pages|];
      [destruct (truthy _)|]; rewrite IH, <- app_assoc; reflexivity.
Qed.

Lemma extract_text_continues (st : state) :
  continues st (snd (extract_text_from_pdfs E st)) /\
  log (snd (extract_text_from_pdfs E st))
  = log st ++ map (fun f => ExtractText (name f)) (documents (fs st)).
Proof using Type.
  unfold extract_text_from_pdfs.
  pose proof (pdf_loop_log (documents (fs st)) [] (log st)) as Hlog.
  destruct (pdf_loop E (documents (fs st)) [] (log st)) as [texts l].
  simpl in *. subst l. split; [|reflexivity].
  repeat split. now eexists.
Qed.

(** A run from scratch reads every document again. *)
Lemma process_from_scratch_continues (st : state) :
  continues st (snd (process_from_scratch E st)) /\
  forall f, In f (documents (fs st)) ->
    In (ExtractText (name f)) (log (snd (process_from_scratch E st))).
Proof using Type.
  unfold process_from_scratch.
  destruct (documents (fs st)) as [|f0 rest] eqn:Hdocs.
  { split; [apply continues_refl | intros f []]. }
  destruct (extract_text_continues st) as [Hc1 Hl1].
  destruct (extract_text_from_pdfs E st) as [legal_texts st1]. simpl in Hc1, Hl1.
  assert (Hseen : forall f, In f (f0 :: rest) -> In (ExtractText (name f)) (log st1)).
  { intros f Hf. rewrite Hl1, Hdocs. apply in_or_app. right.
    now apply (in_map (fun f => ExtractText (name f))). }
  assert (Hgoal : forall st2, continues st1 st2 ->
    continues st st2 /\
    forall f, In f (f0 :: rest) -> In (ExtractText (name f)) (log st2)).
  { intros st2 H12. split; [eapply continues_trans; eassumption|].
    intros f Hf. eapply continues_log; eauto. }
  destruct legal_texts as [|t ts]; [apply Hgoal, continues_refl|].
  pose proof (create_chunks_continues (t :: ts) st1) as Hc2.
  destruct (create_chunks (t :: ts) st1) as [[[chunks metadata]|e] st2];
    simpl in Hc2; [|now apply Hgoal].
  destruct (setup_embedding_model_continues st2) as [Hc3 _].
  destruct (setup_embedding_model E st2) as [ok3 st3]. simpl in Hc3.
  assert (H13 : continues st1 st3) by (eapply continues_trans; eassumption).
  destruct ok3; simpl; [|now apply Hgoal].
  pose proof (setup_vector_database_continues chunks metadata st3) as Hc4.
  destruct (setup_persistent_vector_database E chunks metadata st3)
    as [ok4 st4]. simpl in Hc4.
  assert (H14 : continues st1 st4) by (eapply continues_trans; eassumption).
  destruct ok4; simpl; [|now apply Hgoal].
  apply (Hgoal (save_system_metadata
                  (get_documents_hash (md5 E) (documents (fs st4))) st4)).
  eapply continues_trans; [exact H14|]. quiet_step.
Qed.

Lemma load_continues (st : state) :
  continues st (snd (load_legal_texts st)) /\
  continues st (snd (load_chunks_data st)).
Proof using Type.
  unfold load_legal_texts, load_chunks_data.
  destruct (texts_cache (fs st)), (chunks_cache (fs st)); simpl;
    split; quiet_step.
Qed.

Lemma initialize_system_continues (st : state) :
  continues st (snd (initialize_system E st)).
Proof using Type.
  unfold initialize_system.
  destruct (is_cache_valid E st); [|apply process_from_scratch_continues].
  destruct (load_continues st) as [Hc1 _].
  destruct (load_legal_texts st) as [legal_texts st1]. simpl in Hc1.
  destruct (load_continues st1) as [_ Hc2].
  destruct (load_chunks_data st1) as [[chunks metadata] st2]. simpl in Hc2.
  assert (H02 : continues st st2) by (eapply continues_trans; eassumption).
  assert (Hscratch : continues st (snd (process_from_scratch E st2))).
  { eapply continues_trans; [exact H02|apply process_from_scratch_continues]. }
  destruct legal_texts as [|t ts]; [exact Hscratch|].
  destruct chunks as [|c cs]; [exact Hscratch|].
  destruct (setup_embedding_model_continues st2) as [Hc3 _].
  destruct (setup_embedding_model E st2) as [ok3 st3]. simpl in Hc3.
  assert (H03 : continues st st3) by exact (continues_trans _ _ _ H02 Hc3).
  destruct ok3; simpl; [|exact H03].
  pose proof (setup_vector_database_continues (c :: cs) metadata st3) as Hc4.
  destruct (setup_persistent_vector_database E (c :: cs) metadata st3)
    as [ok4 st4]. simpl in Hc4.
  destruct ok4; simpl; exact (continues_trans _ _ _ H03 Hc4).
Qed.

Lemma cache_invalid_without_embeddings (st : state) :
  embeddings_cache (fs st) = false -> is_cache_valid E st = false.
Proof using Type.
  intros Hemb. unfold is_cache_valid, load_system_metadata.
  destruct (metadata_cache (fs st)) as [metadata|]; [|reflexivity].
  destruct (negb _); [reflexivity|]. simpl. rewrite Hemb.
  now rewrite !andb_false_r.
Qed.

(** What [initialize_system] does when the cache is valid and holds texts,
    chunks and the collection: it loads the model and nothing else. *)
Lemma valid_cache_skips_pipeline (st : state)
  (t : string * string) (ts : list (string * string))
  (c : string) (cs : list string) (ms : list chunk_meta) (coll : collection) :
  is_cache_valid E st = true ->
  texts_cache (fs st) = Some (t :: ts) ->
  chunks_cache (fs st) = Some (c :: cs, ms) ->
  vector_db_dir (fs st) = Some coll ->
  log (snd (initialize_system E st)) = log st ++ [LoadModel].
Proof using Type.
  intros Hvalid Ht Hc Hv. unfold initialize_system. rewrite Hvalid.
  unfold load_legal_texts. rewrite Ht.
  unfold load_chunks_data. cbn [fs set_self]. rewrite Hc. cbn [fst snd].
  unfold setup_embedding_model, setup_persistent_vector_database.
  destruct (sentence_transformer_loads E); simpl; [|reflexivity].
  destruct (chromadb_opens E); simpl; [|reflexivity].
  rewrite Hv. reflexivity.
Qed.

End CacheFacts.

(** C4 (the code departs from it).  No code writes [embeddings.pickle],
    which [is_cache_valid] requires.  So from any state in which that file
    is absent, as it is in a new or a cleared cache, [initialize_system]
    leaves a cache that [is_cache_valid] rejects, and the next
    [initialize_system], with the documents unchanged, opens and reads every
    document again. *)
Theorem rebuild_leaves_cache_invalid :
  forall (E : env) (st : PersistentBhutanRAG.state),
    PersistentBhutanRAG.embeddings_cache (PersistentBhutanRAG.fs st) = false ->
    let st1 :=
      PersistentBhutanRAG.set_log []
        (snd (PersistentBhutanRAG.initialize_system E st)) in
    PersistentBhutanRAG.documents (PersistentBhutanRAG.fs st1)
      = PersistentBhutanRAG.documents (PersistentBhutanRAG.fs st) /\
    PersistentBhutanRAG.is_cache_valid E st1 = false /\
    forall f,
      In f (PersistentBhutanRAG.documents (PersistentBhutanRAG.fs st)) ->
      In (ExtractText (name f))
         (PersistentBhutanRAG.log
            (snd (PersistentBhutanRAG.initialize_system E st1))).
Proof.
  intros E st Hemb st1.
  destruct (initialize_system_continues E st) as (Hdocs & He & _).
  assert (Hemb1 : PersistentBhutanRAG.embeddings_cache
                    (PersistentBhutanRAG.fs st1) = false).
  { unfold st1. simpl. congruence. }
  assert (Hinv := cache_invalid_without_embeddings E st1 Hemb1).
  split; [exact Hdocs|]. split; [exact Hinv|].
  intros f Hf. unfold PersistentBhutanRAG.initialize_system at 1.
  rewrite Hinv.
  apply process_from_scratch_continues. unfold st1. simpl. now rewrite Hdocs.
Qed.

(** The run of the small world: the first [initialize_system] succeeds and
    writes its caches; the second one, on unchanged documents, finds the
    cache invalid and extracts the text of both documents again. *)
Lemma rebuild_leaves_cache_invalid_witness :
  fst (PersistentBhutanRAG.initialize_system (sample_env true) fresh_state)
    = Ok true /\
  PersistentBhutanRAG.is_cache_valid (sample_env true) rebuilt_state = false /\
  In (ExtractText "Constitution_2008.pdf")
     (PersistentBhutanRAG.log
        (snd (PersistentBhutanRAG.initialize_system (sample_env true)
                rebuilt_state))).
Proof.
  split; [reflexivity|].
  pose proof (rebuild_leaves_cache_invalid (sample_env true) fresh_state
                eq_refl) as (_ & Hinv & Hextract).
  split; [exact Hinv|].
  apply (Hextract {| name := "Constitution_2008.pdf"; st_size := 5120;
                     st_mtime := "1700000000.5" |}).
  left. reflexivity.
Defined.

Example second_run_log :
  PersistentBhutanRAG.log
    (snd (PersistentBhutanRAG.initialize_system (sample_env true) rebuilt_state))
  = [ ExtractText "Constitution_2008.pdf"; ExtractText "Penal_Code_2004.pdf";
      LoadModel ].
Proof. vm_compute. reflexivity. Qed.

(** ** The vector index and the retrieval around it *)

Section SortedBy.
Context {A : Type}.
Variable before : A -> A -> bool.
Variable le : A -> A -> Prop.
Hypothesis le_trans : forall a b c, le a b -> le b c -> le a c.
Hypothesis before_le : forall y x, before y x = true -> le y x.
Hypothesis not_before_le : forall y x, before y x = false -> le x y.

Lemma insert_by_sorted (x : A) (s : list A) :
  StronglySorted le s -> StronglySorted le (insert_by before x s).
Proof using le_trans before_le not_before_le.
  induction s as [|y s IH]; intros Hs; simpl.
  - repeat constructor.
  - apply StronglySorted_inv in Hs as [Hs Hy].
    destruct (before y x) eqn:Hb.
    + constructor; [now apply IH|].
      eapply Permutation_Forall; [symmetry; apply insert_by_perm|].
      constructor; [now apply before_le | assumption].
    + constructor; [now constructor|].
      constructor; [now apply not_before_le|].
      eapply Forall_impl; [|exact Hy]. intros z Hz.
      eapply le_trans; [apply not_before_le, Hb | exact Hz].
Qed.

Lemma stable_sort_sorted (l : list A) :
  StronglySorted le (stable_sort before l).
Proof using le_trans before_le not_before_le.
  induction l as [|x l IH]; simpl; [constructor | now apply insert_by_sorted].
Qed.

End SortedBy.

Lemma nearest_first (s : space) (v : vector) (c : collection) :
  StronglySorted (no_farther s v)
    (stable_sort
       (fun y x => negb (Qle_bool (rank_key s v (entry_embedding x))
                                  (rank_key s v (entry_embedding y)))) c).
Proof.
  apply stable_sort_sorted; unfold no_farther.
  - intros a b d. apply Qle_trans.
  - intros y x H. apply negb_true_iff in H.
    apply Qlt_le_weak, Qnot_le_lt. intros Hle.
    apply Qle_bool_iff in Hle. congruence.
  - intros y x H. apply negb_false_iff in H. now apply Qle_bool_iff.
Qed.

Lemma collection_query_len (s : space) (c : collection) (v : vector) (k : Z) :
  0 <= k -> len (collection_query s c v k) = Z.min k (len c).
Proof.
  intros Hk. unfold collection_query. rewrite slice_to_len by assumption.
  unfold len. now rewrite stable_sort_length.
Qed.

Lemma encode_all_one (E : env) (query : string) :
  encode_all E [query]
  = match encode E query with Some v => Some [v] | None => None end.
Proof. simpl. now destruct (encode E query). Qed.

(** The two distances order a collection differently: next to the query
    [(1, 0)] the entry at [(1, 1)] is the nearest in the Euclidean distance,
    and the entry at [(10, 0)], which points the same way as the query, in
    the cosine distance. *)
Example cosine_is_not_euclidean :
  map entry_id (collection_query L2 two_directions [1%Q; 0%Q] 1) = ["chunk_1"] /\
  map entry_id (collection_query Cosine two_directions [1%Q; 0%Q] 1)
  = ["chunk_0"].
Proof. split; vm_compute; reflexivity. Qed.

(** C8.  The index, as the specification describes it, answers a query for
    k >= 1 with the first k of its entries ordered from the nearest in the
    distance of the collection, hence with at most k of them and with all
    of them when it holds fewer than k; the empty index answers with the
    empty sequence.  [PersistentBhutanRAG.search_documents] hands on the
    answer of its collection, which has the squared Euclidean distance, as
    a list of texts and a list of metadata of the same length, and returns
    two empty lists in every other case;
    [BhutanLegalRAG.search_legal_documents] hands on the answer of its
    collection, which has the cosine distance.  Neither raises. *)
Theorem vector_query_bounded :
  forall (E : env) (s : space) (coll : collection) (v : vector) (k : Z),
    1 <= k ->
    len (collection_query s coll v k) = Z.min k (len coll) /\
    (exists rest,
        Permutation (collection_query s coll v k ++ rest) coll /\
        StronglySorted (no_farther s v) (collection_query s coll v k ++ rest)) /\
    collection_query s [] v k = [] /\
    (forall (r : PersistentBhutanRAG.rag) (query : string),
        PersistentBhutanRAG.vector_db r = Some coll ->
        let found := PersistentBhutanRAG.search_documents E r query k in
        List.length (fst found) = List.length (snd found) /\
        len (fst found) <= Z.min k (len coll) /\
        (coll = [] -> found = ([], [])) /\
        (PersistentBhutanRAG.embedding_model r = true ->
         encode E query = Some v ->
         found = (map entry_document (collection_query L2 coll v k),
                  map entry_metadata (collection_query L2 coll v k)))) /\
    (forall (r : BhutanLegalRAG.rag) (query : string),
        BhutanLegalRAG.vector_db r = Some coll ->
        encode E query = Some v ->
        BhutanLegalRAG.search_legal_documents E r query k
        = Ok (map entry_document (collection_query Cosine coll v k),
              map entry_metadata (collection_query Cosine coll v k)) /\
        len (collection_query Cosine coll v k) = Z.min k (len coll) /\
        (coll = [] ->
         BhutanLegalRAG.search_legal_documents E r query k = Ok ([], []))).
Proof.
  intros E s coll v k Hk. split; [|split; [|split; [|split]]].
  - apply collection_query_len. lia.
  - unfold collection_query. rewrite slice_to_firstn by lia.
    exists (skipn (Z.to_nat k)
              (stable_sort
                 (fun y x => negb (Qle_bool (rank_key s v (entry_embedding x))
                                            (rank_key s v (entry_embedding y))))
                 coll)).
    rewrite firstn_skipn. split; [apply stable_sort_perm | apply nearest_first].
  - unfold collection_query. simpl stable_sort.
    rewrite slice_to_firstn by lia. apply firstn_nil.
  - intros r query Hdb found. unfold found, PersistentBhutanRAG.search_documents.
    rewrite Hdb, encode_all_one.
    assert (Hmin : 0 <= Z.min k (len coll)) by (unfold len; lia).
    destruct (PersistentBhutanRAG.embedding_model r);
      [destruct (encode E query) as [w|] eqn:Hw|]; simpl fst; simpl snd.
    + repeat split.
      * now rewrite !length_map.
      * unfold len at 1. rewrite length_map.
        fold (len (collection_query L2 coll w k)).
        rewrite collection_query_len by lia. lia.
      * intros ->. unfold collection_query. simpl stable_sort.
        rewrite slice_to_firstn by lia. now rewrite firstn_nil.
      * intros _ Hv. now injection Hv as ->.
    + repeat split; try assumption; try reflexivity; intros; discriminate.
    + repeat split; try assumption; try reflexivity; intros; discriminate.
  - intros r query Hdb Hv. unfold BhutanLegalRAG.search_legal_documents.
    rewrite Hdb, encode_all_one, Hv.
    split; [reflexivity|]. split; [apply collection_query_len; lia|].
    intros ->. unfold collection_query. simpl stable_sort.
    rewrite slice_to_firstn by lia. now rewrite firstn_nil.
Qed.

Lemma vector_query_bounded_witness :
  len (collection_query Cosine sample_collection [2%Q] 5) = 2 /\
  collection_query Cosine [] [2%Q] 5 = [].
Proof.
  destruct (vector_query_bounded (sample_env true) Cosine sample_collection
              [2%Q] 5 ltac:(lia)) as (Hlen & _ & Hempty & _).
  split; [exact Hlen | exact Hempty].
Defined.

(** ** Retrieval without a vector index, and the answers *)

Section Answers.

Lemma simple_score_loop_ok (query_words : list string) (chunks : list string) :
  forall i0 pre metas acc,
    List.length pre = i0 -> List.length metas = List.length chunks ->
    exists scored,
      BhutanLegalRAG.score_loop query_words (enumerate_from i0 chunks)
        (pre ++ metas) acc = Ok scored.
Proof.
  induction chunks as [|c chunks IH]; intros i0 pre metas acc Hpre Hlen.
  - now eexists.
  - destruct metas as [|m metas]; [discriminate|].
    cbn [enumerate_from BhutanLegalRAG.score_loop].
    rewrite nth_error_app2 by lia. rewrite <- Hpre, Nat.sub_diag.
    simpl nth_error.
    replace (pre ++ m :: metas) with ((pre ++ [m]) ++ metas)
      by now rewrite <- app_assoc.
    destruct (0 <? _);
      apply IH; rewrite ?length_app; simpl in *; lia.
Qed.

Lemma simple_text_search_ok (chunks : list string) (metas : list chunk_meta)
  (query : string) (k : Z) :
  List.length metas = List.length chunks ->
  exists found,
    BhutanLegalRAG.simple_text_search chunks metas query k = Ok found.
Proof.
  intros Hlen. unfold BhutanLegalRAG.simple_text_search, enumerate.
  destruct (simple_score_loop_ok (split (lower query)) chunks 0%nat [] metas []
              eq_refl Hlen) as [scored Hs].
  cbn [app] in Hs. rewrite Hs. cbn [bind]. now eexists.
Qed.

Lemma legal_response_ok (E : env) (query : string) (context_docs : list string) :
  exists answer,
    BhutanLegalRAG.generate_legal_response E query context_docs = Ok answer.
Proof.
  unfold BhutanLegalRAG.generate_legal_response.
  destruct context_docs as [|doc docs]; [now eexists|].
  destruct (language_model E) as [generate|]; [|now eexists].
  destruct (generate _) as [continuation|]; [|now eexists].
  destruct (truthy _); now eexists.
Qed.

Lemma first_doc_excerpt_ok (prefix : string) (n : nat) (doc : string)
  (docs : list string) :
  exists answer,
    ImprovedBhutanRAG.first_doc_excerpt prefix n (doc :: docs) = Ok answer.
Proof. now eexists. Qed.

Lemma extract_legal_answer_ok (query doc : string) (docs : list string)
  (metas : list chunk_meta) :
  exists answer,
    ImprovedBhutanRAG.extract_legal_answer query (doc :: docs) metas = Ok answer.
Proof.
  unfold ImprovedBhutanRAG.extract_legal_answer. cbv zeta.
  destruct (_ || _).
  { unfold ImprovedBhutanRAG.extract_rights_info.
    destruct (ImprovedBhutanRAG.rights_loop _); now eexists. }
  destruct (_ || _).
  { unfold ImprovedBhutanRAG.extract_penalty_info.
    destruct (ImprovedBhutanRAG.penalty_loop _); now eexists. }
  destruct (str_in "citizenship" _).
  { unfold ImprovedBhutanRAG.extract_citizenship_info.
    destruct (ImprovedBhutanRAG.topic_loop _ _ _); now eexists. }
  destruct (str_in "environment" _).
  { unfold ImprovedBhutanRAG.extract_environment_info.
    destruct (ImprovedBhutanRAG.topic_loop _ _ _); now eexists. }
  destruct (str_in "election" _).
  { unfold ImprovedBhutanRAG.extract_election_info.
    destruct (ImprovedBhutanRAG.topic_loop _ _ _); now eexists. }
  unfold ImprovedBhutanRAG.extract_general_info. cbv zeta.
  destruct (flat_map _ _); now eexists.
Qed.

Lemma enhanced_response_ok (E : env) (query doc : string) (docs : list string)
  (metas : list chunk_meta) :
  exists answer,
    ImprovedBhutanRAG.generate_enhanced_response E query (doc :: docs) metas
    = Ok answer.
Proof.
  unfold ImprovedBhutanRAG.generate_enhanced_response.
  destruct (extract_legal_answer_ok query doc docs metas) as [a Ha].
  rewrite Ha.
  destruct (qa_pipeline E) as [pipeline|]; [|now eexists].
  destruct (pipeline _ _) as [[raw confidence]|]; [|now eexists].
  destruct (_ && _); [|now eexists].
  destruct (ImprovedBhutanRAG.format_legal_answer _ _ _); now eexists.
Qed.

Lemma fallback_response_ok (query doc : string) (docs : list string)
  (metas : list chunk_meta) :
  exists answer,
    PersistentBhutanRAG.generate_fallback_response query (doc :: docs) metas
    = Ok answer.
Proof.
  unfold PersistentBhutanRAG.generate_fallback_response.
  destruct (PersistentBhutanRAG.fallback_loop _ _); now eexists.
Qed.

Lemma persistent_response_ok (E : env) (r : PersistentBhutanRAG.rag)
  (query doc : string) (docs : list string) (metas : list chunk_meta) :
  exists answer,
    PersistentBhutanRAG.generate_response E r query (doc :: docs) metas
    = Ok answer.
Proof.
  unfold PersistentBhutanRAG.generate_response,
    PersistentBhutanRAG.generate_gemini_response.
  destruct (fallback_response_ok query doc docs metas) as [a Ha].
  destruct (PersistentBhutanRAG.gemini_client r); [|now exists a].
  destruct (gemini_generate_content E _) as [text|]; [|now exists a].
  destruct (truthy text); [now eexists | now exists a].
Qed.

Lemma improved_search_ok (E : env) (r : ImprovedBhutanRAG.rag)
  (query : string) (k : Z) :
  List.length (ImprovedBhutanRAG.metadata_with_context r)
    = List.length (ImprovedBhutanRAG.chunks_with_context r) ->
  exists found, ImprovedBhutanRAG.search_documents E r query k = Ok found.
Proof.
  intros Hlen.
  assert (Hkw : exists found,
    ImprovedBhutanRAG.enhanced_text_search r query k = Ok found).
  { rewrite (enhanced_text_search_tagged r query k Hlen). now eexists. }
  unfold ImprovedBhutanRAG.search_documents.
  destruct (ImprovedBhutanRAG.vector_db r) as [coll|]; [|exact Hkw].
  destruct (encode_all E [query]) as [[|v vs]|]; try exact Hkw. now eexists.
Qed.

End Answers.

(** C6 (as amended).  When the vector index could not be set up, no class
    raises on a question.  [BhutanLegalRAG] then keeps the chunks and answers
    by its word-count search over them, and [ImprovedBhutanRAG] answers by
    [enhanced_text_search] over the chunks it holds.  [PersistentBhutanRAG]
    has no keyword search: its [setup_persistent_vector_database] reports
    the failure, which makes [initialize_system] fail, and its
    [search_documents] on an absent index returns two empty lists without
    searching, so that the answer is the fixed one. *)
Theorem retrieval_without_index :
  forall (E : env) (question : string) (k : Z),
    (forall (chunks : list string) (metadata : list chunk_meta)
            (r : BhutanLegalRAG.rag),
        BhutanLegalRAG.vector_db
          (BhutanLegalRAG.setup_vector_database E chunks metadata r) = None ->
        BhutanLegalRAG.search_legal_documents E
          (BhutanLegalRAG.setup_vector_database E chunks metadata r) question k
        = BhutanLegalRAG.simple_text_search chunks metadata question k /\
        (List.length metadata = List.length chunks ->
         exists d,
           BhutanLegalRAG.ask_legal_question E
             (BhutanLegalRAG.setup_vector_database E chunks metadata r) question
           = Ok d)) /\
    (forall (chunks : list string) (metadata : list chunk_meta)
            (r : ImprovedBhutanRAG.rag),
        chromadb_opens E = false ->
        ImprovedBhutanRAG.vector_db
          (ImprovedBhutanRAG.setup_vector_database E chunks metadata r) = None) /\
    (forall r : ImprovedBhutanRAG.rag,
        ImprovedBhutanRAG.vector_db r = None ->
        ImprovedBhutanRAG.search_documents E r question k
        = ImprovedBhutanRAG.enhanced_text_search r question k /\
        (List.length (ImprovedBhutanRAG.metadata_with_context r)
           = List.length (ImprovedBhutanRAG.chunks_with_context r) ->
         exists d, ImprovedBhutanRAG.ask_legal_question E r question = Ok d)) /\
    (forall (chunks : list string) (metadata : list chunk_meta)
            (st : PersistentBhutanRAG.state),
        fst (PersistentBhutanRAG.setup_persistent_vector_database E chunks
               metadata st) = false ->
        PersistentBhutanRAG.vector_db
          (PersistentBhutanRAG.self
             (snd (PersistentBhutanRAG.setup_persistent_vector_database E
                     chunks metadata st))) = None) /\
    (forall r : PersistentBhutanRAG.rag,
        PersistentBhutanRAG.vector_db r = None ->
        PersistentBhutanRAG.search_documents E r question k = ([], []) /\
        PersistentBhutanRAG.ask_legal_question E r question
        = Ok (nothing_found_persistent question)).
Proof.
  intros E question k. split; [|split; [|split; [|split]]].
  - intros chunks metadata r Hnone.
    assert (Hfb : BhutanLegalRAG.fallback
                    (BhutanLegalRAG.setup_vector_database E chunks metadata r)
                  = Some (chunks, metadata)).
    { revert Hnone. unfold BhutanLegalRAG.setup_vector_database. cbv zeta.
      destruct (chromadb_opens E); [|reflexivity].
      destruct (BhutanLegalRAG.chromadb_dir r); [discriminate|].
      destruct (BhutanLegalRAG.add_batches _ _ _ _ _ _) as [[|] coll];
        [discriminate | reflexivity]. }
    assert (Hsearch : forall n,
      BhutanLegalRAG.search_legal_documents E
        (BhutanLegalRAG.setup_vector_database E chunks metadata r) question n
      = BhutanLegalRAG.simple_text_search chunks metadata question n).
    { intros n. unfold BhutanLegalRAG.search_legal_documents.
      now rewrite Hnone, Hfb. }
    split; [apply Hsearch|].
    intros Hlen. unfold BhutanLegalRAG.ask_legal_question. rewrite Hsearch.
    destruct (simple_text_search_ok chunks metadata question 5 Hlen)
      as [[docs metas] ->].
    cbn [bind]. destruct docs as [|doc docs]; [now eexists|].
    destruct (legal_response_ok E question (doc :: docs)) as [a ->].
    cbn [bind]. now eexists.
  - intros chunks metadata r Hopen.
    unfold ImprovedBhutanRAG.setup_vector_database. now rewrite Hopen.
  - intros r Hnone. split.
    + unfold ImprovedBhutanRAG.search_documents. now rewrite Hnone.
    + intros Hlen. unfold ImprovedBhutanRAG.ask_legal_question.
      destruct (improved_search_ok E r question 5 Hlen) as [[docs metas] ->].
      cbn [bind]. destruct docs as [|doc docs]; [now eexists|].
      destruct (enhanced_response_ok E question doc docs metas) as [a ->].
      cbn [bind]. now eexists.
  - intros chunks metadata st.
    unfold PersistentBhutanRAG.setup_persistent_vector_database. cbv zeta.
    destruct (chromadb_opens E); [|reflexivity].
    destruct (PersistentBhutanRAG.vector_db_dir _); [discriminate|].
    destruct (PersistentBhutanRAG.add_batches _ _ _ _ _ _ _) as [[ok coll] l].
    destruct ok; [discriminate | reflexivity].
  - intros r Hnone.
    assert (Hs : forall n,
      PersistentBhutanRAG.search_documents E r question n = ([], [])).
    { intros n. unfold PersistentBhutanRAG.search_documents. now rewrite Hnone. }
    split; [apply Hs|].
    unfold PersistentBhutanRAG.ask_legal_question. now rewrite Hs.
Qed.

(** C6 as stated fails for [PersistentBhutanRAG].  When the vector store
    cannot be opened, [initialize_system] fails after having kept the
    chunks; a question whose words are in those chunks is then answered
    with the fixed answer and no source, nothing being searched.  On the
    same kind of store the keyword search of [ImprovedBhutanRAG] finds
    chunks. *)
Lemma persistent_has_no_keyword_fallback :
  fst (PersistentBhutanRAG.initialize_system (sample_env false) fresh_state)
    = Ok false /\
  PersistentBhutanRAG.vector_db
    (PersistentBhutanRAG.self
       (snd (PersistentBhutanRAG.initialize_system (sample_env false)
               fresh_state))) = None /\
  List.length
    (PersistentBhutanRAG.chunks_with_context
       (PersistentBhutanRAG.self
          (snd (PersistentBhutanRAG.initialize_system (sample_env false)
                  fresh_state)))) = 2%nat /\
  PersistentBhutanRAG.ask_legal_question (sample_env false)
    (PersistentBhutanRAG.self
       (snd (PersistentBhutanRAG.initialize_system (sample_env false)
               fresh_state)))
    "What is the penalty for corruption?"
  = Ok (nothing_found_persistent "What is the penalty for corruption?") /\
  PersistentBhutanRAG.search_documents (sample_env false)
    persistent_without_index "What is the penalty for corruption?" 5
  = ([], []) /\
  (exists docs metas,
      ImprovedBhutanRAG.search_documents (sample_env false) penalty_store
        "What is the penalty for corruption?" 5 = Ok (docs, metas) /\
      List.length docs = 3%nat).
Proof.
  split; [vm_compute; reflexivity|]. split; [vm_compute; reflexivity|].
  split; [vm_compute; reflexivity|]. split; [vm_compute; reflexivity|].
  split; [vm_compute; reflexivity|].
  eexists _, _. split; vm_compute; reflexivity.
Qed.

(** C7 (as amended).  [ask_legal_question] never raises on a store whose
    two lists are aligned.  In [ImprovedBhutanRAG] the dict returned has the
    keys question, answer, sources and confidence, the confidence between 0
    and 1.  When the search found nothing it is the fixed answer with no
    source and confidence 0, with these four keys only.  When the search
    found chunks it has the key relevant_excerpts as well, between sources
    and confidence, with the first two chunks found; its answer is the one
    of [generate_enhanced_response], and its confidence the number of
    chunks found over 5, at most 1.  In [PersistentBhutanRAG] the dict has
    the keys question, answer, sources and ai_powered and no confidence; it
    is the fixed answer with no source when the search found nothing. *)
Theorem ask_returns_result :
  forall (E : env) (question : string),
    (forall r : ImprovedBhutanRAG.rag,
        List.length (ImprovedBhutanRAG.metadata_with_context r)
          = List.length (ImprovedBhutanRAG.chunks_with_context r) ->
        exists d,
          ImprovedBhutanRAG.ask_legal_question E r question = Ok d /\
          dict_get d "question" = Some (VStr question) /\
          (exists answer, dict_get d "answer" = Some (VStr answer)) /\
          (exists sources, dict_get d "sources" = Some (VList sources)) /\
          (exists c, dict_get d "confidence" = Some (VFloat c)
                     /\ (0 <= c)%Q /\ (c <= 1)%Q) /\
          (forall metas,
              ImprovedBhutanRAG.search_documents E r question 5 = Ok ([], metas) ->
              d = nothing_found_improved question /\
              keys d = ["question"; "answer"; "sources"; "confidence"] /\
              dict_get d "relevant_excerpts" = None) /\
          (forall doc docs metas,
              ImprovedBhutanRAG.search_documents E r question 5
                = Ok (doc :: docs, metas) ->
              keys d = ["question"; "answer"; "sources"; "relevant_excerpts";
                        "confidence"] /\
              dict_get d "relevant_excerpts"
                = Some (VList (slice_to (doc :: docs) 2)) /\
              (exists answer,
                  ImprovedBhutanRAG.generate_enhanced_response E question
                    (doc :: docs) metas = Ok answer /\
                  dict_get d "answer" = Some (VStr answer)) /\
              dict_get d "confidence"
                = Some (VFloat (if Qle_bool (len (doc :: docs) # 5) 1
                                then (len (doc :: docs) # 5)%Q else 1%Q)))) /\
    (forall r : PersistentBhutanRAG.rag,
        exists d,
          PersistentBhutanRAG.ask_legal_question E r question = Ok d /\
          keys d = ["question"; "answer"; "sources"; "ai_powered"] /\
          dict_get d "question" = Some (VStr question) /\
          dict_get d "confidence" = None /\
          (fst (PersistentBhutanRAG.search_documents E r question 5) = [] ->
           d = nothing_found_persistent question)).
Proof.
  intros E question. split.
  - intros r Hlen. unfold ImprovedBhutanRAG.ask_legal_question.
    destruct (improved_search_ok E r question 5 Hlen) as [[docs metas] ->].
    cbn [bind]. destruct docs as [|doc docs].
    + eexists. split; [reflexivity|].
      split; [reflexivity|]. split; [eexists; reflexivity|].
      split; [eexists; reflexivity|]. split; [|split].
      * exists 0%Q. repeat split; [apply Qle_refl | discriminate].
      * intros metas' _. repeat split.
      * intros doc docs metas' H. discriminate H.
    + destruct (enhanced_response_ok E question doc docs metas) as [a Ha].
      rewrite Ha. cbn [bind]. eexists. split; [reflexivity|].
      split; [reflexivity|]. split; [eexists; reflexivity|].
      split; [eexists; reflexivity|]. split; [|split].
      * eexists. split; [reflexivity|].
        destruct (Qle_bool _ 1) eqn:Hq.
        -- apply Qle_bool_iff in Hq. split; [|exact Hq].
           unfold Qle, len. simpl. lia.
        -- split; discriminate.
      * intros metas' H. discriminate H.
      * intros doc' docs' metas' H. injection H as <- <- <-.
        split; [reflexivity|]. split; [reflexivity|].
        split; [exists a; split; [exact Ha | reflexivity] | reflexivity].
  - intros r. unfold PersistentBhutanRAG.ask_legal_question.
    destruct (PersistentBhutanRAG.search_documents E r question 5)
      as [docs metas].
    destruct docs as [|doc docs].
    + eexists. split; [reflexivity|]. repeat split.
    + destruct (persistent_response_ok E r question doc docs metas) as [a ->].
      cbn [bind]. eexists. split; [reflexivity|].
      repeat split. simpl. discriminate.
Qed.

Lemma ask_returns_result_witness :
  exists d,
    ImprovedBhutanRAG.ask_legal_question (sample_env false) penalty_store
      "What is the penalty for corruption?" = Ok d /\
    dict_get d "question" = Some (VStr "What is the penalty for corruption?") /\
    dict_get d "relevant_excerpts"
      = Some (VList [ "What is the penalty for theft in this Code?";
                      "The penalty for corruption is imprisonment." ]).
Proof.
  destruct (proj1 (ask_returns_result (sample_env false)
                     "What is the penalty for corruption?")
              penalty_store eq_refl) as (d & Hd & Hq & _ & _ & _ & _ & Hfound).
  exists d. split; [exact Hd|]. split; [exact Hq|].
  assert (Hsearch : exists metas,
    ImprovedBhutanRAG.search_documents (sample_env false) penalty_store
      "What is the penalty for corruption?" 5
    = Ok ([ "What is the penalty for theft in this Code?";
            "The penalty for corruption is imprisonment.";
            "A tax is levied on land." ], metas))
    by (eexists; vm_compute; reflexivity).
  destruct Hsearch as [metas Hsearch].
  destruct (Hfound _ _ _ Hsearch) as (_ & Hex & _). exact Hex.
Defined.
(** C7 as stated fails for [PersistentBhutanRAG]: the dict it returns has
    no confidence, found or not. *)
Lemma persistent_answer_has_no_confidence :
  PersistentBhutanRAG.ask_legal_question (sample_env false)
    persistent_without_index "What is the penalty for corruption?"
  = Ok (nothing_found_persistent "What is the penalty for corruption?") /\
  dict_get (nothing_found_persistent "What is the penalty for corruption?")
    "confidence" = None /\
  (exists d,
      PersistentBhutanRAG.ask_legal_question (sample_env true)
        (PersistentBhutanRAG.self rebuilt_state)
        "What is the penalty for corruption?" = Ok d /\
      keys d = ["question"; "answer"; "sources"; "ai_powered"] /\
      dict_get d "confidence" = None).
Proof.
  split; [vm_compute; reflexivity|]. split; [reflexivity|].
  eexists. split; [vm_compute; reflexivity|].
  split; reflexivity.
Qed.

Example improved_answer_penalty :
  ImprovedBhutanRAG.ask_legal_question (sample_env false) penalty_store
    "What is the penalty for corruption?"
  = Ok [ ("question", VStr "What is the penalty for corruption?");
         ("answer",
          VStr "According to Penal Code 2004: What is the penalty for theft in this Code?.");
         ("sources", VList ["Penal Code 2004"]);
         ("relevant_excerpts",
          VList [ "What is the penalty for theft in this Code?";
                  "The penalty for corruption is imprisonment." ]);
         ("confidence", VFloat (3 # 5)) ].
Proof. vm_compute. reflexivity. Qed.

(** * Further properties of the code *)

(** ** The windows of the chunkers *)

Lemma range_up_lt (fuel : nat) :
  forall i stop step, Forall (fun j => j < stop) (range_up fuel i stop step).
Proof.
  induction fuel as [|fuel IH]; intros i stop step; simpl; [constructor|].
  destruct (Z.ltb_spec i stop); constructor; [assumption | apply IH].
Qed.

Section Windows.
Variable words : list string.
Variable chunk_size overlap : Z.
Hypothesis words_ok : Forall is_word words.
Hypothesis overlap_ok : 0 <= overlap < chunk_size.

Let W := len words.
Let step := chunk_size - overlap.

(** The guard on blank chunks never rejects a window that starts inside the
    text. *)
Lemma chunk_loop_keeps_all (idxs : list Z) :
  forall acc,
    Forall (fun i => 0 <= i < W) idxs ->
    chunk_loop words chunk_size idxs acc
    = BhutanLegalRAG.split_loop words chunk_size idxs acc.
Proof using words_ok overlap_ok.
  induction idxs as [|i rest IH]; intros acc Hin; simpl; [reflexivity|].
  inversion Hin as [|? ? Hi Hrest]; subst.
  rewrite (window_truthy words chunk_size overlap words_ok overlap_ok i Hi).
  destruct (_ >=? _); [reflexivity | now apply IH].
Qed.

Lemma range_up_inside (fuel : nat) (i : Z) :
  0 <= i -> Forall (fun j => 0 <= j < W) (range_up fuel i W step).
Proof using overlap_ok.
  intros Hi.
  pose proof (range_up_ge fuel i W step ltac:(unfold step; lia)) as Hge.
  pose proof (range_up_lt fuel i W step) as Hlt.
  rewrite Forall_forall in Hge, Hlt |- *. intros j Hj.
  specialize (Hge j Hj). specialize (Hlt j Hj). simpl in *. lia.
Qed.

(** The chunks made from index [i] on give back the words from [i] on. *)
Lemma chunk_loop_rebuild (fuel : nat) :
  forall i, 0 <= i < W -> W - i <= Z.of_nat fuel ->
    chunk_loop words chunk_size (range_up fuel i W step) [] <> [] /\
    rebuild (Z.to_nat step)
      (chunk_loop words chunk_size (range_up fuel i W step) [])
    = skipn (Z.to_nat i) words.
Proof using words_ok overlap_ok.
  induction fuel as [|fuel IH]; intros i Hi Hfuel; [lia|].
  simpl. destruct (Z.ltb_spec i W) as [_|]; [|lia]. simpl.
  rewrite (window_truthy words chunk_size overlap words_ok overlap_ok)
    by assumption. fold W. simpl app.
  assert (Hsplit : split (join " " (slice words i (i + chunk_size)))
                   = slice words i (i + chunk_size)).
  { apply split_join. now apply slice_sub. }
  assert (Hlen : List.length (skipn (Z.to_nat i) words)
                 = Z.to_nat (W - i)).
  { rewrite length_skipn. unfold W, len in *. lia. }
  destruct (Z.geb_spec (i + chunk_size) W) as [Hlast|Hmore].
  - split; [discriminate|]. simpl. rewrite Hsplit.
    rewrite slice_window by lia. fold W.
    rewrite (Z.min_r (i + chunk_size)), (Z.min_l i) by lia.
    apply firstn_all2. lia.
  - destruct (IH (i + step)) as [Hne Hre]; [unfold step; lia .. |].
    rewrite chunk_loop_acc.
    destruct (chunk_loop words chunk_size
                (range_up fuel (i + step) W step) []) as [|c rest] eqn:Hrest;
      [congruence|].
    split; [discriminate|].
    change (rebuild (Z.to_nat step)
              ([join " " (slice words i (i + chunk_size))] ++ c :: rest))
      with (firstn (Z.to_nat step)
              (split (join " " (slice words i (i + chunk_size))))
            ++ rebuild (Z.to_nat step) (c :: rest)).
    rewrite Hre, Hsplit. rewrite slice_window by lia. fold W.
    rewrite (Z.min_l (i + chunk_size)), (Z.min_l i) by lia.
    rewrite firstn_firstn.
    replace (Nat.min (Z.to_nat step) (Z.to_nat (i + chunk_size - i)))
      with (Z.to_nat step) by (unfold step; lia).
    replace (Z.to_nat (i + step)) with (Z.to_nat step + Z.to_nat i)%nat
      by (unfold step; lia).
    rewrite <- skipn_skipn. apply firstn_skipn.
Qed.

(** The chunk number [j] made from index [i] on is the window that starts
    [j] steps after [i]. *)
Lemma chunk_loop_nth (fuel : nat) :
  forall i j chunk, 0 <= i ->
    nth_error (chunk_loop words chunk_size (range_up fuel i W step) []) j
      = Some chunk ->
    chunk = join " " (slice words (i + Z.of_nat j * step)
                        (i + Z.of_nat j * step + chunk_size)).
Proof using words_ok overlap_ok.
  induction fuel as [|fuel IH]; intros i j chunk Hi Hj;
    [destruct j; discriminate|].
  simpl in Hj. destruct (Z.ltb_spec i W) as [Hlt|];
    [|destruct j; discriminate].
  simpl in Hj. rewrite (window_truthy words chunk_size overlap words_ok overlap_ok) in Hj
    by (fold W; lia). fold W in Hj.
  simpl app in Hj.
  destruct (Z.geb_spec (i + chunk_size) W) as [Hlast|Hmore].
  - destruct j as [|[|j]]; try discriminate.
    injection Hj as <-. now rewrite Z.mul_0_l, Z.add_0_r.
  - rewrite chunk_loop_acc in Hj. destruct j as [|j].
    + injection Hj as <-. now rewrite Z.mul_0_l, Z.add_0_r.
    + simpl in Hj. apply IH in Hj; [|unfold step; lia].
      rewrite Hj. f_equal. f_equal; lia.
Qed.

End Windows.

(** X1.  With 0 <= overlap < chunk_size the chunker loses no word and
    repeats exactly the overlap: the first chunk_size - overlap words of
    every chunk but the last, followed by the words of the last chunk, are
    the words of the text; and the chunk number j holds the words from
    position j * (chunk_size - overlap) up to chunk_size words further. *)
Theorem chunk_text_rebuilds_words :
  forall (text : string) (chunk_size overlap : Z),
    0 <= overlap < chunk_size ->
    exists chunks,
      chunk_text text chunk_size overlap = Ok chunks /\
      rebuild (Z.to_nat (chunk_size - overlap)) chunks = split text /\
      forall j chunk,
        nth_error chunks j = Some chunk ->
        split chunk
        = slice (split text) (Z.of_nat j * (chunk_size - overlap))
            (Z.of_nat j * (chunk_size - overlap) + chunk_size).
Proof.
  intros text chunk_size overlap Hov.
  rewrite chunk_text_windows by lia. eexists. split; [reflexivity|].
  pose proof (split_words text) as Hw.
  set (words := split text) in *.
  assert (HW : 0 <= len words) by (unfold len; lia).
  split.
  - destruct (Z.eq_dec (len words) 0) as [H0|Hpos].
    + rewrite H0. simpl. destruct words; [reflexivity|].
      unfold len in H0. simpl in H0. lia.
    + destruct (chunk_loop_rebuild words chunk_size overlap Hw Hov
                  (Z.to_nat (len words)) 0) as [_ Hre]; [lia..|].
      exact Hre.
  - intros j chunk Hj.
    apply (chunk_loop_nth words chunk_size overlap Hw Hov) in Hj; [|lia].
    rewrite Hj, Z.add_0_l. apply split_join. now apply slice_sub.
Qed.

Lemma chunk_text_rebuilds_words_witness :
  exists chunks,
    chunk_text "a b c d e f g" 3 1 = Ok chunks /\
    rebuild 2 chunks = split "a b c d e f g".
Proof.
  destruct (chunk_text_rebuilds_words "a b c d e f g" 3 1 ltac:(lia))
    as (chunks & Hrun & Hre & _).
  exists chunks. split; [exact Hrun | exact Hre].
Defined.

(** X2.  For 0 <= overlap < chunk_size the splitter of [BhutanLegalRAG],
    which keeps every window, and the chunkers of the two other classes,
    which drop blank chunks, return the same chunks: the guard on blank
    chunks never rejects anything. *)
Theorem split_text_is_chunk_text :
  forall (text : string) (chunk_size overlap : Z),
    0 <= overlap < chunk_size ->
    BhutanLegalRAG.split_text text chunk_size overlap
    = chunk_text text chunk_size overlap /\
    BhutanLegalRAG.split_text text chunk_size overlap
    = simple_chunk_text text chunk_size overlap.
Proof.
  intros text chunk_size overlap Hov.
  assert (H : BhutanLegalRAG.split_text text chunk_size overlap
              = chunk_text text chunk_size overlap).
  { rewrite chunk_text_windows by lia.
    unfold BhutanLegalRAG.split_text, range.
    destruct (Z.eqb_spec (chunk_size - overlap) 0); [lia|].
    destruct (Z.ltb_spec 0 (chunk_size - overlap)); [|lia].
    cbn [bind]. rewrite Z.sub_0_r. f_equal. symmetry.
    apply (chunk_loop_keeps_all (split text) chunk_size overlap
             (split_words text) Hov).
    apply (range_up_inside (split text) chunk_size overlap Hov). lia. }
  split; [exact H | now rewrite simple_chunk_text_eq].
Qed.

Lemma split_text_is_chunk_text_witness :
  BhutanLegalRAG.split_text "a b c d e f g" 3 1
  = chunk_text "a b c d e f g" 3 1.
Proof.
  exact (proj1 (split_text_is_chunk_text "a b c d e f g" 3 1 ltac:(lia))).
Defined.

(** Outside that range the two differ: with a chunk size of 0 the splitter
    of [BhutanLegalRAG] returns empty chunks, which the guard removes. *)
Example split_text_keeps_blank_chunks :
  BhutanLegalRAG.split_text "a b" 0 (-1)
    = Ok [EmptyString; EmptyString] /\
  chunk_text "a b" 0 (-1) = Ok [].
Proof. split; reflexivity. Qed.

(** ** The chunks of BhutanLegalRAG *)

Lemma text_chunks_loop_all (doc_name : string) (total : nat) (l : list string) :
  forall i0 all_chunks metadata,
    BhutanLegalRAG.text_chunks_loop doc_name total (enumerate_from i0 l)
      all_chunks metadata
    = (all_chunks ++ l,
       metadata
         ++ map (fun i => {| document := doc_name; chunk_id := i;
                             total_chunks := total; doc_type := None;
                             content_preview := None |})
                (seq i0 (List.length l))).
Proof.
  induction l as [|c l IH]; intros i0 all_chunks metadata; simpl.
  - now rewrite !app_nil_r.
  - rewrite IH, <- !app_assoc. reflexivity.
Qed.

Lemma split_text_defaults_ok (text : string) :
  exists pieces, BhutanLegalRAG.split_text text 1000 200 = Ok pieces.
Proof.
  unfold BhutanLegalRAG.split_text, range. simpl. now eexists.
Qed.

Lemma bhutan_texts_loop_all (items : list (string * string)) :
  forall all_chunks metadata,
    exists pieces_of : list (list string),
      Forall2 (fun item pieces =>
                 BhutanLegalRAG.split_text (snd item) 1000 200 = Ok pieces)
              items pieces_of /\
      BhutanLegalRAG.texts_loop items all_chunks metadata
      = Ok (all_chunks ++ concat pieces_of,
            metadata
              ++ flat_map (fun ip => numbered (fst (fst ip))
                                       (List.length (snd ip)))
                          (combine items pieces_of)).
Proof.
  induction items as [|[doc_name text] rest IH]; intros all_chunks metadata.
  - exists []. split; [constructor|]. simpl. now rewrite !app_nil_r.
  - destruct (split_text_defaults_ok text) as [pieces Hp].
    cbn [BhutanLegalRAG.texts_loop]. rewrite Hp. cbn [bind].
    unfold enumerate. rewrite text_chunks_loop_all.
    destruct (IH (all_chunks ++ pieces)
                 (metadata
                    ++ map (fun i => {| document := doc_name; chunk_id := i;
                                        total_chunks := List.length pieces;
                                        doc_type := None;
                                        content_preview := None |})
                           (seq 0 (List.length pieces))))
      as (pieces_of & Hall & Hrun).
    exists (pieces :: pieces_of). split; [now constructor|].
    rewrite Hrun. simpl. unfold numbered at 2. now rewrite <- !app_assoc.
Qed.

(** X3.  [BhutanLegalRAG.create_text_chunks] always returns and filters
    nothing: the chunk list is the concatenation, in the order of the
    documents, of all the pieces that [split_text] cuts each text into, and
    the metadata list numbers the pieces of each document from 0, with
    their count; the two lists have the same length. *)
Theorem create_text_chunks_keeps_all :
  forall legal_texts : list (string * string),
    exists (pieces_of : list (list string)) (chunks : list string)
           (metas : list chunk_meta),
      Forall2 (fun item pieces =>
                 BhutanLegalRAG.split_text (snd item) 1000 200 = Ok pieces)
              legal_texts pieces_of /\
      BhutanLegalRAG.create_text_chunks legal_texts = Ok (chunks, metas) /\
      chunks = concat pieces_of /\
      metas = flat_map (fun ip => numbered (fst (fst ip)) (List.length (snd ip)))
                       (combine legal_texts pieces_of) /\
      List.length chunks = List.length metas.
Proof.
  intros legal_texts.
  destruct (bhutan_texts_loop_all legal_texts [] [])
    as (pieces_of & Hall & Hrun).
  exists pieces_of. eexists _, _. split; [exact Hall|].
  split; [exact Hrun|]. split; [reflexivity|]. split; [reflexivity|].
  simpl. clear Hrun. induction Hall as [|item pieces items pieces_of _ _ IH];
    [reflexivity|].
  simpl. rewrite !length_app, IH. unfold numbered.
  now rewrite length_map, length_seq.
Qed.

(** ** Text extraction of PersistentBhutanRAG *)

Section DictFacts.

Lemma dict_set_in (d : list (string * string)) (key v : string) :
  forall k x, In (k, x) (dict_set d key v) ->
    (k = key /\ x = v) \/ In (k, x) d.
Proof.
  induction d as [|[k0 x0] d IH]; intros k x H; simpl in H.
  - destruct H as [H|[]]. injection H as <- <-. now left.
  - destruct (String.eqb_spec k0 key) as [->|Hne].
    + destruct H as [H|H]; [injection H as <- <-; now left | right; now right].
    + destruct H as [H|H]; [right; now left|].
      destruct (IH _ _ H) as [?|?]; [now left | right; now right].
Qed.

Lemma dict_set_has (d : list (string * string)) (key v : string) :
  In (key, v) (dict_set d key v).
Proof.
  induction d as [|[k0 x0] d IH]; simpl; [now left|].
  destruct (String.eqb_spec k0 key) as [->|Hne]; [now left | now right].
Qed.

Lemma dict_set_keeps_key (d : list (string * string)) (key v k : string) :
  In k (map fst d) -> In k (map fst (dict_set d key v)).
Proof.
  induction d as [|[k0 x0] d IH]; simpl; [intros []|].
  destruct (String.eqb_spec k0 key) as [->|Hne]; simpl; intros [H|H]; auto.
Qed.

Lemma dict_set_keys (d : list (string * string)) (key v k : string) :
  In k (map fst (dict_set d key v)) -> k = key \/ In k (map fst d).
Proof.
  induction d as [|[k0 x0] d IH]; simpl.
  - intros [H|[]]; now left.
  - destruct (String.eqb_spec k0 key) as [->|Hne]; simpl; intros [H|H]; auto.
    destruct (IH H); auto.
Qed.

Lemma dict_set_nodup (d : list (string * string)) (key v : string) :
  NoDup (map fst d) -> NoDup (map fst (dict_set d key v)).
Proof.
  induction d as [|[k0 x0] d IH]; simpl; intros Hd.
  - constructor; [intros [] | constructor].
  - apply NoDup_cons_iff in Hd as [Hnin Hd].
    destruct (String.eqb_spec k0 key) as [->|Hne]; simpl.
    + now constructor.
    + constructor; [|now apply IH].
      intros Hin. apply dict_set_keys in Hin as [Heq|Hin]; congruence.
Qed.

End DictFacts.

Section Extraction.
Import PersistentBhutanRAG.
Variable E : env.

(** What one document contributes: the text of its pages, when the
    document can be read and that text is not blank. *)
Let readable (f : pdf_file) (key text : string) : Prop :=
  exists pages,
    pdf_pages E (name f) = Some pages /\
    text = page_loop E pages EmptyString /\
    truthy (strip text) = true /\
    key = stem (name f).

Lemma pdf_loop_texts (pdf_files : list pdf_file) :
  forall legal_texts l,
    NoDup (map fst legal_texts) ->
    let out := fst (pdf_loop E pdf_files legal_texts l) in
    NoDup (map fst out) /\
    (forall k x, In (k, x) out ->
       In (k, x) legal_texts \/ exists f, In f pdf_files /\ readable f k x) /\
    (forall k, In k (map fst legal_texts) -> In k (map fst out)) /\
    (forall f k x, In f pdf_files -> readable f k x -> In k (map fst out)).
Proof using Type.
  induction pdf_files as [|f rest IH]; intros legal_texts l Hnd; simpl.
  - repeat split; auto. intros f k x [].
  - assert (Hskip :
      (pdf_pages E (name f) = None \/
       exists pages, pdf_pages E (name f) = Some pages /\
         truthy (strip (page_loop E pages EmptyString)) = false) ->
      let out := fst (pdf_loop E rest legal_texts
                        (l ++ [ExtractText (name f)])) in
      NoDup (map fst out) /\
      (forall k x, In (k, x) out ->
         In (k, x) legal_texts \/
         exists g, (f = g \/ In g rest) /\ readable g k x) /\
      (forall k, In k (map fst legal_texts) -> In k (map fst out)) /\
      (forall g k x, f = g \/ In g rest -> readable g k x ->
                     In k (map fst out))).
    { intros Hbad.
      destruct (IH legal_texts (l ++ [ExtractText (name f)]) Hnd)
        as (H1 & H2 & H3 & H4).
      repeat split; auto.
      - intros k x Hin. destruct (H2 k x Hin) as [?|(g & Hg & Hr)]; auto.
        right. exists g. auto.
      - intros g k x [<-|Hg] Hr; [|eapply H4; eauto].
        destruct Hr as (pages & Hp & -> & Ht & _).
        destruct Hbad as [Hbad|(pages' & Hp' & Hbad)]; congruence. }
    destruct (pdf_pages E (name f)) as [pages|] eqn:Hp;
      [|apply Hskip; now left].
    destruct (truthy (strip (page_loop E pages EmptyString))) eqn:Ht;
      [|apply Hskip; right; now exists pages].
    set (text := page_loop E pages EmptyString) in *.
    destruct (IH (dict_set legal_texts (stem (name f)) text)
                 (l ++ [ExtractText (name f)]) (dict_set_nodup _ _ _ Hnd))
      as (H1 & H2 & H3 & H4).
    assert (Hf : readable f (stem (name f)) text)
      by (exists pages; repeat split; auto).
    repeat split; auto.
    + intros k x Hin. destruct (H2 k x Hin) as [Hin'|(g & Hg & Hr)].
      * apply dict_set_in in Hin' as [[-> ->]|Hin']; [|now left].
        right. exists f. split; [now left | exact Hf].
      * right. exists g. auto.
    + intros k Hk. apply H3. now apply dict_set_keeps_key.
    + intros g k x [<-|Hg] Hr; [|eapply H4; eauto].
      apply H3. destruct Hr as (pages' & _ & _ & _ & ->).
      change (stem (name f)) with (fst (stem (name f), text)).
      apply in_map, dict_set_has.
Qed.

End Extraction.

(** X4.  [extract_text_from_pdfs] opens every document once, in the order
    of the listing, whatever fails on the way.  The texts it returns have
    distinct keys; a key is there exactly when it is the stem of a document
    that could be read and whose pages gave a text that is not blank, and
    every text kept is such a text.  The same texts are written to the
    texts cache and stored in [self]. *)
Theorem extract_text_keeps_readable :
  forall (E : env) (st : PersistentBhutanRAG.state),
    let texts := fst (PersistentBhutanRAG.extract_text_from_pdfs E st) in
    let st' := snd (PersistentBhutanRAG.extract_text_from_pdfs E st) in
    let docs := PersistentBhutanRAG.documents (PersistentBhutanRAG.fs st) in
    PersistentBhutanRAG.log st'
      = PersistentBhutanRAG.log st ++ map (fun f => ExtractText (name f)) docs /\
    NoDup (map fst texts) /\
    (forall k x, In (k, x) texts ->
       truthy (strip x) = true /\
       exists f pages,
         In f docs /\ k = PersistentBhutanRAG.stem (name f) /\
         pdf_pages E (name f) = Some pages /\
         x = PersistentBhutanRAG.page_loop E pages EmptyString) /\
    (forall f pages,
       In f docs -> pdf_pages E (name f) = Some pages ->
       truthy (strip (PersistentBhutanRAG.page_loop E pages EmptyString)) = true ->
       In (PersistentBhutanRAG.stem (name f)) (map fst texts)) /\
    PersistentBhutanRAG.texts_cache (PersistentBhutanRAG.fs st') = Some texts /\
    PersistentBhutanRAG.legal_texts (PersistentBhutanRAG.self st') = texts.
Proof.
  intros E st texts st' docs.
  destruct (extract_text_continues E st) as [_ Hlog].
  split; [exact Hlog|].
  unfold texts, st', PersistentBhutanRAG.extract_text_from_pdfs.
  destruct (pdf_loop_texts E docs [] (PersistentBhutanRAG.log st)
              (NoDup_nil _)) as (H1 & H2 & _ & H4).
  fold docs.
  destruct (PersistentBhutanRAG.pdf_loop E docs []
              (PersistentBhutanRAG.log st)) as [out l].
  simpl in *. repeat split; auto.
  - destruct (H2 k x H) as [[]|(f & _ & pages & _ & _ & Ht & _)]. exact Ht.
  - destruct (H2 k x H) as [[]|(f & Hf & pages & Hp & Hx & _ & Hk)].
    exists f, pages. auto.
  - intros f pages Hf Hp Ht. eapply (H4 f); [exact Hf|].
    exists pages. repeat split; auto.
Qed.

(** ** What initialize_system establishes *)

Section Initialization.
Import PersistentBhutanRAG.
Variable E : env.

Lemma persistent_texts_loop_ok (items : list (string * string)) :
  exists chunks metas, texts_loop items [] [] = Ok (chunks, metas).
Proof using Type.
  destruct (persistent_texts_loop_aligned items [] [] [])
    as (chunks & metas & H & _); [constructor|]. now exists chunks, metas.
Qed.

Lemma process_from_scratch_post (st : state) :
  exists ok,
    fst (process_from_scratch E st) = Ok ok /\
    (ok = true -> initialized E (snd (process_from_scratch E st))).
Proof using Type.
  unfold process_from_scratch.
  destruct (documents (fs st)) as [|f0 rest] eqn:Hdocs.
  { exists false. split; [reflexivity | discriminate]. }
  unfold extract_text_from_pdfs. rewrite Hdocs.
  destruct (pdf_loop E (f0 :: rest) [] (log st)) as [texts l1].
  destruct texts as [|t ts].
  { exists false. split; [reflexivity | discriminate]. }
  unfold create_chunks.
  destruct (persistent_texts_loop_ok (t :: ts)) as (chunks & metas & ->).
  unfold setup_embedding_model.
  destruct (sentence_transformer_loads E); cbn -[get_documents_hash];
    [|exists false; split; [reflexivity | discriminate]].
  unfold setup_persistent_vector_database.
  destruct (chromadb_opens E); cbn -[get_documents_hash];
    [|exists false; split; [reflexivity | discriminate]].
  destruct (vector_db_dir (fs st)) as [coll|] eqn:Hdir;
    cbn -[get_documents_hash].
  - exists true. split; [reflexivity|]. intros _.
    eexists _, coll. cbn -[get_documents_hash].
    repeat split; try reflexivity; try assumption; discriminate.
  - destruct (add_batches E _ chunks metas 25 _ [] _) as [[ok coll] l2].
    destruct ok; cbn -[get_documents_hash];
      [|exists false; split; [reflexivity | discriminate]].
    exists true. split; [reflexivity|]. intros _.
    eexists _, coll. cbn -[get_documents_hash].
    repeat split; try reflexivity; try assumption; discriminate.
Qed.

Lemma initialize_system_post (st : state) :
  exists ok,
    fst (initialize_system E st) = Ok ok /\
    (ok = true -> initialized E (snd (initialize_system E st))).
Proof using Type.
  unfold initialize_system.
  destruct (is_cache_valid E st) eqn:Hvalid;
    [|apply process_from_scratch_post].
  unfold is_cache_valid, load_system_metadata in Hvalid.
  destruct (metadata_cache (fs st)) as [m|] eqn:Hm; [|discriminate].
  destruct (String.eqb_spec (get_documents_hash (md5 E) (documents (fs st)))
              (documents_hash m)) as [Hhash|]; [|discriminate].
  cbn [negb forallb] in Hvalid.
  destruct (texts_cache (fs st)) as [texts|] eqn:Ht; [|discriminate].
  destruct (chunks_cache (fs st)) as [[chunks metas]|] eqn:Hc; [|discriminate].
  unfold load_legal_texts. rewrite Ht.
  unfold load_chunks_data. cbn [fs set_self]. rewrite Hc. cbn [fst snd].
  destruct texts as [|t ts]; [apply process_from_scratch_post|].
  destruct chunks as [|c cs]; [apply process_from_scratch_post|].
  unfold setup_embedding_model.
  destruct (sentence_transformer_loads E); cbn -[get_documents_hash];
    [|exists false; split; [reflexivity | discriminate]].
  unfold setup_persistent_vector_database.
  destruct (chromadb_opens E); cbn -[get_documents_hash];
    [|exists false; split; [reflexivity | discriminate]].
  destruct (vector_db_dir (fs st)) as [coll|] eqn:Hdir;
    cbn -[get_documents_hash].
  - exists true. split; [reflexivity|]. intros _.
    exists m, coll. cbn -[get_documents_hash].
    repeat split; auto; discriminate.
  - destruct (add_batches E _ (c :: cs) metas 25 _ [] _) as [[ok coll] l2].
    destruct ok; cbn -[get_documents_hash];
      [|exists false; split; [reflexivity | discriminate]].
    exists true. split; [reflexivity|]. intros _.
    exists m, coll. cbn -[get_documents_hash].
    repeat split; auto; discriminate.
Qed.

End Initialization.

(** X5.  [initialize_system] never raises: it returns [True] or [False].
    When it returns [True], the fingerprint in [system_metadata.json] is the
    fingerprint of the documents now on disk, the embedding model is loaded,
    the index of [self] is the collection stored in [vector_db/], the two
    cache files hold the texts and the chunks that [self] holds, and there
    is at least one text. *)
Theorem initialize_system_establishes (E : env)
  (st : PersistentBhutanRAG.state) :
  exists ok : bool,
    fst (PersistentBhutanRAG.initialize_system E st) = Ok ok /\
    (ok = true ->
     initialized E (snd (PersistentBhutanRAG.initialize_system E st))).
Proof.
  apply initialize_system_post.
Qed.

(** The run of the sample world from an empty cache is one that succeeds. *)
Example initialize_system_succeeds :
  fst (PersistentBhutanRAG.initialize_system (sample_env true) fresh_state)
  = Ok true.
Proof.
  vm_compute. reflexivity.
Qed.

(** ** A stored collection is never rebuilt *)

Section StoredCollection.
Import PersistentBhutanRAG.
Variable E : env.

Let quiet (events : list event) : Prop :=
  Forall (fun e => is_encode e = false) events.

Lemma extract_events_quiet (pdf_files : list pdf_file) :
  Forall (fun e => is_encode e = false)
    (map (fun f => ExtractText (name f)) pdf_files).
Proof using Type.
  induction pdf_files; simpl; constructor; auto.
Qed.

Lemma quiet_app (l1 l2 : list event) :
  Forall (fun e => is_encode e = false) l1 ->
  Forall (fun e => is_encode e = false) l2 ->
  Forall (fun e => is_encode e = false) (l1 ++ l2).
Proof using Type.
  intros H1 H2. apply Forall_app. now split.
Qed.

Lemma process_from_scratch_reuses (st : state) (coll : collection) :
  vector_db_dir (fs st) = Some coll ->
  vector_db_dir (fs (snd (process_from_scratch E st))) = Some coll /\
  (exists events,
      log (snd (process_from_scratch E st)) = log st ++ events /\
      Forall (fun e => is_encode e = false) events) /\
  (fst (process_from_scratch E st) = Ok true ->
   vector_db (self (snd (process_from_scratch E st))) = Some coll).
Proof using Type.
  intros Hdir. unfold process_from_scratch.
  destruct (documents (fs st)) as [|f0 rest] eqn:Hdocs.
  { cbn. repeat split; [assumption | | discriminate].
    exists []. split; [now rewrite app_nil_r | constructor]. }
  unfold extract_text_from_pdfs. rewrite Hdocs.
  pose proof (pdf_loop_log E (f0 :: rest) [] (log st)) as Hlog.
  pose proof (extract_events_quiet (f0 :: rest)) as Hquiet.
  destruct (pdf_loop E (f0 :: rest) [] (log st)) as [texts l1].
  cbn [snd] in Hlog. subst l1.
  destruct texts as [|t ts].
  { cbn -[map]. repeat split; [assumption | | discriminate].
    eexists. split; [reflexivity | assumption]. }
  unfold create_chunks.
  destruct (persistent_texts_loop_ok (t :: ts)) as (chunks & metas & ->).
  unfold setup_embedding_model.
  destruct (sentence_transformer_loads E); cbn -[get_documents_hash map].
  2:{ repeat split; [assumption | | discriminate].
      eexists. split; [now rewrite <- app_assoc|].
      apply quiet_app; [assumption | now repeat constructor]. }
  unfold setup_persistent_vector_database.
  destruct (chromadb_opens E); cbn -[get_documents_hash map].
  2:{ repeat split; [assumption | | discriminate].
      eexists. split; [now rewrite <- app_assoc|].
      apply quiet_app; [assumption | now repeat constructor]. }
  rewrite Hdir. cbn -[get_documents_hash map].
  repeat split; [assumption | ].
  eexists. split; [now rewrite <- app_assoc|].
  apply quiet_app; [assumption | now repeat constructor].
Qed.

End StoredCollection.

(** X6.  Once [vector_db/] holds a collection, [initialize_system] never
    builds it again: whatever the documents and the cache now are, the run
    embeds no chunk, leaves the stored collection as it is, and, when it
    returns [True], searches that collection.  Documents added or changed
    after the collection was built are extracted and chunked again, but do
    not reach the index. *)
Theorem stored_collection_is_reused (E : env)
  (st : PersistentBhutanRAG.state) (coll : collection) :
  PersistentBhutanRAG.vector_db_dir (PersistentBhutanRAG.fs st) = Some coll ->
  let run := PersistentBhutanRAG.initialize_system E st in
  PersistentBhutanRAG.vector_db_dir (PersistentBhutanRAG.fs (snd run))
    = Some coll /\
  (exists events,
      PersistentBhutanRAG.log (snd run)
        = PersistentBhutanRAG.log st ++ events /\
      Forall (fun e => is_encode e = false) events) /\
  (fst run = Ok true ->
   PersistentBhutanRAG.vector_db (PersistentBhutanRAG.self (snd run))
     = Some coll).
Proof.
  intros Hdir run. subst run.
  unfold PersistentBhutanRAG.initialize_system.
  assert (Hscratch : forall s,
             PersistentBhutanRAG.vector_db_dir (PersistentBhutanRAG.fs s)
               = Some coll ->
             PersistentBhutanRAG.log s = PersistentBhutanRAG.log st ->
             PersistentBhutanRAG.vector_db_dir
               (PersistentBhutanRAG.fs
                  (snd (PersistentBhutanRAG.process_from_scratch E s)))
               = Some coll /\
             (exists events,
                 PersistentBhutanRAG.log
                   (snd (PersistentBhutanRAG.process_from_scratch E s))
                   = PersistentBhutanRAG.log st ++ events /\
                 Forall (fun e => is_encode e = false) events) /\
             (fst (PersistentBhutanRAG.process_from_scratch E s) = Ok true ->
              PersistentBhutanRAG.vector_db
                (PersistentBhutanRAG.self
                   (snd (PersistentBhutanRAG.process_from_scratch E s)))
                = Some coll)).
  { intros s Hs Hl. rewrite <- Hl.
    exact (process_from_scratch_reuses E s coll Hs). }
  destruct (PersistentBhutanRAG.is_cache_valid E st);
    [|now apply Hscratch].
  unfold PersistentBhutanRAG.load_legal_texts.
  destruct (PersistentBhutanRAG.texts_cache (PersistentBhutanRAG.fs st))
    as [texts|] eqn:Ht;
  unfold PersistentBhutanRAG.load_chunks_data; cbn [PersistentBhutanRAG.fs
    PersistentBhutanRAG.set_self];
  destruct (PersistentBhutanRAG.chunks_cache (PersistentBhutanRAG.fs st))
    as [[chunks metas]|] eqn:Hc; cbn [fst snd].
  2-4: try (destruct texts); now apply Hscratch.
  destruct texts as [|t ts]; [now apply Hscratch|].
  destruct chunks as [|c cs]; [now apply Hscratch|].
  unfold PersistentBhutanRAG.setup_embedding_model.
  destruct (sentence_transformer_loads E); cbn.
  2:{ repeat split; [assumption | | discriminate].
      eexists. split; [reflexivity | now repeat constructor]. }
  unfold PersistentBhutanRAG.setup_persistent_vector_database.
  destruct (chromadb_opens E); cbn.
  2:{ repeat split; [assumption | | discriminate].
      eexists. split; [reflexivity | now repeat constructor]. }
  rewrite Hdir. cbn.
  repeat split; [assumption | ].
  eexists. split; [reflexivity | now repeat constructor].
Qed.

Lemma stored_collection_is_reused_witness :
  PersistentBhutanRAG.vector_db_dir (PersistentBhutanRAG.fs stale_state)
    = Some sample_collection /\
  fst (PersistentBhutanRAG.initialize_system (sample_env true) stale_state)
    = Ok true /\
  PersistentBhutanRAG.vector_db
    (PersistentBhutanRAG.self
       (snd (PersistentBhutanRAG.initialize_system (sample_env true)
               stale_state)))
    = Some sample_collection.
Proof.
  assert (Hdir : PersistentBhutanRAG.vector_db_dir
                   (PersistentBhutanRAG.fs stale_state)
                 = Some sample_collection) by reflexivity.
  assert (Hok : fst (PersistentBhutanRAG.initialize_system (sample_env true)
                       stale_state) = Ok true) by (vm_compute; reflexivity).
  destruct (stored_collection_is_reused (sample_env true) stale_state
              sample_collection Hdir) as (_ & _ & Hsearch).
  split; [exact Hdir|]. split; [exact Hok|]. exact (Hsearch Hok).
Defined.

(** ** The first build of the index *)

Lemma slice_then_rest {A} (l : list A) (i s : Z) :
  0 <= i -> 0 <= s ->
  slice l i (i + s) ++ skipn (Z.to_nat (i + s)) l = skipn (Z.to_nat i) l.
Proof.
  intros Hi Hs. rewrite slice_window by assumption.
  destruct (Z.le_gt_cases (len l) i) as [Hout|Hin].
  - rewrite (skipn_all2 (n := Z.to_nat (i + s))) by (unfold len in *; lia).
    rewrite (skipn_all2 (n := Z.to_nat i)) by (unfold len in *; lia).
    rewrite app_nil_r. rewrite Z.min_r by lia.
    rewrite skipn_all2 by (unfold len in *; lia). now rewrite firstn_nil.
  - rewrite (Z.min_l i) by lia.
    destruct (Z.le_gt_cases (len l) (i + s)) as [Hlast|Hmore].
    + rewrite Z.min_r by lia.
      rewrite (skipn_all2 (n := Z.to_nat (i + s))) by (unfold len in *; lia).
      rewrite app_nil_r. apply firstn_all2.
      rewrite length_skipn. unfold len in *. lia.
    + rewrite Z.min_l by lia.
      replace (Z.to_nat (i + s)) with (Z.to_nat (i + s - i) + Z.to_nat i)%nat
        by lia.
      rewrite <- skipn_skipn. apply firstn_skipn.
Qed.

Lemma encode_all_each (E : env) (texts : list string) :
  forall embeddings,
    encode_all E texts = Some embeddings ->
    Forall2 (fun t v => encode E t = Some v) texts embeddings.
Proof.
  induction texts as [|t rest IH]; intros embeddings; simpl.
  - intros [= <-]. constructor.
  - destruct (encode E t) as [v|] eqn:Hv; [|discriminate].
    destruct (encode_all E rest) as [vs|]; [|discriminate].
    intros [= <-]. constructor; auto.
Qed.

Lemma make_entries_fields (documents : list string) :
  forall ids embeddings metadatas,
    List.length embeddings = List.length documents ->
    List.length metadatas = List.length documents ->
    List.length ids = List.length documents ->
    map entry_document (make_entries ids embeddings documents metadatas)
      = documents /\
    map entry_metadata (make_entries ids embeddings documents metadatas)
      = metadatas /\
    map entry_id (make_entries ids embeddings documents metadatas) = ids /\
    map entry_embedding (make_entries ids embeddings documents metadatas)
      = embeddings.
Proof.
  induction documents as [|d rest IH];
    intros [|i ids] [|e embeddings] [|m metadatas]; simpl;
    try discriminate; intros He Hm Hi; [now repeat split|].
  destruct (IH ids embeddings metadatas) as (H1 & H2 & H3 & H4);
    [congruence .. |].
  now rewrite H1, H2, H3, H4.
Qed.

Lemma chunk_ids_seq (i : Z) (n : nat) :
  0 <= i ->
  chunk_ids i n
  = map (fun j => ("chunk_" ++ str_of_N (Z.to_N (Z.of_nat j)))%string)
      (seq (Z.to_nat i) n).
Proof.
  intros Hi. unfold chunk_ids.
  rewrite <- (Nat.add_0_r (Z.to_nat i)) at 1.
  replace (seq (Z.to_nat i + 0) n)
    with (map (fun j => (Z.to_nat i + j)%nat) (seq 0 n)).
  - rewrite map_map. apply map_ext. intros j.
    do 3 f_equal. lia.
  - clear Hi. generalize 0%nat. induction n as [|n IH]; intros a; simpl;
      [reflexivity|]. f_equal. rewrite <- Nat.add_succ_r. apply IH.
Qed.

Section Fill.
Import PersistentBhutanRAG.
Variable E : env.
Variables (chunks : list string) (metadata : list chunk_meta).
Hypothesis aligned : List.length chunks = List.length metadata.

Let n : Z := len chunks.

Lemma add_batches_fills (model : bool) (fuel : nat) :
  forall i coll l coll' l',
    0 <= i ->
    add_batches E model chunks metadata 25 (range_up fuel i n 25) coll l
      = (true, coll', l') ->
    n - i <= Z.of_nat fuel ->
    exists new batches,
      coll' = coll ++ new /\
      map entry_document new = skipn (Z.to_nat i) chunks /\
      map entry_metadata new = skipn (Z.to_nat i) metadata /\
      map entry_id new
        = map (fun j => ("chunk_" ++ str_of_N (Z.to_N (Z.of_nat j)))%string)
            (seq (Z.to_nat i) (List.length (skipn (Z.to_nat i) chunks))) /\
      Forall (fun e => encode E (entry_document e) = Some (entry_embedding e))
        new /\
      l' = l ++ map Encode batches /\
      concat batches = skipn (Z.to_nat i) chunks /\
      Forall (fun b => (0 < List.length b <= 25)%nat) batches.
Proof using aligned.
  induction fuel as [|fuel IH]; intros i coll l coll' l' Hi Hrun Hfuel.
  - simpl in Hrun. injection Hrun as <- <-.
    exists [], []. rewrite !app_nil_r.
    rewrite !skipn_all2 by (unfold n, len in *; lia).
    repeat split; constructor.
  - simpl in Hrun. destruct (Z.ltb_spec i n) as [Hin|Hout].
    2:{ simpl in Hrun. injection Hrun as <- <-.
        exists [], []. rewrite !app_nil_r.
        rewrite !skipn_all2 by (unfold n, len in *; lia).
        repeat split; constructor. }
    cbn [add_batches] in Hrun.
    destruct model; cbn [negb] in Hrun; [|discriminate].
    set (batch := slice chunks i (i + 25)) in *.
    set (batch_metadata := slice metadata i (i + 25)) in *.
    assert (Hblen : len batch = Z.min (i + 25) n - i).
    { unfold batch. rewrite slice_window_len by lia. fold n. lia. }
    assert (Hmlen : len batch_metadata = Z.min (i + 25) n - i).
    { unfold batch_metadata. rewrite slice_window_len by lia.
      unfold n, len in *. lia. }
    destruct (encode_all E batch) as [embeddings|] eqn:Henc;
      [|discriminate].
    pose proof (encode_all_each E batch embeddings Henc) as Heach.
    pose proof (Forall2_length Heach) as Helen.
    unfold collection_add in Hrun.
    destruct (_ && _)%bool eqn:Hlens in Hrun; [|discriminate].
    destruct (make_entries_fields batch
                (chunk_ids i (List.length batch)) embeddings batch_metadata)
      as (Hd & Hm & Hid & He).
    { congruence. }
    { unfold len in *. lia. }
    { unfold chunk_ids. now rewrite length_map, length_seq. }
    destruct (IH (i + 25) _ _ _ _ ltac:(lia) Hrun ltac:(lia))
      as (new & batches & -> & Hnd & Hnm & Hnid & Hnenc & -> & Hcat & Hsz).
    exists (make_entries (chunk_ids i (List.length batch)) embeddings batch
              batch_metadata ++ new), (batch :: batches).
    split; [now rewrite app_assoc|].
    split.
    { rewrite map_app, Hd, Hnd. apply slice_then_rest; lia. }
    split.
    { rewrite map_app, Hm, Hnm. apply slice_then_rest; lia. }
    split.
    { rewrite map_app, Hid, Hnid, chunk_ids_seq by lia.
      rewrite <- map_app. f_equal.
      replace (Z.to_nat (i + 25)) with (Z.to_nat i + List.length batch
                 + (25 - List.length batch))%nat
        by (unfold len in *; lia).
      destruct (Z.le_gt_cases n (i + 25)) as [Hlast|Hmore].
      - rewrite (skipn_all2 (n := (Z.to_nat i + List.length batch
                 + (25 - List.length batch))%nat))
          by (unfold n, len in *; lia).
        simpl. rewrite app_nil_r. f_equal.
        rewrite length_skipn. unfold n, len in *. lia.
      - replace (25 - List.length batch)%nat with 0%nat
          by (unfold len in *; lia).
        rewrite Nat.add_0_r, <- seq_app. f_equal.
        rewrite !length_skipn. unfold n, len in *. lia. }
    split.
    { apply Forall_app. split; [|assumption].
      apply Forall_forall. intros e He_in.
      assert (Hpairs : Forall2 (fun t v => encode E t = Some v)
                 (map entry_document
                    (make_entries (chunk_ids i (List.length batch))
                       embeddings batch batch_metadata))
                 (map entry_embedding
                    (make_entries (chunk_ids i (List.length batch))
                       embeddings batch batch_metadata)))
        by now rewrite Hd, He.
      clear - Hpairs He_in.
      induction (make_entries _ _ _ _) as [|x xs IHxs]; [contradiction|].
      simpl in Hpairs. inversion Hpairs; subst.
      destruct He_in as [<-|Hin]; auto. }
    split; [simpl; now rewrite <- app_assoc|].
    split.
    { simpl. rewrite Hcat. apply slice_then_rest; lia. }
    constructor; [unfold len in *; lia | assumption].
Qed.

End Fill.

(** X7.  The first build of the index.  When [vector_db/] holds no
    collection, the chunks and their metadata are aligned, and
    [setup_persistent_vector_database] returns [True], the new collection is
    both stored and searched, and it holds the chunks in their order, each
    with its own metadata, the id [chunk_<position>] and the embedding the
    model gives for it.  The model was called on batches of 1 to 25 chunks
    that together are the chunks, each once and in order; so the embedding
    model was loaded, unless there was no chunk at all. *)
Theorem first_build_indexes_every_chunk (E : env)
  (chunks : list string) (metadata : list chunk_meta)
  (st : PersistentBhutanRAG.state) :
  List.length chunks = List.length metadata ->
  PersistentBhutanRAG.vector_db_dir (PersistentBhutanRAG.fs st) = None ->
  fst (PersistentBhutanRAG.setup_persistent_vector_database E chunks metadata st)
    = true ->
  (PersistentBhutanRAG.embedding_model (PersistentBhutanRAG.self st) = true \/
   chunks = []) /\
  exists coll batches,
    PersistentBhutanRAG.vector_db
      (PersistentBhutanRAG.self
         (snd (PersistentBhutanRAG.setup_persistent_vector_database
                 E chunks metadata st))) = Some coll /\
    PersistentBhutanRAG.vector_db_dir
      (PersistentBhutanRAG.fs
         (snd (PersistentBhutanRAG.setup_persistent_vector_database
                 E chunks metadata st))) = Some coll /\
    map entry_document coll = chunks /\
    map entry_metadata coll = metadata /\
    map entry_id coll = chunk_ids 0 (List.length chunks) /\
    Forall (fun e => encode E (entry_document e) = Some (entry_embedding e))
      coll /\
    PersistentBhutanRAG.log
      (snd (PersistentBhutanRAG.setup_persistent_vector_database
              E chunks metadata st))
      = PersistentBhutanRAG.log st ++ map Encode batches /\
    concat batches = chunks /\
    Forall (fun b => (0 < List.length b <= 25)%nat) batches.
Proof.
  intros Haligned Hdir.
  unfold PersistentBhutanRAG.setup_persistent_vector_database.
  destruct (chromadb_opens E); [|discriminate].
  rewrite Hdir.
  destruct (PersistentBhutanRAG.add_batches E
              (PersistentBhutanRAG.embedding_model (PersistentBhutanRAG.self st))
              chunks metadata 25
              (range_up (Z.to_nat (len chunks)) 0 (len chunks) 25) []
              (PersistentBhutanRAG.log st)) as [[ok coll] l'] eqn:Hrun.
  destruct ok; [|discriminate]. intros _. split.
  { destruct chunks as [|c cs]; [now right|]. left.
    destruct (PersistentBhutanRAG.embedding_model (PersistentBhutanRAG.self st));
      [reflexivity|].
    replace (Z.to_nat (len (c :: cs))) with (S (List.length cs)) in Hrun
      by (unfold len; simpl List.length; lia).
    cbn [range_up] in Hrun.
    destruct (Z.ltb_spec 0 (len (c :: cs))) as [_|Hneg];
      [|unfold len in Hneg; simpl List.length in Hneg; lia].
    cbn [PersistentBhutanRAG.add_batches negb] in Hrun. discriminate Hrun. }
  destruct (add_batches_fills E chunks metadata Haligned _
              (Z.to_nat (len chunks)) 0 [] (PersistentBhutanRAG.log st)
              coll l' ltac:(lia) Hrun ltac:(unfold len; lia))
    as (new & batches & -> & Hd & Hm & Hid & Henc & -> & Hcat & Hsz).
  exists new, batches. cbn in *.
  repeat split; try assumption; reflexivity.
Qed.

Lemma first_build_indexes_every_chunk_witness :
  List.length (ImprovedBhutanRAG.chunks_with_context penalty_store)
    = List.length (ImprovedBhutanRAG.metadata_with_context penalty_store) /\
  PersistentBhutanRAG.vector_db_dir (PersistentBhutanRAG.fs model_loaded_state)
    = None /\
  fst (PersistentBhutanRAG.setup_persistent_vector_database (sample_env true)
         (ImprovedBhutanRAG.chunks_with_context penalty_store)
         (ImprovedBhutanRAG.metadata_with_context penalty_store)
         model_loaded_state)
    = true /\
  exists coll,
    PersistentBhutanRAG.vector_db
      (PersistentBhutanRAG.self
         (snd (PersistentBhutanRAG.setup_persistent_vector_database
                 (sample_env true)
                 (ImprovedBhutanRAG.chunks_with_context penalty_store)
                 (ImprovedBhutanRAG.metadata_with_context penalty_store)
                 model_loaded_state))) = Some coll /\
    map entry_document coll
      = ImprovedBhutanRAG.chunks_with_context penalty_store.
Proof.
  assert (H1 : List.length (ImprovedBhutanRAG.chunks_with_context penalty_store)
               = List.length
                   (ImprovedBhutanRAG.metadata_with_context penalty_store))
    by reflexivity.
  assert (H2 : PersistentBhutanRAG.vector_db_dir
                 (PersistentBhutanRAG.fs model_loaded_state) = None)
    by reflexivity.
  assert (H3 : fst (PersistentBhutanRAG.setup_persistent_vector_database
                      (sample_env true)
                      (ImprovedBhutanRAG.chunks_with_context penalty_store)
                      (ImprovedBhutanRAG.metadata_with_context penalty_store)
                      model_loaded_state) = true) by (vm_compute; reflexivity).
  destruct (first_build_indexes_every_chunk (sample_env true) _ _
              model_loaded_state H1 H2 H3)
    as (_ & coll & batches & Hdb & _ & Hdocs & _).
  split; [exact H1|]. split; [exact H2|]. split; [exact H3|].
  exists coll. split; [exact Hdb | exact Hdocs].
Defined.

(** Without an embedding model the build fails at its first batch, as
    [None] has no [encode]: the call returns [False] without a call of the
    model, and the collection it had created stays in [vector_db/],
    empty. *)
Example first_build_without_model :
  fst (PersistentBhutanRAG.setup_persistent_vector_database (sample_env true)
         (ImprovedBhutanRAG.chunks_with_context penalty_store)
         (ImprovedBhutanRAG.metadata_with_context penalty_store)
         fresh_state) = false /\
  PersistentBhutanRAG.vector_db_dir
    (PersistentBhutanRAG.fs
       (snd (PersistentBhutanRAG.setup_persistent_vector_database
               (sample_env true)
               (ImprovedBhutanRAG.chunks_with_context penalty_store)
               (ImprovedBhutanRAG.metadata_with_context penalty_store)
               fresh_state))) = Some [] /\
  PersistentBhutanRAG.log
    (snd (PersistentBhutanRAG.setup_persistent_vector_database
            (sample_env true)
            (ImprovedBhutanRAG.chunks_with_context penalty_store)
            (ImprovedBhutanRAG.metadata_with_context penalty_store)
            fresh_state)) = [].
Proof. repeat split; vm_compute; reflexivity. Qed.

(** ** From an emptied cache to the index *)

(** X8.  After [clear_cache], an [initialize_system] that returns [True]
    has read every document, loaded the model once, and embedded the chunks
    it made, each once and in order; the index it then searches holds
    exactly the chunks and the metadata that [self] holds, entry by
    entry. *)
Theorem clear_cache_then_initialize (E : env)
  (st : PersistentBhutanRAG.state) :
  fst (PersistentBhutanRAG.initialize_system E
         (PersistentBhutanRAG.clear_cache st)) = Ok true ->
  exists coll batches,
    PersistentBhutanRAG.vector_db
      (PersistentBhutanRAG.self
         (snd (PersistentBhutanRAG.initialize_system E
                 (PersistentBhutanRAG.clear_cache st)))) = Some coll /\
    map entry_document coll
      = PersistentBhutanRAG.chunks_with_context
          (PersistentBhutanRAG.self
             (snd (PersistentBhutanRAG.initialize_system E
                     (PersistentBhutanRAG.clear_cache st)))) /\
    map entry_metadata coll
      = PersistentBhutanRAG.metadata_with_context
          (PersistentBhutanRAG.self
             (snd (PersistentBhutanRAG.initialize_system E
                     (PersistentBhutanRAG.clear_cache st)))) /\
    PersistentBhutanRAG.log
      (snd (PersistentBhutanRAG.initialize_system E
              (PersistentBhutanRAG.clear_cache st)))
      = PersistentBhutanRAG.log st
          ++ map (fun f => ExtractText (name f))
               (PersistentBhutanRAG.documents (PersistentBhutanRAG.fs st))
          ++ LoadModel :: map Encode batches /\
    concat batches
      = PersistentBhutanRAG.chunks_with_context
          (PersistentBhutanRAG.self
             (snd (PersistentBhutanRAG.initialize_system E
                     (PersistentBhutanRAG.clear_cache st)))).
Proof.
  unfold PersistentBhutanRAG.initialize_system.
  change (PersistentBhutanRAG.is_cache_valid E
            (PersistentBhutanRAG.clear_cache st)) with false.
  cbv iota.
  unfold PersistentBhutanRAG.process_from_scratch.
  change (PersistentBhutanRAG.documents
            (PersistentBhutanRAG.fs (PersistentBhutanRAG.clear_cache st)))
    with (PersistentBhutanRAG.documents (PersistentBhutanRAG.fs st)).
  destruct (PersistentBhutanRAG.documents (PersistentBhutanRAG.fs st))
    as [|f0 rest] eqn:Hdocs; [discriminate|].
  unfold PersistentBhutanRAG.extract_text_from_pdfs.
  change (PersistentBhutanRAG.documents
            (PersistentBhutanRAG.fs (PersistentBhutanRAG.clear_cache st)))
    with (PersistentBhutanRAG.documents (PersistentBhutanRAG.fs st)).
  rewrite Hdocs.
  change (PersistentBhutanRAG.log (PersistentBhutanRAG.clear_cache st))
    with (PersistentBhutanRAG.log st).
  pose proof (pdf_loop_log E (f0 :: rest) [] (PersistentBhutanRAG.log st))
    as Hlog.
  destruct (PersistentBhutanRAG.pdf_loop E (f0 :: rest) []
              (PersistentBhutanRAG.log st)) as [texts l1].
  cbn [snd] in Hlog. subst l1.
  destruct texts as [|t ts]; [discriminate|].
  unfold PersistentBhutanRAG.create_chunks.
  destruct (persistent_texts_loop_aligned (t :: ts) [] [] [])
    as (chunks & metas & Hrun & Hal); [constructor|].
  rewrite Hrun. apply Forall2_length in Hal.
  unfold PersistentBhutanRAG.setup_embedding_model.
  destruct (sentence_transformer_loads E); cbn -[get_documents_hash map];
    [|discriminate].
  unfold PersistentBhutanRAG.setup_persistent_vector_database.
  destruct (chromadb_opens E); cbn -[get_documents_hash map];
    [|discriminate].
  destruct (PersistentBhutanRAG.add_batches E _ chunks metas 25 _ [] _)
    as [[ok coll] l'] eqn:Hfill.
  destruct ok; cbn -[get_documents_hash map]; [|discriminate]. intros _.
  destruct (add_batches_fills E chunks metas Hal _ _ 0 [] _ coll l'
              ltac:(lia) Hfill ltac:(unfold len; lia))
    as (new & batches & -> & Hd & Hm & _ & _ & -> & Hcat & _).
  exists new, batches. cbn -[map] in *.
  repeat split; try assumption; try reflexivity.
  now rewrite <- !app_assoc.
Qed.

Lemma clear_cache_then_initialize_witness :
  fst (PersistentBhutanRAG.initialize_system (sample_env true)
         (PersistentBhutanRAG.clear_cache rebuilt_state)) = Ok true /\
  exists coll,
    PersistentBhutanRAG.vector_db
      (PersistentBhutanRAG.self
         (snd (PersistentBhutanRAG.initialize_system (sample_env true)
                 (PersistentBhutanRAG.clear_cache rebuilt_state))))
      = Some coll /\
    map entry_document coll
      = PersistentBhutanRAG.chunks_with_context
          (PersistentBhutanRAG.self
             (snd (PersistentBhutanRAG.initialize_system (sample_env true)
                     (PersistentBhutanRAG.clear_cache rebuilt_state)))).
Proof.
  assert (Hok : fst (PersistentBhutanRAG.initialize_system (sample_env true)
                       (PersistentBhutanRAG.clear_cache rebuilt_state))
                = Ok true) by (vm_compute; reflexivity).
  destruct (clear_cache_then_initialize (sample_env true) rebuilt_state Hok)
    as (coll & batches & Hdb & Hdocs & _).
  split; [exact Hok|]. exists coll. split; [exact Hdb | exact Hdocs].
Defined.

(** ** What the chunk makers keep *)

Lemma enumerate_bound {A} (l : list A) :
  Forall (fun ic => (fst ic < List.length l)%nat) (enumerate l).
Proof.
  eapply Forall_impl; [|apply enumerate_nth].
  intros [i c] H. simpl in *. apply nth_error_Some. congruence.
Qed.

Lemma enumerate_in {A} (l : list A) :
  Forall (fun ic => In (snd ic) l) (enumerate l).
Proof.
  eapply Forall_impl; [|apply enumerate_nth].
  intros [i c] H. simpl in *. eapply nth_error_In. eassumption.
Qed.

Lemma Forall_and_both {A} (P Q : A -> Prop) (l : list A) :
  Forall P l -> Forall Q l -> Forall (fun x => P x /\ Q x) l.
Proof.
  intros HP HQ. induction HP; inversion HQ; subst; constructor; auto.
Qed.

Lemma persistent_chunks_loop_kept (P : string -> chunk_meta -> Prop)
  (doc_name : string) (total : nat) (ichunks : list (nat * string)) :
  forall all_chunks metadata,
    Forall2 P all_chunks metadata ->
    Forall (fun ic =>
              100 < Z.of_nat (String.length (strip (snd ic))) ->
              P (snd ic)
                {| document := doc_name; chunk_id := fst ic;
                   total_chunks := total;
                   doc_type :=
                     Some (PersistentBhutanRAG.get_document_type doc_name);
                   content_preview := None |}) ichunks ->
    Forall2 P
      (fst (PersistentBhutanRAG.chunks_loop doc_name total ichunks
              all_chunks metadata))
      (snd (PersistentBhutanRAG.chunks_loop doc_name total ichunks
              all_chunks metadata)).
Proof.
  induction ichunks as [|[i chunk] rest IH]; intros all_chunks metadata Hal Hic;
    simpl; [assumption|].
  inversion Hic as [|? ? Hhd Htl]; subst. simpl in Hhd.
  destruct (Z.ltb_spec 100 (Z.of_nat (String.length (strip chunk)))).
  - apply IH; [|assumption].
    apply Forall2_app; [assumption|]. constructor; [auto | constructor].
  - now apply IH.
Qed.

Lemma chunk_text_defaults_words (text : string) :
  Forall (fun chunk => len (split chunk) <= 1200)
    (chunk_loop (split text) 1200
       (range_up (Z.to_nat (len (split text))) 0 (len (split text))
          (1200 - 200)) []).
Proof.
  apply chunk_loop_Forall; [constructor|].
  eapply Forall_impl; [|apply range_up_ge; lia].
  intros i Hi. simpl in Hi.
  apply (window_word_count (split text) 1200 200 (split_words text)); lia.
Qed.

Lemma persistent_texts_loop_kept (legal_texts items : list (string * string)) :
  (forall item, In item items -> In (fst item) (map fst legal_texts)) ->
  forall all_chunks metadata,
    Forall2 (kept_persistent legal_texts) all_chunks metadata ->
    exists chunks metas,
      PersistentBhutanRAG.texts_loop items all_chunks metadata
        = Ok (chunks, metas) /\
      Forall2 (kept_persistent legal_texts) chunks metas.
Proof.
  induction items as [|[doc_name text] rest IH];
    intros Hin all_chunks metadata Hal.
  - now exists all_chunks, metadata.
  - cbn [PersistentBhutanRAG.texts_loop].
    rewrite chunk_text_windows by lia. cbn [bind].
    set (pieces := chunk_loop (split text) 1200 _ []).
    pose proof (persistent_chunks_loop_kept (kept_persistent legal_texts)
                  doc_name (List.length pieces) (enumerate pieces)
                  all_chunks metadata Hal) as Hloop.
    destruct (PersistentBhutanRAG.chunks_loop doc_name (List.length pieces)
                (enumerate pieces) all_chunks metadata) as [cs ms].
    cbn [fst snd] in Hloop. apply IH.
    + intros item Hitem. apply Hin. now right.
    + apply Hloop.
      pose proof (chunk_text_defaults_words text) as Hwords.
      fold pieces in Hwords. rewrite Forall_forall in Hwords.
      eapply Forall_impl;
        [|exact (Forall_and_both _ _ _ (enumerate_bound pieces)
                   (enumerate_in pieces))].
      intros [i chunk] [Hi Hc] Hlong. simpl in *.
      unfold kept_persistent. simpl.
      repeat split; auto.
      apply (Hin (doc_name, text)). now left.
Qed.

(** X9.  [create_chunks] always returns.  Every chunk it keeps has more
    than 100 characters once stripped and at most 1200 words; its metadata
    names one of the documents, gives the type that [get_document_type]
    finds for that name, has no preview, and a chunk number below the number
    of pieces of the document. *)
Theorem create_chunks_keeps_long_chunks (legal_texts : list (string * string))
  (st : PersistentBhutanRAG.state) :
  exists chunks metas,
    fst (PersistentBhutanRAG.create_chunks legal_texts st)
      = Ok (chunks, metas) /\
    Forall2 (kept_persistent legal_texts) chunks metas.
Proof.
  destruct (persistent_texts_loop_kept legal_texts legal_texts
              ltac:(intros item Hitem; now apply in_map) [] []
              ltac:(constructor)) as (chunks & metas & Hrun & Hkept).
  exists chunks, metas. unfold PersistentBhutanRAG.create_chunks.
  rewrite Hrun. split; [reflexivity | exact Hkept].
Qed.

Lemma improved_sections_loop_kept (P : string -> chunk_meta -> Prop)
  (doc_name : string) (total : nat) (isections : list (nat * string)) :
  forall all_chunks metadata,
    Forall2 P all_chunks metadata ->
    Forall (fun ic =>
              50 < Z.of_nat (String.length (strip (snd ic))) ->
              P (snd ic)
                {| document := doc_name; chunk_id := fst ic;
                   total_chunks := total;
                   doc_type :=
                     Some (ImprovedBhutanRAG.get_document_type doc_name);
                   content_preview :=
                     Some (if 100 <? Z.of_nat (String.length (snd ic))
                           then (str_take 100 (snd ic) ++ "...")%string
                           else snd ic) |}) isections ->
    Forall2 P
      (fst (ImprovedBhutanRAG.sections_loop doc_name total isections
              all_chunks metadata))
      (snd (ImprovedBhutanRAG.sections_loop doc_name total isections
              all_chunks metadata)).
Proof.
  induction isections as [|[i section] rest IH];
    intros all_chunks metadata Hal Hic; simpl; [assumption|].
  inversion Hic as [|? ? Hhd Htl]; subst. simpl in Hhd.
  destruct (Z.ltb_spec 50 (Z.of_nat (String.length (strip section)))).
  - apply IH; [|assumption].
    apply Forall2_app; [assumption|]. constructor; [auto | constructor].
  - now apply IH.
Qed.

Lemma improved_texts_loop_kept (E : env)
  (legal_texts items : list (string * string)) :
  (forall item, In item items -> In (fst item) (map fst legal_texts)) ->
  forall all_chunks metadata,
    Forall2 (kept_improved legal_texts) all_chunks metadata ->
    exists chunks metas,
      ImprovedBhutanRAG.texts_loop E items all_chunks metadata
        = Ok (chunks, metas) /\
      Forall2 (kept_improved legal_texts) chunks metas.
Proof.
  induction items as [|[doc_name text] rest IH];
    intros Hin all_chunks metadata Hal.
  - now exists all_chunks, metadata.
  - cbn [ImprovedBhutanRAG.texts_loop].
    destruct (improved_split_ok E text doc_name) as [pieces ->]. cbn [bind].
    pose proof (improved_sections_loop_kept (kept_improved legal_texts)
                  doc_name (List.length pieces) (enumerate pieces)
                  all_chunks metadata Hal) as Hloop.
    destruct (ImprovedBhutanRAG.sections_loop doc_name (List.length pieces)
                (enumerate pieces) all_chunks metadata) as [cs ms].
    cbn [fst snd] in Hloop. apply IH.
    + intros item Hitem. apply Hin. now right.
    + apply Hloop.
      eapply Forall_impl; [|exact (enumerate_bound pieces)].
      intros [i section] Hi Hlong. simpl in *.
      unfold kept_improved. simpl.
      repeat split; auto.
      apply (Hin (doc_name, text)). now left.
Qed.

(** X10.  [create_enhanced_chunks] always returns.  Every section it keeps
    has more than 50 characters once stripped; its metadata names one of
    the documents, gives the type that [get_document_type] finds for that
    name, a chunk number below the number of sections of the document, and
    as preview the section itself when it has at most 100 characters, else
    its first 100 characters followed by three dots. *)
Theorem create_enhanced_chunks_keeps_long_sections (E : env)
  (legal_texts : list (string * string)) (r : ImprovedBhutanRAG.rag) :
  exists chunks metas,
    fst (ImprovedBhutanRAG.create_enhanced_chunks E legal_texts r)
      = Ok (chunks, metas) /\
    Forall2 (kept_improved legal_texts) chunks metas.
Proof.
  destruct (improved_texts_loop_kept E legal_texts legal_texts
              ltac:(intros item Hitem; now apply in_map) [] []
              ltac:(constructor)) as (chunks & metas & Hrun & Hkept).
  exists chunks, metas. unfold ImprovedBhutanRAG.create_enhanced_chunks.
  rewrite Hrun. split; [reflexivity | exact Hkept].
Qed.

(** ** The keyword search and its metadata *)

Lemma improved_score_loop_metadata (query : string) (chunks : list string) :
  forall i0 metas acc,
    (i0 <= List.length metas)%nat ->
    if (i0 + List.length chunks <=? List.length metas)%nat
    then exists scored,
           ImprovedBhutanRAG.score_loop query (enumerate_from i0 chunks)
             metas acc = Ok scored
    else ImprovedBhutanRAG.score_loop query (enumerate_from i0 chunks)
           metas acc = Raise IndexError.
Proof.
  induction chunks as [|chunk rest IH]; intros i0 metas acc Hi0.
  - simpl. rewrite Nat.add_0_r.
    destruct (Nat.leb_spec i0 (List.length metas)); [now eexists | lia].
  - cbn [enumerate_from ImprovedBhutanRAG.score_loop List.length].
    destruct (nth_error metas i0) as [meta|] eqn:Hnth.
    + assert (Hlt : (i0 < List.length metas)%nat)
        by (apply nth_error_Some; congruence).
      specialize (IH (S i0) metas
                    (if 0 <? ImprovedBhutanRAG.chunk_score query chunk meta
                     then acc ++ [(ImprovedBhutanRAG.chunk_score query chunk
                                     meta, chunk, meta)]
                     else acc) Hlt).
      replace (i0 + S (List.length rest))%nat
        with (S i0 + List.length rest)%nat by lia.
      exact IH.
    + apply nth_error_None in Hnth.
      destruct (Nat.leb_spec (i0 + S (List.length rest)) (List.length metas));
        [lia | reflexivity].
Qed.

(** X11.  [enhanced_text_search] reads the metadata of every chunk, also of
    those that do not match.  So, whatever the question and [k], it returns
    when there is a metadata entry for every chunk, and raises [IndexError]
    when [metadata_with_context] is shorter than [chunks_with_context]. *)
Theorem enhanced_text_search_needs_metadata (r : ImprovedBhutanRAG.rag)
  (query : string) (k : Z) :
  if (List.length (ImprovedBhutanRAG.chunks_with_context r)
        <=? List.length (ImprovedBhutanRAG.metadata_with_context r))%nat
  then exists found, ImprovedBhutanRAG.enhanced_text_search r query k = Ok found
  else ImprovedBhutanRAG.enhanced_text_search r query k = Raise IndexError.
Proof.
  pose proof (improved_score_loop_metadata query
                (ImprovedBhutanRAG.chunks_with_context r) 0
                (ImprovedBhutanRAG.metadata_with_context r) []
                ltac:(lia)) as Hloop.
  cbn [Nat.add] in Hloop. unfold ImprovedBhutanRAG.enhanced_text_search.
  fold (enumerate (ImprovedBhutanRAG.chunks_with_context r)) in Hloop.
  destruct (_ <=? _)%nat.
  - destruct Hloop as [scored ->]. cbn [bind]. now eexists.
  - now rewrite Hloop.
Qed.

Example enhanced_text_search_short_metadata :
  ImprovedBhutanRAG.enhanced_text_search
    {| ImprovedBhutanRAG.chunks_with_context :=
         ImprovedBhutanRAG.chunks_with_context penalty_store;
       ImprovedBhutanRAG.metadata_with_context := [];
       ImprovedBhutanRAG.vector_db := None |}
    "elections" 5
  = Raise IndexError.
Proof. vm_compute. reflexivity. Qed.

(** ** The answer of the question-answering pipeline *)

Lemma flat_map_nil {A B} (f : A -> list B) (l : list A) :
  (forall x, f x = []) -> flat_map f l = [].
Proof.
  intros Hf. induction l as [|x l IH]; simpl; [reflexivity|].
  now rewrite Hf, IH.
Qed.

Lemma extract_general_info_no_words (doc : string) (rest : list string)
  (metadata : list chunk_meta) :
  ImprovedBhutanRAG.extract_general_info (doc :: rest) metadata EmptyString
  = Ok ("Based on the available legal text: " ++ str_take 300 doc ++ "...")%string.
Proof.
  unfold ImprovedBhutanRAG.extract_general_info.
  change (split (lower EmptyString)) with (@nil string).
  rewrite flat_map_nil; [reflexivity|].
  intros d. apply flat_map_nil. intros sentence. cbn.
  now destruct (20 <? _).
Qed.

(** X12.  What [generate_enhanced_response] makes of an answer of the
    question-answering pipeline that it accepts (not empty once stripped,
    score above 0.1), when there is a context: an answer of fewer than 20
    characters is dropped for the first 300 characters of the first context
    document; one of 20 to 49 characters is followed by the first 200
    characters of that document; a longer one is returned as it is. *)
Theorem pipeline_answer_formatting (E : env) (query doc : string)
  (rest : list string) (metadata : list chunk_meta)
  (pipeline : string -> string -> option (string * Q))
  (raw : string) (confidence : Q) :
  qa_pipeline E = Some pipeline ->
  pipeline query
    (str_take 2000
       (ImprovedBhutanRAG.combine_legal_context (doc :: rest) metadata query))
    = Some (raw, confidence) ->
  truthy (strip raw) = true ->
  Qle_bool confidence (1 # 10) = false ->
  ImprovedBhutanRAG.generate_enhanced_response E query (doc :: rest) metadata
  = Ok (if Z.of_nat (String.length (strip raw)) <? 20
        then ("Based on the available legal text: "
                ++ str_take 300 doc ++ "...")%string
        else if Z.of_nat (String.length (strip raw)) <? 50
        then (strip raw ++ " " ++ str_take 200 doc ++ "...")%string
        else strip raw).
Proof.
  intros Hpipe Hanswer Htruthy Hconf.
  unfold ImprovedBhutanRAG.generate_enhanced_response.
  rewrite Hpipe, Hanswer, Htruthy, Hconf. cbn [andb negb].
  unfold ImprovedBhutanRAG.format_legal_answer.
  destruct (Z.of_nat (String.length (strip raw)) <? 20).
  - now rewrite extract_general_info_no_words.
  - now destruct (Z.of_nat (String.length (strip raw)) <? 50).
Qed.

Lemma pipeline_answer_formatting_witness :
  ImprovedBhutanRAG.generate_enhanced_response (answering_env "imprisonment")
    "What is the penalty for corruption?"
    (ImprovedBhutanRAG.chunks_with_context penalty_store)
    (ImprovedBhutanRAG.metadata_with_context penalty_store)
  = Ok "Based on the available legal text: The penalty for corruption is imprisonment....".
Proof.
  exact (pipeline_answer_formatting (answering_env "imprisonment")
           "What is the penalty for corruption?"
           "The penalty for corruption is imprisonment."
           [ "What is the penalty for theft in this Code?";
             "A tax is levied on land." ]
           (ImprovedBhutanRAG.metadata_with_context penalty_store)
           (fun _ _ => Some ("imprisonment", (9 # 10)%Q))
           "imprisonment" (9 # 10)%Q
           eq_refl eq_refl eq_refl eq_refl).
Defined.

(** ** A build of the index that fails half way *)

Lemma firstn_then_slice {A} (l : list A) (i s : Z) :
  0 <= i -> 0 <= s ->
  firstn (Z.to_nat i) l ++ slice l i (i + s) = firstn (Z.to_nat (i + s)) l.
Proof.
  intros Hi Hs.
  apply (app_inv_tail (skipn (Z.to_nat (i + s)) l)).
  rewrite <- app_assoc, slice_then_rest by assumption.
  now rewrite !firstn_skipn.
Qed.

Section PartialBuild.
Import BhutanLegalRAG.
Variable E : env.
Variables (chunks : list string) (metadata : list chunk_meta).

Let n : Z := len chunks.

Lemma bhutan_add_batches_prefix (fuel : nat) :
  forall i coll,
    0 <= i -> n - i <= Z.of_nat fuel ->
    map entry_document coll = firstn (Z.to_nat i) chunks ->
    exists j,
      map entry_document
        (snd (add_batches E chunks metadata 50 (range_up fuel i n 50) coll))
        = firstn j chunks /\
      if fst (add_batches E chunks metadata 50 (range_up fuel i n 50) coll)
      then (List.length chunks <= j)%nat
      else (j < List.length chunks)%nat.
Proof using Type.
  induction fuel as [|fuel IH]; intros i coll Hi Hfuel Hcoll.
  - exists (Z.to_nat i). simpl. split; [assumption|]. unfold n, len in *. lia.
  - simpl. destruct (Z.ltb_spec i n) as [Hin|Hout].
    2:{ exists (Z.to_nat i). simpl. split; [assumption|].
        unfold n, len in *. lia. }
    cbn [add_batches].
    destruct (encode_all E (slice chunks i (i + 50))) as [embeddings|]
      eqn:Henc.
    2:{ exists (Z.to_nat i). simpl. split; [assumption|].
        unfold n, len in *. lia. }
    unfold collection_add.
    destruct (_ && _)%bool eqn:Hlens.
    2:{ exists (Z.to_nat i). simpl. split; [assumption|].
        unfold n, len in *. lia. }
    apply andb_prop in Hlens. destruct Hlens as [Hlens Hids].
    apply andb_prop in Hlens. destruct Hlens as [Hembs Hmetas].
    apply Nat.eqb_eq in Hembs, Hmetas, Hids.
    destruct (make_entries_fields (slice chunks i (i + 50))
                (chunk_ids i (List.length (slice chunks i (i + 50))))
                embeddings (slice metadata i (i + 50)) Hembs Hmetas Hids)
      as (Hd & _).
    apply IH; [lia | lia |].
    rewrite map_app, Hd, Hcoll. apply firstn_then_slice; lia.
Qed.

End PartialBuild.

(** X13.  When the vector store opens, [chromadb/] holds no collection, and
    the build of [setup_vector_database] fails (the object is left without
    [vector_db]), the object keeps all chunks for the keyword search, but
    the collection stays in [chromadb/] with the chunks added before the
    failure: a proper prefix of the chunks.  Every later
    [setup_vector_database] over that directory, whatever chunks it is
    given, takes this collection as its index and builds nothing. *)
Theorem failed_build_leaves_partial_index (E : env)
  (chunks : list string) (metadata : list chunk_meta)
  (r : BhutanLegalRAG.rag) :
  chromadb_opens E = true ->
  BhutanLegalRAG.chromadb_dir r = None ->
  BhutanLegalRAG.vector_db
    (BhutanLegalRAG.setup_vector_database E chunks metadata r) = None ->
  exists coll j,
    BhutanLegalRAG.chromadb_dir
      (BhutanLegalRAG.setup_vector_database E chunks metadata r) = Some coll /\
    map entry_document coll = firstn j chunks /\
    (j < List.length chunks)%nat /\
    BhutanLegalRAG.fallback
      (BhutanLegalRAG.setup_vector_database E chunks metadata r)
      = Some (chunks, metadata) /\
    forall chunks' metadata' r',
      BhutanLegalRAG.chromadb_dir r' = Some coll ->
      BhutanLegalRAG.vector_db
        (BhutanLegalRAG.setup_vector_database E chunks' metadata' r')
        = Some coll /\
      BhutanLegalRAG.fallback
        (BhutanLegalRAG.setup_vector_database E chunks' metadata' r')
        = BhutanLegalRAG.fallback r'.
Proof.
  intros Hopens Hdir.
  unfold BhutanLegalRAG.setup_vector_database at 1 2 3.
  rewrite Hopens, Hdir.
  destruct (bhutan_add_batches_prefix E chunks metadata
              (Z.to_nat (len chunks)) 0 [] ltac:(lia) ltac:(unfold len; lia)
              eq_refl) as (j & Hdocs & Hj).
  destruct (BhutanLegalRAG.add_batches E chunks metadata 50 _ [])
    as [ok coll].
  cbn [fst snd] in Hdocs, Hj.
  destruct ok; cbn; [discriminate|]. intros _.
  exists coll, j.
  split; [reflexivity|]. split; [assumption|]. split; [assumption|].
  split; [reflexivity|].
  intros chunks' metadata' r' Hdir'.
  unfold BhutanLegalRAG.setup_vector_database. rewrite Hopens, Hdir'.
  now split.
Qed.

Lemma failed_build_leaves_partial_index_witness :
  chromadb_opens (flaky_env "A tax is levied on land.") = true /\
  BhutanLegalRAG.chromadb_dir bhutan_fresh = None /\
  BhutanLegalRAG.vector_db
    (BhutanLegalRAG.setup_vector_database
       (flaky_env "A tax is levied on land.")
       (ImprovedBhutanRAG.chunks_with_context penalty_store)
       (ImprovedBhutanRAG.metadata_with_context penalty_store)
       bhutan_fresh) = None /\
  exists coll j,
    BhutanLegalRAG.chromadb_dir
      (BhutanLegalRAG.setup_vector_database
         (flaky_env "A tax is levied on land.")
         (ImprovedBhutanRAG.chunks_with_context penalty_store)
         (ImprovedBhutanRAG.metadata_with_context penalty_store)
         bhutan_fresh) = Some coll /\
    map entry_document coll
      = firstn j (ImprovedBhutanRAG.chunks_with_context penalty_store) /\
    (j < 3)%nat.
Proof.
  destruct (failed_build_leaves_partial_index
              (flaky_env "A tax is levied on land.")
              (ImprovedBhutanRAG.chunks_with_context penalty_store)
              (ImprovedBhutanRAG.metadata_with_context penalty_store)
              bhutan_fresh eq_refl eq_refl eq_refl)
    as (coll & j & Hdir & Hdocs & Hj & _).
  split; [reflexivity|]. split; [reflexivity|]. split; [reflexivity|].
  exists coll, j. split; [exact Hdir|]. split; [exact Hdocs | exact Hj].
Defined.

(** ** The keyword search of BhutanLegalRAG *)

Lemma bhutan_score_loop_matched (query_words : list string)
  (chunks : list string) :
  forall i0 pre metas acc,
    List.length pre = i0 -> List.length metas = List.length chunks ->
    BhutanLegalRAG.score_loop query_words (enumerate_from i0 chunks)
      (pre ++ metas) acc
    = Ok (acc ++
          map (fun cm =>
                 (len (filter (fun word => str_in word (lower (fst cm)))
                         query_words), fst cm, snd cm))
              (filter (fun cm =>
                         0 <? len (filter (fun word =>
                                             str_in word (lower (fst cm)))
                                     query_words))
                      (combine chunks metas))).
Proof.
  induction chunks as [|c chunks IH]; intros i0 pre metas acc Hpre Hlen.
  - simpl. now rewrite app_nil_r.
  - destruct metas as [|m metas]; [discriminate|].
    cbn [enumerate_from BhutanLegalRAG.score_loop combine filter fst snd].
    rewrite nth_error_app2 by lia. rewrite <- Hpre, Nat.sub_diag.
    cbn [nth_error].
    replace (pre ++ m :: metas) with ((pre ++ [m]) ++ metas)
      by now rewrite <- app_assoc.
    destruct (0 <? _).
    + rewrite IH by (rewrite ?length_app; simpl in *; lia).
      cbn [map fst snd]. now rewrite <- app_assoc.
    + apply IH; rewrite ?length_app; simpl in *; lia.
Qed.

Lemma in_combine_nth {A B} (l : list A) :
  forall (l' : list B) a b,
    In (a, b) (combine l l') ->
    exists i, nth_error l i = Some a /\ nth_error l' i = Some b.
Proof.
  induction l as [|x l IH]; intros [|y l'] a b Hin; simpl in Hin;
    try contradiction.
  destruct Hin as [[= <- <-]|Hin].
  - now exists 0%nat.
  - destruct (IH l' a b Hin) as (i & Ha & Hb). now exists (S i).
Qed.

Lemma filter_combine_length {A B} (f : A -> bool) (l : list A) :
  forall l' : list B, List.length l' = List.length l ->
    List.length (filter (fun ab => f (fst ab)) (combine l l'))
    = List.length (filter f l).
Proof.
  induction l as [|x l IH]; intros [|y l'] Hlen; try discriminate;
    [reflexivity|].
  simpl. destruct (f x); simpl; rewrite IH; auto.
Qed.

Lemma StronglySorted_firstn {A} (R : A -> A -> Prop) (n : nat) :
  forall l, StronglySorted R l -> StronglySorted R (firstn n l).
Proof.
  induction n as [|n IH]; intros l Hl; [constructor|].
  destruct l as [|x l]; [constructor|]. simpl.
  apply StronglySorted_inv in Hl as [Hl Hx].
  constructor; [now apply IH|].
  rewrite Forall_forall in *. intros y Hy. apply Hx.
  rewrite <- (firstn_skipn n l). apply in_or_app. now left.
Qed.

(** X14.  The keyword search that [search_legal_documents] falls back to
    when the object has no index and kept its chunks, with one metadata
    entry per chunk and [k] not negative.  It returns; the results are the
    chunks in which at least one word of the question occurs, or the first
    [k] of them: each result is a stored chunk with the metadata stored at
    the same position, and the number of question words found does not
    increase along the results. *)
Theorem keyword_fallback_results (E : env) (r : BhutanLegalRAG.rag)
  (chunks : list string) (metas : list chunk_meta) (query : string) (k : Z) :
  BhutanLegalRAG.vector_db r = None ->
  BhutanLegalRAG.fallback r = Some (chunks, metas) ->
  List.length metas = List.length chunks ->
  0 <= k ->
  exists docs ms,
    BhutanLegalRAG.search_legal_documents E r query k = Ok (docs, ms) /\
    len docs
      = Z.min k (len (filter (fun c => 0 <? matching_words query c) chunks)) /\
    Forall2 (fun doc m =>
               0 < matching_words query doc /\
               exists i, nth_error chunks i = Some doc /\
                         nth_error metas i = Some m) docs ms /\
    StronglySorted
      (fun a b => matching_words query b <= matching_words query a) docs.
Proof.
  intros Hdb Hfb Hlen Hk.
  unfold BhutanLegalRAG.search_legal_documents. rewrite Hdb, Hfb.
  unfold BhutanLegalRAG.simple_text_search.
  pose proof (bhutan_score_loop_matched (split (lower query)) chunks 0 []
                metas [] eq_refl Hlen) as Hloop.
  cbn [app] in Hloop. fold (enumerate chunks) in Hloop.
  rewrite Hloop. cbn [bind]. clear Hloop.
  fold (matching_words query).
  set (tag := fun cm : string * chunk_meta =>
                (len (filter (fun word => str_in word (lower (fst cm)))
                        (split (lower query))), fst cm, snd cm)).
  set (matched := filter (fun cm : string * chunk_meta =>
                            0 <? len (filter (fun word =>
                                                str_in word (lower (fst cm)))
                                        (split (lower query))))
                         (combine chunks metas)).
  set (key := fun x : Z * string * chunk_meta => fst (fst x)).
  set (P := fun x : Z * string * chunk_meta =>
              fst (fst x) = matching_words query (snd (fst x)) /\
              0 < matching_words query (snd (fst x)) /\
              exists i, nth_error chunks i = Some (snd (fst x)) /\
                        nth_error metas i = Some (snd x)).
  assert (HP : Forall P (map tag matched)).
  { apply Forall_forall. intros x Hx. apply in_map_iff in Hx.
    destruct Hx as ([c m] & <- & Hcm). unfold matched in Hcm.
    apply filter_In in Hcm. destruct Hcm as [Hin Hpos].
    unfold P, tag. cbn [fst snd] in *.
    split; [reflexivity|]. split; [apply Z.ltb_lt; exact Hpos|].
    now apply in_combine_nth. }
  assert (HPs : Forall P (slice_to (sort_desc key (map tag matched)) k)).
  { apply slice_to_incl. unfold sort_desc. now apply stable_sort_Forall. }
  eexists _, _. split; [reflexivity|]. split; [|split].
  - unfold len at 1. rewrite length_map. fold (len (slice_to (sort_desc key (map tag matched)) k)).
    rewrite slice_to_len by assumption. unfold len, sort_desc.
    rewrite stable_sort_length, length_map. do 2 f_equal.
    exact (filter_combine_length
             (fun c => 0 <? matching_words query c) chunks metas Hlen).
  - apply Forall2_map_pair. eapply Forall_impl; [|exact HPs].
    intros x (_ & Hpos & Hi). now split.
  - apply (StronglySorted_map_in (fun x => snd (fst x)) P
             (fun a b => key b <= key a)); [| exact HPs |].
    + intros a b (Ha & _) (Hb & _) Hab. unfold key in Hab. lia.
    + rewrite slice_to_firstn by assumption. apply StronglySorted_firstn.
      unfold sort_desc.
      apply (stable_sort_sorted (fun y x => key x <? key y)
               (fun a b => key b <= key a)).
      * intros a b c; lia.
      * intros y x H. apply Z.ltb_lt in H. lia.
      * intros y x H. apply Z.ltb_ge in H. lia.
Qed.

Lemma keyword_fallback_results_witness :
  exists docs ms,
    BhutanLegalRAG.search_legal_documents (sample_env false)
      {| BhutanLegalRAG.vector_db := None;
         BhutanLegalRAG.fallback :=
           Some (ImprovedBhutanRAG.chunks_with_context penalty_store,
                 ImprovedBhutanRAG.metadata_with_context penalty_store);
         BhutanLegalRAG.chromadb_dir := None |}
      "penalty for corruption" 5 = Ok (docs, ms) /\
    len docs = 2.
Proof.
  destruct (keyword_fallback_results (sample_env false)
              {| BhutanLegalRAG.vector_db := None;
                 BhutanLegalRAG.fallback :=
                   Some (ImprovedBhutanRAG.chunks_with_context penalty_store,
                         ImprovedBhutanRAG.metadata_with_context penalty_store);
                 BhutanLegalRAG.chromadb_dir := None |}
              (ImprovedBhutanRAG.chunks_with_context penalty_store)
              (ImprovedBhutanRAG.metadata_with_context penalty_store)
              "penalty for corruption" 5
              eq_refl eq_refl eq_refl ltac:(lia))
    as (docs & ms & Hrun & Hcount & _).
  exists docs, ms. split; [exact Hrun | exact Hcount].
Defined.

(** ** The sections of a legal document *)

Section Sections.
Import ImprovedBhutanRAG.
Variable E : env.
Variable text : string.

(** The loop over the matches, with the piece after the last match, gives
    the pieces between the matches. *)
Lemma between_matches_gaps (matches : list (nat * nat)) :
  forall last_end result,
    (if (snd (between_matches text matches last_end result)
           <? String.length text)%nat
     then fst (between_matches text matches last_end result)
            ++ [str_slice (snd (between_matches text matches last_end result))
                  (String.length text) text]
     else fst (between_matches text matches last_end result))
    = result
      ++ map (fun ab => str_slice (fst ab) (snd ab) text)
           (filter (fun ab => (fst ab <? snd ab)%nat)
              (combine (last_end :: map snd matches)
                       (map fst matches ++ [String.length text]))).
Proof using Type.
  induction matches as [|[match_start match_end] rest IH];
    intros last_end result.
  - cbn [between_matches map fst snd app combine filter].
    destruct (last_end <? String.length text)%nat;
      [reflexivity | cbn [map]; now rewrite app_nil_r].
  - cbn [between_matches map fst snd app combine filter]. rewrite IH.
    destruct (last_end <? match_start)%nat; [|reflexivity].
    cbn [map fst snd]. now rewrite <- app_assoc.
Qed.

Lemma patterns_loop_first (pats : list string) :
  match patterns_loop E text pats with
  | Some result =>
      exists pre pattern post,
        pats = pre ++ pattern :: post /\
        forallb (fun p => negb (splits_well E text p)) pre = true /\
        splits_well E text pattern = true /\
        result = long_gaps E text pattern
  | None => forallb (fun p => negb (splits_well E text p)) pats = true
  end.
Proof using Type.
  induction pats as [|pattern rest IH]; [reflexivity|].
  cbn [patterns_loop forallb].
  assert (Hstep :
    splits_well E text pattern = false ->
    match patterns_loop E text rest with
    | Some result =>
        exists pre pattern0 post,
          pattern :: rest = pre ++ pattern0 :: post /\
          forallb (fun p => negb (splits_well E text p)) pre = true /\
          splits_well E text pattern0 = true /\
          result = long_gaps E text pattern0
    | None =>
        negb (splits_well E text pattern)
        && forallb (fun p => negb (splits_well E text p)) rest = true
    end).
  { intros Hno.
    destruct (patterns_loop E text rest) as [result|].
    - destruct IH as (pre & pattern0 & post & -> & Hpre & Hgood & ->).
      exists (pattern :: pre), pattern0, post.
      split; [reflexivity|]. split; [|now split].
      cbn [forallb]. now rewrite Hno, Hpre.
    - now rewrite Hno, IH. }
  destruct (3 <? len (re_split E pattern text)) eqn:Hparts.
  2:{ apply Hstep. unfold splits_well. now rewrite Hparts. }
  pose proof (between_matches_gaps (re_finditer E pattern text) 0 [])
    as Hgaps.
  destruct (between_matches text (re_finditer E pattern text) 0 [])
    as [between last_end].
  cbn [fst snd app] in Hgaps. rewrite Hgaps.
  fold (gaps text (re_finditer E pattern text)).
  fold (long_gaps E text pattern).
  destruct (2 <? len (long_gaps E text pattern)) eqn:Hmany.
  - exists [], pattern, rest. split; [reflexivity|]. split; [reflexivity|].
    split; [|reflexivity]. unfold splits_well. now rewrite Hparts, Hmany.
  - apply Hstep. unfold splits_well. now rewrite Hparts, Hmany.
Qed.

End Sections.

(** X15.  [split_legal_document] always returns, with one of two results.
    Either some pattern splits the text well: then the result is, for the
    first such pattern of the list, the pieces of the text between its
    matches that have more than 100 characters once stripped, in the order
    of the text; there are at least three of them.  A piece goes from the
    end of a match, or the beginning of the text, to the start of the next
    match, or the end of the text, so that the text of a match, the
    heading, is in no piece.  Or no pattern splits the text well, and the
    result is that of [simple_chunk_text] with its defaults. *)
Theorem split_legal_document_sections (E : env) (text doc_name : string) :
  exists sections,
    ImprovedBhutanRAG.split_legal_document E text doc_name = Ok sections /\
    ((exists pre pattern post,
         ImprovedBhutanRAG.patterns = pre ++ pattern :: post /\
         forallb (fun p => negb (splits_well E text p)) pre = true /\
         splits_well E text pattern = true /\
         sections = long_gaps E text pattern /\
         2 < len sections /\
         Forall (fun s => 100 < Z.of_nat (String.length (strip s))) sections) \/
     (forallb (fun p => negb (splits_well E text p))
        ImprovedBhutanRAG.patterns = true /\
      simple_chunk_text text 1500 300 = Ok sections)).
Proof.
  unfold ImprovedBhutanRAG.split_legal_document.
  pose proof (patterns_loop_first E text ImprovedBhutanRAG.patterns) as Hloop.
  destruct (ImprovedBhutanRAG.patterns_loop E text ImprovedBhutanRAG.patterns)
    as [result|].
  - exists result. split; [reflexivity|]. left.
    destruct Hloop as (pre & pattern & post & Hpats & Hpre & Hgood & ->).
    exists pre, pattern, post. repeat split; try assumption.
    + unfold splits_well in Hgood. apply andb_prop in Hgood.
      now apply Z.ltb_lt.
    + apply Forall_forall. intros s Hs. unfold long_gaps in Hs.
      apply filter_In in Hs. now apply Z.ltb_lt.
  - rewrite simple_chunk_text_eq, chunk_text_windows by lia.
    eexists. split; [reflexivity|]. right. now split.
Qed.

(** A text with three headings: the sections are the texts after the
    headings, without the headings. *)
Example split_legal_document_drops_headings :
  ImprovedBhutanRAG.split_legal_document articles_env articles_text
    "Constitution_2008"
  = Ok [ str_slice 11 131 articles_text;
         str_slice 142 262 articles_text;
         str_slice 273 393 articles_text ] /\
  str_slice 0 11 articles_text = "Article 1. " /\
  str_slice 11 25 articles_text = "Bhutan is a so".
Proof. repeat split; vm_compute; reflexivity. Qed.

(** ** Batches that fail in ImprovedBhutanRAG *)

Section SkippedBatches.
Import ImprovedBhutanRAG.
Variable E : env.
Variables (chunks : list string) (metadata : list chunk_meta).
Hypothesis aligned : List.length metadata = List.length chunks.

Lemma improved_add_batches_kept (idxs : list Z) :
  Forall (fun i => 0 <= i) idxs ->
  forall coll,
    map entry_document (add_batches E chunks metadata 20 idxs coll)
      = map entry_document coll
        ++ flat_map (fun i => slice chunks i (i + 20))
             (filter (batch_embeds E chunks 20) idxs) /\
    map entry_metadata (add_batches E chunks metadata 20 idxs coll)
      = map entry_metadata coll
        ++ flat_map (fun i => slice metadata i (i + 20))
             (filter (batch_embeds E chunks 20) idxs).
Proof using aligned.
  induction 1 as [|i rest Hi _ IH]; intros coll.
  - simpl. now rewrite !app_nil_r.
  - cbn [add_batches filter].
    destruct (encode_all E (slice chunks i (i + 20))) as [embeddings|]
      eqn:Henc.
    2:{ replace (batch_embeds E chunks 20 i) with false
          by (unfold batch_embeds; now rewrite Henc).
        apply IH. }
    replace (batch_embeds E chunks 20 i) with true
      by (unfold batch_embeds; now rewrite Henc).
    pose proof (Forall2_length (encode_all_each E _ _ Henc)) as Helen.
    assert (Hmlen : List.length (slice metadata i (i + 20))
                    = List.length (slice chunks i (i + 20))).
    { pose proof (slice_window_len metadata i 20 Hi ltac:(lia)) as H1.
      pose proof (slice_window_len chunks i 20 Hi ltac:(lia)) as H2.
      unfold len in *. lia. }
    destruct (make_entries_fields (slice chunks i (i + 20))
                (chunk_ids i (List.length (slice chunks i (i + 20))))
                embeddings (slice metadata i (i + 20)))
      as (Hd & Hm & _); [congruence | assumption | |].
    { unfold chunk_ids. now rewrite length_map, length_seq. }
    unfold collection_add.
    replace (_ && _)%bool with true.
    2:{ symmetry. rewrite !andb_true_iff, !Nat.eqb_eq. repeat split.
        - congruence.
        - assumption.
        - unfold chunk_ids. now rewrite length_map, length_seq. }
    destruct (IH (coll ++ make_entries
                    (chunk_ids i (List.length (slice chunks i (i + 20))))
                    embeddings (slice chunks i (i + 20))
                    (slice metadata i (i + 20)))) as [IHd IHm].
    rewrite IHd, IHm, !map_app, Hd, Hm. cbn [flat_map].
    now rewrite <- !app_assoc.
Qed.

End SkippedBatches.

(** X16.  In [ImprovedBhutanRAG.setup_vector_database] a batch of 20 chunks
    that the model fails to embed is skipped and the build goes on.  With
    one metadata entry per chunk, the index holds, in order and with their
    metadata, the chunks of exactly those batches that the model embedded;
    the object gets this index whatever is missing from it. *)
Theorem failed_batches_are_skipped (E : env)
  (chunks : list string) (metadata : list chunk_meta)
  (r : ImprovedBhutanRAG.rag) :
  chromadb_opens E = true ->
  List.length metadata = List.length chunks ->
  exists coll,
    ImprovedBhutanRAG.vector_db
      (ImprovedBhutanRAG.setup_vector_database E chunks metadata r)
      = Some coll /\
    map entry_document coll
      = flat_map (fun i => slice chunks i (i + 20))
          (filter (batch_embeds E chunks 20)
             (range_up (Z.to_nat (len chunks)) 0 (len chunks) 20)) /\
    map entry_metadata coll
      = flat_map (fun i => slice metadata i (i + 20))
          (filter (batch_embeds E chunks 20)
             (range_up (Z.to_nat (len chunks)) 0 (len chunks) 20)).
Proof.
  intros Hopens Haligned.
  unfold ImprovedBhutanRAG.setup_vector_database. rewrite Hopens.
  eexists. split; [reflexivity|].
  exact (improved_add_batches_kept E chunks metadata Haligned _
           (range_up_ge _ 0 _ 20 ltac:(lia)) []).
Qed.

Lemma failed_batches_are_skipped_witness :
  exists coll,
    ImprovedBhutanRAG.vector_db
      (ImprovedBhutanRAG.setup_vector_database
         (flaky_env "A tax is levied on land.")
         (ImprovedBhutanRAG.chunks_with_context penalty_store)
         (ImprovedBhutanRAG.metadata_with_context penalty_store)
         penalty_store) = Some coll /\
    map entry_document coll = [].
Proof.
  destruct (failed_batches_are_skipped
              (flaky_env "A tax is levied on land.")
              (ImprovedBhutanRAG.chunks_with_context penalty_store)
              (ImprovedBhutanRAG.metadata_with_context penalty_store)
              penalty_store eq_refl eq_refl) as (coll & Hdb & Hdocs & _).
  exists coll. split; [exact Hdb | exact Hdocs].
Defined.

(** ** The answer without a generative model *)

Lemma quotable_iff (query doc sentence : string) :
  In sentence (quotable query doc) <-> quoted_from query doc sentence.
Proof.
  unfold quotable, quoted_from. rewrite in_map_iff. split.
  - intros (piece & <- & Hpiece). apply filter_In in Hpiece.
    destruct Hpiece as [Hin Hok]. apply andb_prop in Hok.
    destruct Hok as [Hlong Hword].
    split; [now exists piece|]. split; [now apply Z.ltb_lt|].
    now apply existsb_exists.
  - intros ((piece & Hin & ->) & Hlong & Hword).
    exists piece. split; [reflexivity|]. apply filter_In.
    split; [assumption|]. apply andb_true_intro. split.
    + now apply Z.ltb_lt.
    + now apply existsb_exists.
Qed.

(** The sentences that the loop finds relevant in a document are the
    quotable ones. *)
Lemma relevant_sentences_quotable (query : string) (pieces : list string) :
  filter (fun sentence =>
            existsb (fun word => str_in word (lower sentence))
                    (split (lower query)))
         (map strip
            (filter (fun s => 20 <? Z.of_nat (String.length (strip s)))
                    pieces))
  = map strip
      (filter (fun piece =>
                 (20 <? Z.of_nat (String.length (strip piece)))
                 && existsb (fun word => str_in word (lower (strip piece)))
                            (split (lower query)))
              pieces).
Proof.
  induction pieces as [|piece rest IH]; [reflexivity|].
  cbn [filter]. destruct (20 <? Z.of_nat (String.length (strip piece))).
  - cbn [map filter andb].
    destruct (existsb _ (split (lower query))); cbn [map]; now rewrite IH.
  - exact IH.
Qed.

Lemma fallback_loop_first (query : string)
  (pairs : list (string * chunk_meta)) :
  match PersistentBhutanRAG.fallback_loop (lower query) pairs with
  | Some answer =>
      exists pre doc meta post,
        pairs = pre ++ (doc, meta) :: post /\
        Forall (fun dm => quotable query (fst dm) = []) pre /\
        quotable query doc <> [] /\
        answer = ("According to " ++ replace_char "_" " " (document meta)
                    ++ ": " ++ join ". " (firstn 2 (quotable query doc))
                    ++ ".")%string
  | None => Forall (fun dm => quotable query (fst dm) = []) pairs
  end.
Proof.
  induction pairs as [|[doc meta] rest IH]; [constructor|].
  cbn [PersistentBhutanRAG.fallback_loop].
  rewrite relevant_sentences_quotable. fold (quotable query doc).
  destruct (quotable query doc) as [|s0 more] eqn:Hq.
  - destruct (PersistentBhutanRAG.fallback_loop (lower query) rest)
      as [answer|].
    + destruct IH as (pre & d & m & post & -> & Hpre & Hne & ->).
      exists ((doc, meta) :: pre), d, m, post.
      split; [reflexivity|]. split; [|now split].
      constructor; assumption.
    + constructor; assumption.
  - exists [], doc, meta, rest. split; [reflexivity|].
    split; [constructor|]. rewrite Hq. split; [discriminate|].
    now rewrite slice_to_firstn by lia.
Qed.

(** X17.  The answer that [generate_fallback_response] gives is taken from
    the context.  A sentence can be quoted from a chunk when it is one of
    the pieces of the chunk between full stops, stripped, has more than 20
    characters, and contains a word of the question.  The answer names the
    document of the first context chunk, of those that have metadata, from
    which a sentence can be quoted, and quotes the first two such sentences
    of that chunk, or the only one; when no sentence can be quoted from any
    of these chunks, it is the first 400 characters of the first chunk. *)
Theorem fallback_answer_is_extractive (query : string)
  (context_docs : list string) (metadata : list chunk_meta) (answer : string) :
  PersistentBhutanRAG.generate_fallback_response query context_docs metadata
    = Ok answer ->
  (forall doc sentence,
      In sentence (quotable query doc) <-> quoted_from query doc sentence) /\
  ((exists pre doc meta post,
       combine context_docs metadata = pre ++ (doc, meta) :: post /\
       Forall (fun dm => forall sentence,
                           ~ quoted_from query (fst dm) sentence) pre /\
       (exists sentence, quoted_from query doc sentence) /\
       answer = ("According to " ++ replace_char "_" " " (document meta)
                   ++ ": " ++ join ". " (firstn 2 (quotable query doc))
                   ++ ".")%string) \/
   (exists doc rest,
       context_docs = doc :: rest /\
       Forall (fun dm => forall sentence,
                           ~ quoted_from query (fst dm) sentence)
              (combine context_docs metadata) /\
       answer = ("Based on Bhutan's legal documents: "
                   ++ str_take 400 doc ++ "...")%string)).
Proof.
  assert (Hnone : forall pairs : list (string * chunk_meta),
             Forall (fun dm => quotable query (fst dm) = []) pairs ->
             Forall (fun dm => forall sentence,
                                 ~ quoted_from query (fst dm) sentence) pairs).
  { intros pairs Hall. eapply Forall_impl; [|exact Hall].
    intros dm Hdm sentence Hs. apply quotable_iff in Hs.
    rewrite Hdm in Hs. contradiction. }
  unfold PersistentBhutanRAG.generate_fallback_response.
  pose proof (fallback_loop_first query (combine context_docs metadata))
    as Hloop.
  destruct (PersistentBhutanRAG.fallback_loop (lower query)
              (combine context_docs metadata)) as [found|].
  - intros [= <-]. split; [intros; apply quotable_iff|]. left.
    destruct Hloop as (pre & doc & meta & post & Hpairs & Hpre & Hne & ->).
    exists pre, doc, meta, post. split; [exact Hpairs|].
    split; [now apply Hnone|]. split; [|reflexivity].
    destruct (quotable query doc) as [|s0 more] eqn:Hq; [congruence|].
    exists s0. apply quotable_iff. rewrite Hq. now left.
  - destruct context_docs as [|doc rest]; [discriminate|].
    intros [= <-]. split; [intros; apply quotable_iff|]. right.
    exists doc, rest. split; [reflexivity|]. split; [|reflexivity].
    now apply Hnone.
Qed.

Lemma fallback_answer_is_extractive_witness :
  PersistentBhutanRAG.generate_fallback_response "penalty for corruption"
    (ImprovedBhutanRAG.chunks_with_context penalty_store)
    (ImprovedBhutanRAG.metadata_with_context penalty_store)
  = Ok "According to Penal Code 2004: The penalty for corruption is imprisonment." /\
  ((exists pre doc meta post,
       combine (ImprovedBhutanRAG.chunks_with_context penalty_store)
               (ImprovedBhutanRAG.metadata_with_context penalty_store)
         = pre ++ (doc, meta) :: post /\
       Forall (fun dm => forall sentence,
                 ~ quoted_from "penalty for corruption" (fst dm) sentence)
              pre /\
       (exists sentence, quoted_from "penalty for corruption" doc sentence) /\
       "According to Penal Code 2004: The penalty for corruption is imprisonment."
       = ("According to " ++ replace_char "_" " " (document meta)
            ++ ": "
            ++ join ". " (firstn 2 (quotable "penalty for corruption" doc))
            ++ ".")%string) \/
   (exists doc rest,
       ImprovedBhutanRAG.chunks_with_context penalty_store = doc :: rest /\
       Forall (fun dm => forall sentence,
                 ~ quoted_from "penalty for corruption" (fst dm) sentence)
              (combine (ImprovedBhutanRAG.chunks_with_context penalty_store)
                       (ImprovedBhutanRAG.metadata_with_context penalty_store)) /\
       "According to Penal Code 2004: The penalty for corruption is imprisonment."
       = ("Based on Bhutan's legal documents: "
            ++ str_take 400 doc ++ "...")%string)).
Proof.
  assert (Hrun : PersistentBhutanRAG.generate_fallback_response
                   "penalty for corruption"
                   (ImprovedBhutanRAG.chunks_with_context penalty_store)
                   (ImprovedBhutanRAG.metadata_with_context penalty_store)
                 = Ok "According to Penal Code 2004: The penalty for corruption is imprisonment.")
    by (vm_compute; reflexivity).
  split; [exact Hrun|].
  exact (proj2 (fallback_answer_is_extractive _ _ _ _ Hrun)).
Defined.
